(** * Validation strategies of the task management system

    A shallow embedding of [src/utils/ValidationStrategies.js]: the four
    field validators, the composite [TaskValidator] and the debouncing
    [RealTimeValidator], together with the part of the JavaScript runtime
    they rely on (truthiness, [String.prototype.trim], global regular
    expression replacement, [Date]), and the properties of the
    specification stated over them. *)

From Stdlib Require Import List ZArith NArith QArith Bool Lia String Ascii.
From Stdlib Require Import DecimalString Qabs Permutation.
Import ListNotations.

Local Open Scope Z_scope.

(* ================================================================== *)
(** ** JavaScript strings *)

(** A JavaScript string is a sequence of UTF-16 code units; [length],
    [trim] and [replace] all work on code units. *)
Definition jschar := N.
Definition jsstring := list jschar.

(** The code units of an ASCII literal of the source. *)
Definition lit (s : string) : jsstring :=
  map N_of_ascii (list_ascii_of_string s).

Definition str_length (s : jsstring) : Z := Z.of_nat (List.length s).

Fixpoint str_eqb (a b : jsstring) : bool :=
  match a, b with
  | [], [] => true
  | x :: a', y :: b' => N.eqb x y && str_eqb a' b'
  | _, _ => false
  end.

(** Code units removed by [trim]: WhiteSpace and LineTerminator of
    ECMAScript (TAB, LF, VT, FF, CR, SP, NBSP, U+1680, U+2000..U+200A,
    U+2028, U+2029, U+202F, U+205F, U+3000, U+FEFF). *)
Definition is_js_space (c : jschar) : bool :=
  ((9 <=? c) && (c <=? 13) || (c =? 32) || (c =? 160) || (c =? 5760)
   || (8192 <=? c) && (c <=? 8202) || (c =? 8232) || (c =? 8233)
   || (c =? 8239) || (c =? 8287) || (c =? 12288) || (c =? 65279))%N.

Fixpoint trimStart (s : jsstring) : jsstring :=
  match s with
  | [] => []
  | c :: t => if is_js_space c then trimStart t else s
  end.

Definition trimEnd (s : jsstring) : jsstring := rev (trimStart (rev s)).

Definition trim (s : jsstring) : jsstring := trimEnd (trimStart s).

(** [text.replace(/c/g, rep)] for a one-character pattern: every
    occurrence of [c], scanning left to right, is replaced by [rep]. *)
Fixpoint replace_all (c : jschar) (rep : jsstring) (text : jsstring) : jsstring :=
  match text with
  | [] => []
  | x :: t => (if N.eqb x c then rep else [x]) ++ replace_all c rep t
  end.

Definition ch_amp : jschar := 38%N.
Definition ch_lt : jschar := 60%N.
Definition ch_gt : jschar := 62%N.
Definition ch_quot : jschar := 34%N.
Definition ch_apos : jschar := 39%N.

(** [/<[^>]*>/g.test(text)] on a fresh regular expression: a match is
    tried at every start position; at a position holding [<] the rest
    must contain a [>]. *)
Fixpoint containsHtml (text : jsstring) : bool :=
  match text with
  | [] => false
  | c :: t => (N.eqb c ch_lt && existsb (N.eqb ch_gt) t) || containsHtml t
  end.

(** The five chained [replace] calls of [sanitize], [&] first. *)
Definition sanitize (text : jsstring) : jsstring :=
  replace_all ch_apos (lit "&#x27;")
    (replace_all ch_quot (lit "&quot;")
      (replace_all ch_gt (lit "&gt;")
        (replace_all ch_lt (lit "&lt;")
          (replace_all ch_amp (lit "&amp;") text)))).

(** [array.join(sep)] on an array of strings. *)
Fixpoint join (sep : jsstring) (parts : list jsstring) : jsstring :=
  match parts with
  | [] => []
  | [p] => p
  | p :: rest => p ++ sep ++ join sep rest
  end.

(** An integer in decimal notation, with a sign when negative. *)
Definition decimal (z : Z) : jsstring :=
  lit (NilZero.string_of_int (Z.to_int z)).

(** The Number nearest to an integer [x] of at least 54 bits (round half
    to even), as a mantissa of 53 bits and an exponent. *)
Definition nearest_number (x : Z) : Z * Z :=
  let q := Z.log2 x - 52 in
  let m := Z.shiftr x q in
  let r := x - Z.shiftl m q in
  let half := Z.shiftl 1 (q - 1) in
  let m := if (half <? r) || ((r =? half) && Z.odd m) then m + 1 else m in
  if m =? 2 ^ 53 then (2 ^ 52, q + 1) else (m, q).

(** The multiple of the largest power of ten, from [10 ^ j] downwards,
    that lies between the bounds [lo2 / 2] and [hi2 / 2] (included when
    [closed]) around [x]; of two such multiples the one nearer to [x]. *)
Fixpoint shortest_multiple (x lo2 hi2 : Z) (closed : bool) (j : nat) : Z :=
  let p := 10 ^ Z.of_nat j in
  let inside c :=
    if closed then (lo2 <=? 2 * c) && (2 * c <=? hi2)
    else (lo2 <? 2 * c) && (2 * c <? hi2) in
  let c1 := x / p * p in
  let c2 := c1 + p in
  let pick :=
    match inside c1, inside c2 with
    | true, true =>
        if x - c1 <? c2 - x then Some c1
        else if c2 - x <? x - c1 then Some c2
        else if Z.even (c1 / p) then Some c1 else Some c2
    | true, false => Some c1
    | false, true => Some c2
    | false, false => None
    end in
  match pick, j with
  | Some c, _ => c
  | None, S j' => shortest_multiple x lo2 hi2 closed j'
  | None, O => x
  end.

Fixpoint drop_zeros (s : jsstring) : jsstring :=
  match s with
  | [] => []
  | c :: t => if N.eqb c 48 then drop_zeros t else s
  end.

(** Number::toString of the Number nearest to an integer [x] of at
    least 54 bits: the fewest digits that still denote that Number (the
    integers that round to it lie within half the distance to its
    neighbours), written out in full up to 21 digits and in exponent
    notation beyond. *)
Definition large_to_string (x : Z) : jsstring :=
  let '(m, q) := nearest_number x in
  let v := Z.shiftl m q in
  if 2 ^ 1024 <=? v then lit "Infinity"
  else
    let gap_up := Z.shiftl 1 q in
    let gap_down := if m =? 2 ^ 52 then Z.shiftl 1 (q - 1) else gap_up in
    let y := shortest_multiple v (2 * v - gap_down) (2 * v + gap_up) (Z.even m)
               (List.length (decimal v)) in
    let digits := decimal y in
    let n := str_length digits in
    if n <=? 21 then digits
    else
      match rev (drop_zeros (rev digits)) with
      | [] => digits
      | [d] => [d] ++ lit "e+" ++ decimal (n - 1)
      | d :: rest => [d] ++ lit "." ++ rest ++ lit "e+" ++ decimal (n - 1)
      end.

(** Template-literal rendering [`${n}`] of a number with an integral
    value.  [z] stands for the Number nearest to it: below [2 ^ 53] in
    magnitude that is [z] itself, written in plain decimal. *)
Definition num_to_string (z : Z) : jsstring :=
  if Z.abs z <? 2 ^ 53 then decimal z
  else if z <? 0 then lit "-" ++ large_to_string (- z)
  else large_to_string z.

(* ================================================================== *)
(** ** JavaScript values and completions *)

Inductive JsNum : Type :=
| NaN
| Infinity (negative : bool)
| Finite (q : Q).

(** The values a caller can hand to the validators: [undefined],
    [null], booleans, numbers and strings, and objects whose properties
    are own data properties holding such values again (no property holds
    a function).  [JObject props] is
    an object with prototype [Object.prototype], as an object literal or
    [JSON.parse] creates it; [JNullProtoObject props] is an object
    without prototype, as [Object.create(null)] creates it;
    [JStringObject s] is the wrapper object [new String(s)]. *)
#[warnings="-register-all"]
Inductive JsVal : Type :=
| JUndefined
| JNull
| JBool (b : bool)
| JNum (n : JsNum)
| JStr (s : jsstring)
| JObject (props : list (jsstring * JsVal))
| JNullProtoObject (props : list (jsstring * JsVal))
| JStringObject (s : jsstring).

Inductive JsError : Type :=
| TypeError.

(** Outcome of running a piece of code: a value, or a raised exception. *)
Inductive completion (A : Type) : Type :=
| Return (a : A)
| Throw (e : JsError).
Arguments Return {A} a.
Arguments Throw {A} e.

Definition bind {A B} (c : completion A) (k : A -> completion B) : completion B :=
  match c with
  | Return a => k a
  | Throw e => Throw e
  end.

Notation "x <- c ;; k" := (bind c (fun x => k))
  (at level 61, c at next level, right associativity).

Definition returns {A} (c : completion A) : Prop := exists a, c = Return a.

(** ToBoolean. *)
Definition ToBoolean (v : JsVal) : bool :=
  match v with
  | JUndefined | JNull => false
  | JBool b => b
  | JNum NaN => false
  | JNum (Infinity _) => true
  | JNum (Finite q) => negb (Qnum q =? 0)
  | JStr s => negb (str_length s =? 0)
  | JObject _ | JNullProtoObject _ | JStringObject _ => true
  end.

(** Ordered string-keyed objects built by the code ([results],
    [sanitizedData], [debounceTimers]); [Object.keys] lists the keys in
    insertion order. *)
Definition jsobj (A : Type) := list (jsstring * A).

Fixpoint js_get {A} (o : jsobj A) (k : jsstring) : option A :=
  match o with
  | [] => None
  | (k', a) :: rest => if str_eqb k' k then Some a else js_get rest k
  end.

Fixpoint js_set {A} (o : jsobj A) (k : jsstring) (a : A) : jsobj A :=
  match o with
  | [] => [(k, a)]
  | (k', a') :: rest =>
      if str_eqb k' k then (k', a) :: rest else (k', a') :: js_set rest k a
  end.

Definition Object_keys {A} (o : jsobj A) : list jsstring := map fst o.

Definition has_own (props : list (jsstring * JsVal)) (k : jsstring) : bool :=
  match js_get props k with Some _ => true | None => false end.

(** [value.name] for one of the four task field names, none of which is
    defined on a built-in prototype or is an own property of a string. *)
Definition get_prop (value : JsVal) (name : jsstring) : completion JsVal :=
  match value with
  | JUndefined | JNull => Throw TypeError
  | JObject props | JNullProtoObject props =>
      Return (match js_get props name with Some v => v | None => JUndefined end)
  | JBool _ | JNum _ | JStr _ | JStringObject _ => Return JUndefined
  end.

(** [value.hasOwnProperty(name)] for one of the four task field names.
    The method is found on [Object.prototype]: an object without
    prototype does not have it, and an own data property of that name
    shadows it; what is found then is not callable. *)
Definition call_hasOwnProperty (value : JsVal) (name : jsstring) : completion bool :=
  match value with
  | JUndefined | JNull => Throw TypeError
  | JObject props =>
      if has_own props (lit "hasOwnProperty") then Throw TypeError
      else Return (has_own props name)
  | JNullProtoObject _ => Throw TypeError
  | JBool _ | JNum _ | JStr _ | JStringObject _ => Return false
  end.

(** [value.trim()]: the method is found on [String.prototype], by a
    string and by a [String] object; on every other value the property
    is [undefined] or a data property, and the call raises. *)
Definition call_trim (value : JsVal) : completion jsstring :=
  match value with
  | JStr s | JStringObject s => Return (trim s)
  | _ => Throw TypeError
  end.

(* ================================================================== *)
(** ** Field validation results *)

Record FieldResult : Type := mkFieldResult {
  isValid : bool;
  errors : list jsstring;
  sanitizedValue : option JsVal   (* [None]: the property is absent *)
}.

(** [if (cond) errors.push(msg)] *)
Definition push_if (cond : bool) (msg : jsstring) (errs : list jsstring) : list jsstring :=
  if cond then errs ++ [msg] else errs.

Definition no_errors (errs : list jsstring) : bool :=
  match errs with [] => true | _ => false end.

(* ------------------------------------------------------------------ *)
(** *** TitleValidationStrategy *)

Record TitleValidationStrategy : Type := {
  title_minLength : Z;
  title_maxLength : Z
}.

Definition msg_title_required := lit "Title is required".
Definition msg_title_blank := lit "Title cannot be empty or only whitespace".
Definition msg_title_min (this : TitleValidationStrategy) :=
  lit "Title must be at least " ++ num_to_string (title_minLength this)
    ++ lit " character(s)".
Definition msg_title_max (this : TitleValidationStrategy) :=
  lit "Title must be no more than " ++ num_to_string (title_maxLength this)
    ++ lit " characters".
Definition msg_title_html := lit "Title cannot contain HTML tags".

Definition title_validate (this : TitleValidationStrategy) (title : JsVal)
  : completion FieldResult :=
  if negb (ToBoolean title) then
    Return (mkFieldResult false [msg_title_required] None)
  else
    trimmedTitle <- call_trim title ;;
    let errs := [] in
    let errs := push_if (str_length trimmedTitle =? 0) msg_title_blank errs in
    let errs := push_if (str_length trimmedTitle <? title_minLength this)
                        (msg_title_min this) errs in
    let errs := push_if (title_maxLength this <? str_length trimmedTitle)
                        (msg_title_max this) errs in
    let errs := push_if (containsHtml trimmedTitle) msg_title_html errs in
    Return (mkFieldResult (no_errors errs) errs
                          (Some (JStr (sanitize trimmedTitle)))).

(* ------------------------------------------------------------------ *)
(** *** DescriptionValidationStrategy *)

Record DescriptionValidationStrategy : Type := {
  description_maxLength : Z
}.

Definition msg_description_max (this : DescriptionValidationStrategy) :=
  lit "Description must be no more than "
    ++ num_to_string (description_maxLength this) ++ lit " characters".
Definition msg_description_html := lit "Description cannot contain HTML tags".

Definition description_validate (this : DescriptionValidationStrategy)
  (description : JsVal) : completion FieldResult :=
  if negb (ToBoolean description) then
    Return (mkFieldResult true [] (Some (JStr [])))
  else
    trimmedDescription <- call_trim description ;;
    let errs := [] in
    let errs := push_if (description_maxLength this <? str_length trimmedDescription)
                        (msg_description_max this) errs in
    let errs := push_if (containsHtml trimmedDescription) msg_description_html errs in
    Return (mkFieldResult (no_errors errs) errs
                          (Some (JStr (sanitize trimmedDescription)))).

(* ------------------------------------------------------------------ *)
(** *** The host: what the JavaScript engine and its clock supply *)

Definition msPerDay : Z := 86400000.

(** [host_toLowerCase] is [String.prototype.toLowerCase] (Unicode case
    mapping).  [host_parse_other] is [Date.parse] on strings that are not
    of the ISO date-only form [YYYY-MM-DD], where ECMAScript leaves room
    to the implementation; [None] stands for [NaN].  [host_now] is the
    time value of [new Date()], in milliseconds since the epoch, and
    [host_tza] the offset of local time from UTC in milliseconds, taken
    constant over the instants involved. *)
Record Host : Type := {
  host_toLowerCase : jsstring -> jsstring;
  host_parse_other : jsstring -> option Z;
  host_now : Z;
  host_tza : Z
}.

(* ------------------------------------------------------------------ *)
(** *** PriorityValidationStrategy *)

Record PriorityValidationStrategy : Type := {
  validPriorities : list jsstring
}.

Definition new_PriorityValidationStrategy : PriorityValidationStrategy :=
  {| validPriorities := [lit "high"; lit "medium"; lit "low"] |}.

(** [array.includes(s)] on an array of strings. *)
Definition includes (arr : list jsstring) (s : jsstring) : bool :=
  existsb (fun x => str_eqb x s) arr.

Definition msg_priority (this : PriorityValidationStrategy) :=
  lit "Priority must be one of: " ++ join (lit ", ") (validPriorities this).

(** [value.toLowerCase()]: found on [String.prototype], like [trim]. *)
Definition call_toLowerCase (h : Host) (value : JsVal) : completion jsstring :=
  match value with
  | JStr s | JStringObject s => Return (host_toLowerCase h s)
  | _ => Throw TypeError
  end.

Definition priority_validate (h : Host) (this : PriorityValidationStrategy)
  (priority : JsVal) : completion FieldResult :=
  if negb (ToBoolean priority) then
    Return (mkFieldResult true [] (Some (JStr (lit "medium"))))
  else
    lowered <- call_toLowerCase h priority ;;
    let normalizedPriority := trim lowered in
    let errs := [] in
    let errs := push_if (negb (includes (validPriorities this) normalizedPriority))
                        (msg_priority this) errs in
    Return (mkFieldResult (no_errors errs) errs (Some (JStr normalizedPriority))).

(* ------------------------------------------------------------------ *)
(** *** Dates: the part of [Date] the due-date validator uses *)

(** Day number of 1 January of year [y] (ECMAScript DayFromYear). *)
Definition DayFromYear (y : Z) : Z :=
  365 * (y - 1970) + (y - 1969) / 4 - (y - 1901) / 100 + (y - 1601) / 400.

Definition is_leap (y : Z) : bool :=
  ((y mod 4 =? 0) && negb (y mod 100 =? 0)) || (y mod 400 =? 0).

Definition days_in_month (y m : Z) : Z :=
  if m =? 2 then (if is_leap y then 29 else 28)
  else if (m =? 4) || (m =? 6) || (m =? 9) || (m =? 11) then 30
  else 31.

(** Days of the year before the first of month [m] (1..12). *)
Fixpoint days_before_month (y : Z) (m : nat) : Z :=
  match m with
  | O => 0
  | S O => 0
  | S m' => days_before_month y m' + days_in_month y (Z.of_nat m')
  end.

(** Time value of midnight UTC of a calendar day (MakeDate(MakeDay, 0)). *)
Definition utc_midnight (y m d : Z) : Z :=
  (DayFromYear y + days_before_month y (Z.to_nat m) + (d - 1)) * msPerDay.

Definition digit_val (c : jschar) : option Z :=
  if ((48 <=? c) && (c <=? 57))%N then Some (Z.of_N c - 48) else None.

Fixpoint digits_val (acc : Z) (cs : jsstring) : option Z :=
  match cs with
  | [] => Some acc
  | c :: t =>
      match digit_val c with
      | Some d => digits_val (10 * acc + d) t
      | None => None
      end
  end.

Definition ch_dash : jschar := 45%N.

(** The ISO date-only form [YYYY-MM-DD], which [Date.parse] reads as
    midnight UTC of that day. *)
Definition parse_iso_date_only (s : jsstring) : option Z :=
  match s with
  | [y1; y2; y3; y4; h1; m1; m2; h2; d1; d2] =>
      if N.eqb h1 ch_dash && N.eqb h2 ch_dash then
        match digits_val 0 [y1; y2; y3; y4], digits_val 0 [m1; m2],
              digits_val 0 [d1; d2] with
        | Some y, Some m, Some d =>
            if (1 <=? m) && (m <=? 12) && (1 <=? d) && (d <=? days_in_month y m)
            then Some (utc_midnight y m d) else None
        | _, _, _ => None
        end
      else None
  | _ => None
  end.

Definition maxTime : Z := 8640000000000000.

(** TimeClip on an integral time value. *)
Definition TimeClip (t : Z) : option Z :=
  if Z.abs t <=? maxTime then Some t else None.

(** TimeClip on a finite number: out of range is [NaN], otherwise the
    fraction is dropped (truncation toward zero). *)
Definition TimeClip_num (q : Q) : option Z :=
  if Qle_bool (Qabs q) (inject_Z maxTime)
  then Some (Z.quot (Qnum q) (Zpos (Qden q))) else None.

Definition Date_parse (h : Host) (s : jsstring) : option Z :=
  match parse_iso_date_only s with
  | Some t => Some t
  | None =>
      match host_parse_other h s with
      | Some t => TimeClip t
      | None => None
      end
  end.

(** [new Date(value)]: the time value of the new object, [None] for an
    invalid date.  An object goes through ToPrimitive: a [String] object
    yields its string through [String.prototype.valueOf]; an object with
    prototype [Object.prototype] yields the result of
    [Object.prototype.toString] unless an own (data, hence not callable)
    property [toString] shadows it; an object without prototype has
    neither method. *)
Definition new_Date (h : Host) (value : JsVal) : completion (option Z) :=
  match value with
  | JStr s | JStringObject s => Return (Date_parse h s)
  | JNum NaN | JNum (Infinity _) | JUndefined => Return None
  | JNum (Finite q) => Return (TimeClip_num q)
  | JNull => Return (Some 0)
  | JBool b => Return (Some (if b then 1 else 0))
  | JObject props =>
      if has_own props (lit "toString") then Throw TypeError
      else Return (Date_parse h (lit "[object Object]"))
  | JNullProtoObject _ => Throw TypeError
  end.

(** [now.setHours(0, 0, 0, 0)]: the start of the local day of [t]. *)
Definition setHours0 (h : Host) (t : Z) : Z :=
  let local := t + host_tza h in
  (local / msPerDay) * msPerDay - host_tza h.

(** Year, month and day (UTC) of a day number. *)
Definition civil_from_days (days : Z) : Z * Z * Z :=
  let z := days + 719468 in
  let era := z / 146097 in
  let doe := z - era * 146097 in
  let yoe := (doe - doe / 1460 + doe / 36524 - doe / 146096) / 365 in
  let doy := doe - (365 * yoe + yoe / 4 - yoe / 100) in
  let mp := (5 * doy + 2) / 153 in
  let d := doy - (153 * mp + 2) / 5 + 1 in
  let m := if mp <? 10 then mp + 3 else mp - 9 in
  let y := yoe + era * 400 + (if m <=? 2 then 1 else 0) in
  (y, m, d).

Definition digit_char (d : Z) : jschar := Z.to_N (48 + d mod 10).

(** [n] written with exactly [width] decimal digits, zero-padded. *)
Fixpoint pad_digits (width : nat) (n : Z) : jsstring :=
  match width with
  | O => []
  | S w => pad_digits w (n / 10) ++ [digit_char n]
  end.

(** [date.toISOString().split('T')[0]]: four-digit years from 0 to 9999,
    a sign and six digits otherwise. *)
Definition iso_date_part (t : Z) : jsstring :=
  let '(y, m, d) := civil_from_days (t / msPerDay) in
  let year :=
    if (0 <=? y) && (y <=? 9999) then pad_digits 4 y
    else (if y <? 0 then lit "-" else lit "+") ++ pad_digits 6 (Z.abs y) in
  year ++ lit "-" ++ pad_digits 2 m ++ lit "-" ++ pad_digits 2 d.

(* ------------------------------------------------------------------ *)
(** *** DueDateValidationStrategy *)

Definition msg_date_invalid := lit "Due date must be a valid date".
Definition msg_date_past := lit "Due date must be today or in the future".

Definition dueDate_validate (h : Host) (dueDate : JsVal) : completion FieldResult :=
  if negb (ToBoolean dueDate) then
    Return (mkFieldResult true [] (Some JNull))
  else
    date <- new_Date h dueDate ;;
    match date with
    | None => Return (mkFieldResult false [msg_date_invalid] None)
    | Some t =>
        let now := setHours0 h (host_now h) in
        let errs := [] in
        let errs := push_if (t <? now) msg_date_past errs in
        Return (mkFieldResult (no_errors errs) errs (Some (JStr (iso_date_part t))))
    end.

(** A host for examples: ASCII lower-casing, no date format beyond
    [YYYY-MM-DD], and a given clock and zone offset. *)
Definition ascii_toLowerCase (s : jsstring) : jsstring :=
  map (fun c => if ((65 <=? c) && (c <=? 90))%N then (c + 32)%N else c) s.

Definition example_host (now tza : Z) : Host :=
  {| host_toLowerCase := ascii_toLowerCase;
     host_parse_other := fun _ => None;
     host_now := now;
     host_tza := tza |}.

(* ================================================================== *)
(** ** TaskValidator *)

Definition new_TitleValidationStrategy (minLength maxLength : Z) : TitleValidationStrategy :=
  {| title_minLength := minLength; title_maxLength := maxLength |}.

Definition new_DescriptionValidationStrategy (maxLength : Z) : DescriptionValidationStrategy :=
  {| description_maxLength := maxLength |}.

Record TaskValidator : Type := {
  titleValidator : TitleValidationStrategy;
  descriptionValidator : DescriptionValidationStrategy;
  priorityValidator : PriorityValidationStrategy
  (* dueDateValidator: a strategy without fields *)
}.

(** The constructor, with the default arguments of the strategies. *)
Definition new_TaskValidator : TaskValidator :=
  {| titleValidator := new_TitleValidationStrategy 1 100;
     descriptionValidator := new_DescriptionValidationStrategy 500;
     priorityValidator := new_PriorityValidationStrategy |}.

Definition f_title : jsstring := lit "title".
Definition f_description : jsstring := lit "description".
Definition f_priority : jsstring := lit "priority".
Definition f_dueDate : jsstring := lit "dueDate".

Definition field_order : list jsstring :=
  [f_title; f_description; f_priority; f_dueDate].

Record AggregateResult : Type := mkAggregate {
  agg_isValid : bool;
  agg_errors : list jsstring;
  fieldResults : jsobj FieldResult;
  sanitizedData : jsobj JsVal
}.

(** Reading [result.sanitizedValue]: [undefined] when absent. *)
Definition get_sanitizedValue (r : FieldResult) : JsVal :=
  match sanitizedValue r with
  | Some v => v
  | None => JUndefined
  end.

(** The template literal [`${field}: ${error}`]. *)
Definition prefixed (field error : jsstring) : jsstring :=
  field ++ lit ": " ++ error.

(** [results[field].errors.forEach(error => allErrors.push(...))] *)
Definition push_field_errors (field : jsstring) (errs allErrors : list jsstring)
  : list jsstring :=
  fold_left (fun acc error => acc ++ [prefixed field error]) errs allErrors.

(** Body of the first [forEach] of [validateTask]. *)
Definition collect_errors_step (results : jsobj FieldResult)
  (allErrors : list jsstring) (field : jsstring) : list jsstring :=
  match js_get results field with
  | Some r =>
      if negb (isValid r) then push_field_errors field (errors r) allErrors
      else allErrors
  | None => allErrors
  end.

(** Body of the second [forEach] of [validateTask]. *)
Definition collect_sanitized_step (results : jsobj FieldResult)
  (sanitized : jsobj JsVal) (field : jsstring) : jsobj JsVal :=
  match js_get results field with
  | Some r =>
      if isValid r then js_set sanitized field (get_sanitizedValue r)
      else sanitized
  | None => sanitized
  end.

Definition validateTask (h : Host) (this : TaskValidator) (taskData : JsVal)
  : completion AggregateResult :=
  v_title <- get_prop taskData f_title ;;
  r_title <- title_validate (titleValidator this) v_title ;;
  v_description <- get_prop taskData f_description ;;
  r_description <- description_validate (descriptionValidator this) v_description ;;
  v_priority <- get_prop taskData f_priority ;;
  r_priority <- priority_validate h (priorityValidator this) v_priority ;;
  v_dueDate <- get_prop taskData f_dueDate ;;
  r_dueDate <- dueDate_validate h v_dueDate ;;
  let results : jsobj FieldResult :=
    [(f_title, r_title); (f_description, r_description);
     (f_priority, r_priority); (f_dueDate, r_dueDate)] in
  let allErrors :=
    fold_left (collect_errors_step results) (Object_keys results) [] in
  let sanitized :=
    fold_left (collect_sanitized_step results) (Object_keys results) [] in
  Return (mkAggregate (no_errors allErrors) allErrors results sanitized).

(** [if (updates.hasOwnProperty(name)) results[name] = validate(updates[name])] *)
Definition update_field (updates : JsVal) (name : jsstring)
  (validate : JsVal -> completion FieldResult) (results : jsobj FieldResult)
  : completion (jsobj FieldResult) :=
  present <- call_hasOwnProperty updates name ;;
  if present then
    v <- get_prop updates name ;;
    r <- validate v ;;
    Return (js_set results name r)
  else Return results.

(** Body of the single [forEach] of [validateTaskUpdate]. *)
Definition collect_update_step (results : jsobj FieldResult)
  (acc : list jsstring * jsobj JsVal) (field : jsstring)
  : list jsstring * jsobj JsVal :=
  let '(allErrors, sanitized) := acc in
  match js_get results field with
  | Some r =>
      if negb (isValid r)
      then (push_field_errors field (errors r) allErrors, sanitized)
      else (allErrors, js_set sanitized field (get_sanitizedValue r))
  | None => acc
  end.

Definition validateTaskUpdate (h : Host) (this : TaskValidator) (updates : JsVal)
  : completion AggregateResult :=
  let results : jsobj FieldResult := [] in
  results <- update_field updates f_title
               (title_validate (titleValidator this)) results ;;
  results <- update_field updates f_description
               (description_validate (descriptionValidator this)) results ;;
  results <- update_field updates f_priority
               (priority_validate h (priorityValidator this)) results ;;
  results <- update_field updates f_dueDate (dueDate_validate h) results ;;
  let '(allErrors, sanitized) :=
    fold_left (collect_update_step results) (Object_keys results) ([], []) in
  Return (mkAggregate (no_errors allErrors) allErrors results sanitized).

(* ================================================================== *)
(** ** RealTimeValidator and the timers of the host *)

(** What the arrow function handed to [setTimeout] closes over.  The
    callback is opaque to the validator: it is named by a number and its
    invocations are recorded in the log of the event loop. *)
Record TimerTask : Type := {
  task_field : jsstring;
  task_value : JsVal;
  task_callback : nat
}.

(** A scheduled timer.  Handles are the positive integers of the browser
    ([setTimeout] returns a number greater than zero, hence truthy). *)
Record Timer : Type := {
  timer_handle : positive;
  timer_due : Z;
  timer_task : TimerTask
}.

Inductive Event : Type :=
| Invoked (callback : nat) (fieldName : jsstring) (result : FieldResult)
| Uncaught (e : JsError).

Record EventLoop : Type := {
  clock : Z;
  next_handle : positive;
  pending : list Timer;
  log : list Event
}.

Definition new_EventLoop : EventLoop :=
  {| clock := 0; next_handle := 1%positive; pending := []; log := [] |}.

Definition setTimeout (w : EventLoop) (task : TimerTask) (delay : Z)
  : positive * EventLoop :=
  let handle := next_handle w in
  (handle,
   {| clock := clock w;
      next_handle := Pos.succ handle;
      pending := pending w ++
                 [{| timer_handle := handle;
                     timer_due := clock w + Z.max 0 delay;
                     timer_task := task |}];
      log := log w |}).

Definition clearTimeout (w : EventLoop) (handle : positive) : EventLoop :=
  {| clock := clock w;
     next_handle := next_handle w;
     pending := filter (fun t => negb (Pos.eqb (timer_handle t) handle)) (pending w);
     log := log w |}.

Record RealTimeValidator : Type := {
  validator : TaskValidator;
  debounceTimers : jsobj positive
}.

Definition new_RealTimeValidator (v : TaskValidator) : RealTimeValidator :=
  {| validator := v; debounceTimers := [] |}.

Definition k_proto : jsstring := lit "__proto__".

(** [this.debounceTimers[fieldName] = handle] on an object created by
    [{}]: an own property is created or overwritten, except for the key
    [__proto__], whose inherited setter ignores a number. *)
Definition timers_assign (o : jsobj positive) (k : jsstring) (handle : positive)
  : jsobj positive :=
  if str_eqb k k_proto then o else js_set o k handle.

(** The [switch] of the timer task (strict equality on the name). *)
Definition dispatch (h : Host) (v : TaskValidator) (fieldName : jsstring)
  (value : JsVal) : completion FieldResult :=
  if str_eqb fieldName f_title then
    title_validate (titleValidator v) value
  else if str_eqb fieldName f_description then
    description_validate (descriptionValidator v) value
  else if str_eqb fieldName f_priority then
    priority_validate h (priorityValidator v) value
  else if str_eqb fieldName f_dueDate then
    dueDate_validate h value
  else Return (mkFieldResult true [] None).

(** Running the timer task: the result is handed to the callback; an
    exception of the validator leaves the task before the callback is
    reached. *)
Definition run_task (h : Host) (v : TaskValidator) (task : TimerTask) : Event :=
  match dispatch h v (task_field task) (task_value task) with
  | Return result => Invoked (task_callback task) (task_field task) result
  | Throw e => Uncaught e
  end.

(** [validateField(fieldName, value, callback, delay)].  A value read
    from [debounceTimers] that is not an own property (inherited from
    [Object.prototype], or [undefined]) is no handle of a pending timer:
    clearing it, or skipping the [if], leaves the timers as they are. *)
Definition validateField (this : RealTimeValidator) (w : EventLoop)
  (fieldName : jsstring) (value : JsVal) (callback : nat) (delay : Z)
  : RealTimeValidator * EventLoop :=
  let w1 :=
    match js_get (debounceTimers this) fieldName with
    | Some handle => clearTimeout w handle
    | None => w
    end in
  let '(handle, w2) :=
    setTimeout w1 {| task_field := fieldName; task_value := value;
                     task_callback := callback |} delay in
  ({| validator := validator this;
      debounceTimers := timers_assign (debounceTimers this) fieldName handle |},
   w2).

(** [clearTimers()] *)
Definition clearTimers (this : RealTimeValidator) (w : EventLoop)
  : RealTimeValidator * EventLoop :=
  ({| validator := validator this; debounceTimers := [] |},
   fold_left clearTimeout (map snd (debounceTimers this)) w).

(** The timer the event loop runs next: the earliest due, the first
    scheduled among equals. *)
Fixpoint extract_next (t : Timer) (rest : list Timer) : Timer * list Timer :=
  match rest with
  | [] => (t, [])
  | u :: rest' =>
      let '(m, others) := extract_next u rest' in
      if timer_due t <=? timer_due m then (t, rest) else (m, t :: others)
  end.

Definition next_timer (w : EventLoop) : option Timer :=
  match pending w with
  | [] => None
  | t :: rest => Some (fst (extract_next t rest))
  end.

Definition fire_next (h : Host) (this : RealTimeValidator) (w : EventLoop)
  : option EventLoop :=
  match pending w with
  | [] => None
  | t :: rest =>
      let '(m, others) := extract_next t rest in
      Some {| clock := Z.max (clock w) (timer_due m);
              next_handle := next_handle w;
              pending := others;
              log := log w ++ [run_task h (validator this) (timer_task m)] |}
  end.

Fixpoint run_timers (fuel : nat) (h : Host) (this : RealTimeValidator)
  (w : EventLoop) : EventLoop :=
  match fuel with
  | O => w
  | S fuel' =>
      match fire_next h this w with
      | Some w' => run_timers fuel' h this w'
      | None => w
      end
  end.

(** Let time pass until every pending timer has fired. *)
Definition run_until_idle (h : Host) (this : RealTimeValidator) (w : EventLoop)
  : EventLoop :=
  run_timers (List.length (pending w)) h this w.

Record Call : Type := {
  call_field : jsstring;
  call_value : JsVal;
  call_callback : nat;
  call_delay : Z
}.

(** What happens to a [RealTimeValidator] and its event loop, one step
    at a time: a call of [validateField], the event loop running the
    timer that is due next, or time passing with no timer run. *)
Inductive Action : Type :=
| DoCall (c : Call)
| DoFire
| DoWait (dt : Z).

Definition wait (w : EventLoop) (dt : Z) : EventLoop :=
  {| clock := clock w + Z.max 0 dt;
     next_handle := next_handle w;
     pending := pending w;
     log := log w |}.

Definition do_action (h : Host) (s : RealTimeValidator * EventLoop) (a : Action)
  : RealTimeValidator * EventLoop :=
  match a with
  | DoCall c =>
      validateField (fst s) (snd s) (call_field c) (call_value c)
                    (call_callback c) (call_delay c)
  | DoFire =>
      match fire_next h (fst s) (snd s) with
      | Some w' => (fst s, w')
      | None => s
      end
  | DoWait dt => (fst s, wait (snd s) dt)
  end.

Definition do_actions (h : Host) (actions : list Action)
  (s : RealTimeValidator * EventLoop) : RealTimeValidator * EventLoop :=
  fold_left (do_action h) actions s.

(** The callback invocations of the log that carry field name [f]. *)
Definition invocations_for (f : jsstring) (events : list Event) : list Event :=
  filter (fun e => match e with
                   | Invoked _ g _ => str_eqb g f
                   | Uncaught _ => false
                   end) events.

(** The last of a list of calls that names field [f]. *)
Definition last_call_for (f : jsstring) (calls : list Call) : option Call :=
  find (fun c => str_eqb (call_field c) f) (rev calls).

(* ================================================================== *)
(** ** Notions used to state the properties *)

Definition is_escaped_char (c : jschar) : bool :=
  N.eqb c ch_amp || N.eqb c ch_lt || N.eqb c ch_gt || N.eqb c ch_quot
  || N.eqb c ch_apos.

(** A string: the primitive, or a [String] object. *)
Definition is_string (v : JsVal) : bool :=
  match v with JStr _ | JStringObject _ => true | _ => false end.

(** A string, or a value that takes the absent branch. *)
Definition string_or_falsy (v : JsVal) : bool :=
  is_string v || negb (ToBoolean v).

(** Every field result is valid exactly when it carries no error. *)
Definition coherent (r : FieldResult) : Prop :=
  isValid r = no_errors (errors r).

(** The errors and the sanitized data that belong to a table of field
    results, entry by entry in the order of the table. *)
Definition errors_of (results : jsobj FieldResult) : list jsstring :=
  flat_map (fun kr => if isValid (snd kr) then []
                      else map (prefixed (fst kr)) (errors (snd kr))) results.

Definition sanitized_of (results : jsobj FieldResult) : jsobj JsVal :=
  map (fun kr => (fst kr, get_sanitizedValue (snd kr)))
      (filter (fun kr => isValid (snd kr)) results).

(** Own-key test and property read as total functions of the input. *)
Definition own_key (o : JsVal) (k : jsstring) : bool :=
  match o with
  | JObject props | JNullProtoObject props => has_own props k
  | _ => false
  end.

Definition prop_of (o : JsVal) (k : jsstring) : JsVal :=
  match o with
  | JObject props | JNullProtoObject props =>
      match js_get props k with Some v => v | None => JUndefined end
  | _ => JUndefined
  end.

(** [o.hasOwnProperty] is the method of [Object.prototype]: [o] inherits
    from that prototype (a primitive does so through its wrapper) and has
    no own property of that name. *)
Definition hasOwnProperty_is_builtin (o : JsVal) : bool :=
  match o with
  | JUndefined | JNull | JNullProtoObject _ => false
  | JObject props => negb (has_own props (lit "hasOwnProperty"))
  | JBool _ | JNum _ | JStr _ | JStringObject _ => true
  end.

Fixpoint nodupb (l : list jsstring) : bool :=
  match l with
  | [] => true
  | x :: t => negb (existsb (str_eqb x) t) && nodupb t
  end.

(** The table of field results in the fixed order of the code, a field
    being left out when it was not validated. *)
Definition entry (name : jsstring) (o : option FieldResult) : jsobj FieldResult :=
  match o with
  | Some r => [(name, r)]
  | None => []
  end.

Definition results_of (o1 o2 o3 o4 : option FieldResult) : jsobj FieldResult :=
  entry f_title o1 ++ entry f_description o2 ++ entry f_priority o3
    ++ entry f_dueDate o4.

(** What became of one field in [validateTaskUpdate]: validated with
    result [r], or skipped because the key is not an own key. *)
Definition field_outcome (o : JsVal) (name : jsstring)
  (validate : JsVal -> completion FieldResult) (oi : option FieldResult) : Prop :=
  match oi with
  | Some r => own_key o name = true /\ validate (prop_of o name) = Return r
  | None => own_key o name = false
  end.

(** [results[name] = r] when the field was validated. *)
Definition put (name : jsstring) (oi : option FieldResult)
  (results : jsobj FieldResult) : jsobj FieldResult :=
  match oi with
  | Some r => js_set results name r
  | None => results
  end.

Definition aggregate_of (results : jsobj FieldResult) : AggregateResult :=
  mkAggregate (no_errors (errors_of results)) (errors_of results) results
              (sanitized_of results).

(** The errors of a table in the fixed field order. *)
Definition field_errors (results : jsobj FieldResult) (f : jsstring) : list jsstring :=
  match js_get results f with
  | Some fr => if isValid fr then [] else map (prefixed f) (errors fr)
  | None => []
  end.

(** What one field adds to the errors of the aggregate: nothing when its
    result is valid or the field was not validated, and otherwise its
    errors, each prefixed with the name of the field, in their order. *)
Definition reported (f : jsstring) (r : FieldResult) : list jsstring :=
  if isValid r then [] else map (prefixed f) (errors r).

Definition reported_opt (f : jsstring) (oi : option FieldResult) : list jsstring :=
  match oi with
  | Some r => reported f r
  | None => []
  end.

Definition is_nullish (o : JsVal) : bool :=
  match o with JUndefined | JNull => true | _ => false end.

(** An input whose four fields are each absent, falsy or a string. *)
Definition well_typed_task (o : JsVal) : bool :=
  negb (is_nullish o)
  && forallb (fun f => string_or_falsy (prop_of o f)) field_order.

Definition field_of (t : Timer) : jsstring := task_field (timer_task t).

Definition is_for (f : jsstring) (t : Timer) : bool := str_eqb (field_of t) f.

(** The pending timers that belong to field [f]. *)
Definition pending_for (f : jsstring) (w : EventLoop) : list Timer :=
  filter (is_for f) (pending w).

(** What ties the handle table of a [RealTimeValidator] to the pending
    timers of the event loop: a pending timer of an ordinary field is the
    one recorded for that field, a recorded handle of a pending timer is
    recorded under the field of that timer only, and handles not yet
    issued occur nowhere. *)
Record consistent (this : RealTimeValidator) (w : EventLoop) : Prop := {
  cons_owned : forall t, In t (pending w) -> field_of t <> k_proto ->
               js_get (debounceTimers this) (field_of t) = Some (timer_handle t);
  cons_owner : forall t k, In t (pending w) ->
               js_get (debounceTimers this) k = Some (timer_handle t) ->
               k = field_of t;
  cons_pending_issued : forall t, In t (pending w) ->
               (timer_handle t < next_handle w)%positive;
  cons_stored_issued : forall k hd, js_get (debounceTimers this) k = Some hd ->
               (hd < next_handle w)%positive;
  cons_proto : js_get (debounceTimers this) k_proto = None
}.

(** The timers a call of [validateField] for field [f] leaves alone. *)
Definition kept (this : RealTimeValidator) (f : jsstring) (t : Timer) : bool :=
  match js_get (debounceTimers this) f with
  | Some handle => negb (Pos.eqb (timer_handle t) handle)
  | None => true
  end.

Definition scheduled (w : EventLoop) (f : jsstring) (v : JsVal) (cb : nat)
  (delay : Z) : Timer :=
  {| timer_handle := next_handle w;
     timer_due := clock w + Z.max 0 delay;
     timer_task := {| task_field := f; task_value := v; task_callback := cb |} |}.

(** The task of the last call for [f]. *)
Definition task_of (c : Call) : TimerTask :=
  {| task_field := call_field c; task_value := call_value c;
     task_callback := call_callback c |}.

(** Day number of the local calendar day of the clock. *)
Definition local_day (h : Host) : Z := (host_now h + host_tza h) / msPerDay.

(** The falsy values named by the claim. *)
Definition listed_falsy : list JsVal :=
  [JNull; JUndefined; JStr (lit ""); JNum (Finite (0 # 1));
   JBool false; JNum NaN].

(** Noon of 1 January 2024 in a zone five hours west of UTC. *)
Definition west_host : Host :=
  example_host (utc_midnight 2024 1 1 + 17 * 3600000) (- 5 * 3600000).

(** The task of the specification's aggregation example. *)
Definition sample_task : JsVal :=
  JObject [(f_title, JStr (lit ""));
           (f_description, JStr (lit "ok"));
           (f_priority, JStr (lit "urgent"));
           (f_dueDate, JStr (lit "2023-01-01"))].

Definition sample_host : Host := example_host (utc_midnight 2024 1 1) 0.

(** The same task with its keys written in another order. *)
Definition sample_task_reordered : JsVal :=
  JObject [(f_dueDate, JStr (lit "2023-01-01"));
           (f_priority, JStr (lit "urgent"));
           (f_description, JStr (lit "ok"));
           (f_title, JStr (lit ""))].

(** The action [validateField(f, v, cb, delay)]. *)
Definition call (f : jsstring) (v : JsVal) (cb : nat) (delay : Z) : Action :=
  DoCall {| call_field := f; call_value := v; call_callback := cb;
            call_delay := delay |}.

(** The calls among a sequence of actions. *)
Definition calls_of (actions : list Action) : list Call :=
  flat_map (fun a => match a with DoCall c => [c] | _ => [] end) actions.

(** No timer of field [f] fires in the course of the actions: the
    actions lie within one debounce window of [f]. *)
Fixpoint quiet_for (f : jsstring) (h : Host) (s : RealTimeValidator * EventLoop)
  (actions : list Action) : Prop :=
  match actions with
  | [] => True
  | a :: rest =>
      match a with
      | DoFire =>
          match next_timer (snd s) with
          | Some t => field_of t <> f
          | None => True
          end
      | _ => True
      end
      /\ quiet_for f h (do_action h s a) rest
  end.

(** The log after a sequence of actions on a fresh validator, once every
    timer has fired. *)
Definition log_after (h : Host) (actions : list Action) : list Event :=
  let s := do_actions h actions
             (new_RealTimeValidator new_TaskValidator, new_EventLoop) in
  log (run_until_idle h (fst s) (snd s)).

(** Three calls for the title, while a call for the priority is made and
    its timer fires. *)
Definition sample_actions : list Action :=
  [call f_title (JStr (lit "a")) 7 300;
   call f_priority (JStr (lit "low")) 8 100;
   call f_title (JStr (lit "ab")) 7 300;
   DoFire;
   DoWait 50;
   call f_title (JStr (lit "abc")) 7 300].

(** The escape of one character. *)
Definition escape_char (c : jschar) : jsstring :=
  if N.eqb c ch_amp then lit "&amp;"
  else if N.eqb c ch_lt then lit "&lt;"
  else if N.eqb c ch_gt then lit "&gt;"
  else if N.eqb c ch_quot then lit "&quot;"
  else if N.eqb c ch_apos then lit "&#x27;"
  else [c].

(** Every field result of a table is valid. *)
Definition all_valid (results : jsobj FieldResult) : bool :=
  forallb (fun kr => isValid (snd kr)) results.

(** Day number of a calendar day: [utc_midnight] in days. *)
Definition days_of_date (y m d : Z) : Z :=
  DayFromYear y + days_before_month y (Z.to_nat m) + (d - 1).

(** The days of the calendar, as [parse_iso_date_only] accepts them. *)
Definition valid_date (y m d : Z) : bool :=
  (1 <=? m) && (m <=? 12) && (1 <=? d) && (d <=? days_in_month y m).

(** Day of the era (400 years from 1 March of a year divisible by 400)
    on which the year [yoe] of the era begins, on 1 March. *)
Definition year_start (yoe : Z) : Z := 365 * yoe + yoe / 4 - yoe / 100.

(** The leap day of a year, as a number of days. *)
Definition leap_days (y : Z) : Z := if is_leap y then 1 else 0.

(* ================================================================== *)
(** * Properties *)

(** ** Strings *)

(** Numbers in messages: plain decimal, rounded digits from [2 ^ 53] on,
    exponent notation from [10 ^ 21] on. *)
Lemma num_to_string_examples :
  num_to_string 100 = lit "100"
  /\ num_to_string (-5) = lit "-5"
  /\ num_to_string (2 ^ 53 - 1) = lit "9007199254740991"
  /\ num_to_string (2 ^ 64) = lit "18446744073709552000"
  /\ num_to_string (10 ^ 21) = lit "1e+21"
  /\ num_to_string (2 ^ 70) = lit "1.1805916207174113e+21"
  /\ num_to_string (- 2 ^ 100) = lit "-1.2676506002282294e+30".
Proof. repeat split; vm_compute; reflexivity. Qed.

Lemma str_eqb_refl (s : jsstring) : str_eqb s s = true.
Proof.
  induction s as [|c s IH]; simpl; [reflexivity|].
  now rewrite N.eqb_refl, IH.
Qed.

Lemma str_eqb_eq (a b : jsstring) : str_eqb a b = true <-> a = b.
Proof.
  split; [|intros ->; apply str_eqb_refl].
  revert b; induction a as [|x a IH]; intros [|y b]; simpl; try discriminate; auto.
  intros H; apply andb_true_iff in H as [Hx Hab].
  apply N.eqb_eq in Hx; subst; f_equal; auto.
Qed.

Lemma str_eqb_neq (a b : jsstring) : str_eqb a b = false <-> a <> b.
Proof.
  split.
  - intros H E; apply str_eqb_eq in E; congruence.
  - intros H; destruct (str_eqb a b) eqn:E; [|reflexivity].
    apply str_eqb_eq in E; contradiction.
Qed.

Lemma trimStart_blank (s : jsstring) :
  forallb is_js_space s = true -> trimStart s = [].
Proof.
  induction s as [|c s IH]; simpl; [reflexivity|].
  intros H; apply andb_true_iff in H as [Hc Hs].
  rewrite Hc; auto.
Qed.

Lemma trim_blank (s : jsstring) :
  forallb is_js_space s = true -> trim s = [].
Proof.
  intros H; unfold trim; rewrite (trimStart_blank s H); reflexivity.
Qed.

Lemma nonempty_truthy (s : jsstring) : s <> [] -> ToBoolean (JStr s) = true.
Proof.
  destruct s as [|c s]; [congruence|]; intros _.
  unfold ToBoolean, str_length; simpl List.length.
  rewrite Nat2Z.inj_succ.
  destruct (Z.eqb_spec (Z.succ (Z.of_nat (List.length s))) 0); [lia|reflexivity].
Qed.

(** ** Escaping *)

Lemma replace_all_absent (c : jschar) (rep text : jsstring) :
  ~ In c text -> replace_all c rep text = text.
Proof.
  induction text as [|x t IH]; simpl; [reflexivity|].
  intros H. destruct (N.eqb_spec x c) as [->|Hne].
  - exfalso; apply H; now left.
  - simpl; f_equal; apply IH; intros Hin; apply H; now right.
Qed.

Lemma replace_all_length_le (c : jschar) (rep text : jsstring) :
  (1 <= List.length rep)%nat ->
  (List.length text <= List.length (replace_all c rep text))%nat.
Proof.
  intros Hrep; induction text as [|x t IH]; simpl; [lia|].
  rewrite length_app. destruct (N.eqb x c); simpl; lia.
Qed.

Lemma replace_all_length_lt (c : jschar) (rep text : jsstring) :
  (2 <= List.length rep)%nat -> In c text ->
  (List.length text < List.length (replace_all c rep text))%nat.
Proof.
  intros Hrep; induction text as [|x t IH]; simpl; [tauto|].
  intros Hin. rewrite length_app.
  pose proof (replace_all_length_le c rep t) as Hle.
  destruct (N.eqb_spec x c) as [->|Hne].
  - lia.
  - destruct Hin as [->|Hin]; [congruence|].
    specialize (IH Hin); simpl; lia.
Qed.

(** A character other than the pattern survives a replacement pass. *)
Lemma replace_all_keeps (c d : jschar) (rep text : jsstring) :
  d <> c -> In d text -> In d (replace_all c rep text).
Proof.
  intros Hne; induction text as [|x t IH]; simpl; [tauto|].
  intros [->|Hin]; apply in_or_app.
  - left. destruct (N.eqb_spec d c); [contradiction|now left].
  - right; auto.
Qed.

(** A replaced character leaves the characters of its replacement. *)
Lemma replace_all_inserts (c d : jschar) (rep text : jsstring) :
  In d rep -> In c text -> In d (replace_all c rep text).
Proof.
  intros Hrep; induction text as [|x t IH]; simpl; [tauto|].
  intros [->|Hin]; apply in_or_app.
  - left. now rewrite N.eqb_refl.
  - right; auto.
Qed.

Lemma not_escaped_absent (s : jsstring) :
  existsb is_escaped_char s = false ->
  ~ In ch_amp s /\ ~ In ch_lt s /\ ~ In ch_gt s /\ ~ In ch_quot s /\ ~ In ch_apos s.
Proof.
  intros H.
  assert (Hall : forall c, In c s -> is_escaped_char c = false).
  { intros c Hin. destruct (is_escaped_char c) eqn:E; [|reflexivity].
    assert (existsb is_escaped_char s = true) by (apply existsb_exists; eauto).
    congruence. }
  repeat split; intros Hin; apply Hall in Hin; discriminate.
Qed.

Lemma sanitize_plain (s : jsstring) :
  existsb is_escaped_char s = false -> sanitize s = s.
Proof.
  intros H; apply not_escaped_absent in H as (Ha & Hl & Hg & Hq & Hp).
  unfold sanitize.
  rewrite (replace_all_absent ch_amp _ s Ha).
  rewrite (replace_all_absent ch_lt _ s Hl).
  rewrite (replace_all_absent ch_gt _ s Hg).
  rewrite (replace_all_absent ch_quot _ s Hq).
  now rewrite (replace_all_absent ch_apos _ s Hp).
Qed.

(** Every escape begins with an ampersand, so an escaped string has one. *)
Lemma sanitize_has_amp (s : jsstring) :
  existsb is_escaped_char s = true -> In ch_amp (sanitize s).
Proof.
  intros H; apply existsb_exists in H as (c & Hin & Hc).
  unfold sanitize.
  set (s1 := replace_all ch_amp (lit "&amp;") s).
  set (s2 := replace_all ch_lt (lit "&lt;") s1).
  set (s3 := replace_all ch_gt (lit "&gt;") s2).
  set (s4 := replace_all ch_quot (lit "&quot;") s3).
  assert (K2 : In ch_amp s1 -> In ch_amp s2)
    by (apply replace_all_keeps; discriminate).
  assert (K3 : In ch_amp s2 -> In ch_amp s3)
    by (apply replace_all_keeps; discriminate).
  assert (K4 : In ch_amp s3 -> In ch_amp s4)
    by (apply replace_all_keeps; discriminate).
  assert (K5 : In ch_amp s4 -> In ch_amp (replace_all ch_apos (lit "&#x27;") s4))
    by (apply replace_all_keeps; discriminate).
  unfold is_escaped_char in Hc.
  repeat (apply orb_true_iff in Hc as [Hc|Hc]); apply N.eqb_eq in Hc; subst c.
  - apply K5, K4, K3, K2. apply replace_all_inserts; [now left|exact Hin].
  - apply K5, K4, K3.
    apply replace_all_inserts; [now left|].
    apply replace_all_keeps; [discriminate|exact Hin].
  - apply K5, K4.
    apply replace_all_inserts; [now left|].
    do 2 (apply replace_all_keeps; [discriminate|]). exact Hin.
  - apply K5.
    apply replace_all_inserts; [now left|].
    do 3 (apply replace_all_keeps; [discriminate|]). exact Hin.
  - apply replace_all_inserts; [now left|].
    do 4 (apply replace_all_keeps; [discriminate|]). exact Hin.
Qed.

Lemma sanitize_grows (s : jsstring) :
  In ch_amp s -> (List.length s < List.length (sanitize s))%nat.
Proof.
  intros Hin; unfold sanitize.
  pose proof (replace_all_length_lt ch_amp (lit "&amp;") s) as H1.
  set (s1 := replace_all ch_amp (lit "&amp;") s) in *.
  pose proof (replace_all_length_le ch_lt (lit "&lt;") s1) as H2.
  set (s2 := replace_all ch_lt (lit "&lt;") s1) in *.
  pose proof (replace_all_length_le ch_gt (lit "&gt;") s2) as H3.
  set (s3 := replace_all ch_gt (lit "&gt;") s2) in *.
  pose proof (replace_all_length_le ch_quot (lit "&quot;") s3) as H4.
  set (s4 := replace_all ch_quot (lit "&quot;") s3) in *.
  pose proof (replace_all_length_le ch_apos (lit "&#x27;") s4) as H5.
  simpl List.length in H1, H2, H3, H4, H5.
  specialize (H1 ltac:(lia) Hin).
  specialize (H2 ltac:(lia)). specialize (H3 ltac:(lia)).
  specialize (H4 ltac:(lia)). specialize (H5 ltac:(lia)).
  lia.
Qed.

(** ** Field validators *)

Lemma call_trim_returns (v : JsVal) :
  returns (call_trim v) <-> is_string v = true.
Proof.
  destruct v; simpl; split; intros H; try discriminate;
    try (destruct H; discriminate); try reflexivity;
    now exists (trim s).
Qed.

Lemma title_validate_returns (this : TitleValidationStrategy) (v : JsVal) :
  returns (title_validate this v) <-> string_or_falsy v = true.
Proof.
  unfold title_validate, string_or_falsy.
  destruct (ToBoolean v) eqn:Hb; simpl.
  - rewrite orb_false_r. destruct v; simpl; split; intros H;
      try discriminate; try (destruct H; discriminate);
      try reflexivity; eexists; reflexivity.
  - rewrite orb_true_r. split; [reflexivity|]. intros _; eexists; reflexivity.
Qed.

Lemma description_validate_returns (this : DescriptionValidationStrategy) (v : JsVal) :
  returns (description_validate this v) <-> string_or_falsy v = true.
Proof.
  unfold description_validate, string_or_falsy.
  destruct (ToBoolean v) eqn:Hb; simpl.
  - rewrite orb_false_r. destruct v; simpl; split; intros H;
      try discriminate; try (destruct H; discriminate);
      try reflexivity; eexists; reflexivity.
  - rewrite orb_true_r. split; [reflexivity|]. intros _; eexists; reflexivity.
Qed.

Lemma priority_validate_returns (h : Host) (this : PriorityValidationStrategy)
  (v : JsVal) :
  returns (priority_validate h this v) <-> string_or_falsy v = true.
Proof.
  unfold priority_validate, string_or_falsy.
  destruct (ToBoolean v) eqn:Hb; simpl.
  - rewrite orb_false_r. destruct v; simpl; split; intros H;
      try discriminate; try (destruct H; discriminate);
      try reflexivity; eexists; reflexivity.
  - rewrite orb_true_r. split; [reflexivity|]. intros _; eexists; reflexivity.
Qed.

(** The due-date validator raises only when [new Date] does. *)
Lemma dueDate_validate_returns (h : Host) (v : JsVal) :
  returns (dueDate_validate h v) <->
  (ToBoolean v = false \/ returns (new_Date h v)).
Proof.
  unfold dueDate_validate.
  destruct (ToBoolean v) eqn:Hb; simpl.
  - split.
    + intros [a Ha]. right. destruct (new_Date h v) as [d|e]; [now exists d|discriminate].
    + intros [H|[d Hd]]; [discriminate|]. rewrite Hd; simpl.
      destruct d; eexists; reflexivity.
  - split; [now left|]. intros _; eexists; reflexivity.
Qed.

Lemma dueDate_validate_returns_string_or_falsy (h : Host) (v : JsVal) :
  string_or_falsy v = true -> returns (dueDate_validate h v).
Proof.
  intros H; apply dueDate_validate_returns.
  unfold string_or_falsy in H; apply orb_true_iff in H as [H|H].
  - right. destruct v; try discriminate; simpl; eexists; reflexivity.
  - left. now apply negb_true_iff in H.
Qed.

(** The absent branch of the four validators. *)
Lemma falsy_title (this : TitleValidationStrategy) (v : JsVal) :
  ToBoolean v = false ->
  title_validate this v = Return (mkFieldResult false [msg_title_required] None).
Proof. intros H; unfold title_validate; now rewrite H. Qed.

Lemma falsy_description (this : DescriptionValidationStrategy) (v : JsVal) :
  ToBoolean v = false ->
  description_validate this v = Return (mkFieldResult true [] (Some (JStr []))).
Proof. intros H; unfold description_validate; now rewrite H. Qed.

Lemma falsy_priority (h : Host) (this : PriorityValidationStrategy) (v : JsVal) :
  ToBoolean v = false ->
  priority_validate h this v =
    Return (mkFieldResult true [] (Some (JStr (lit "medium")))).
Proof. intros H; unfold priority_validate; now rewrite H. Qed.

Lemma falsy_dueDate (h : Host) (v : JsVal) :
  ToBoolean v = false ->
  dueDate_validate h v = Return (mkFieldResult true [] (Some JNull)).
Proof. intros H; unfold dueDate_validate; now rewrite H. Qed.

Lemma title_validate_coherent this v r :
  title_validate this v = Return r -> coherent r.
Proof.
  unfold title_validate. destruct (ToBoolean v); simpl.
  - destruct (call_trim v); simpl; [|discriminate].
    intros [= <-]; reflexivity.
  - intros [= <-]; reflexivity.
Qed.

Lemma description_validate_coherent this v r :
  description_validate this v = Return r -> coherent r.
Proof.
  unfold description_validate. destruct (ToBoolean v); simpl.
  - destruct (call_trim v); simpl; [|discriminate].
    intros [= <-]; reflexivity.
  - intros [= <-]; reflexivity.
Qed.

Lemma priority_validate_coherent h this v r :
  priority_validate h this v = Return r -> coherent r.
Proof.
  unfold priority_validate. destruct (ToBoolean v); simpl.
  - destruct (call_toLowerCase h v); simpl; [|discriminate].
    intros [= <-]; reflexivity.
  - intros [= <-]; reflexivity.
Qed.

Lemma dueDate_validate_coherent h v r :
  dueDate_validate h v = Return r -> coherent r.
Proof.
  unfold dueDate_validate. destruct (ToBoolean v); simpl.
  - destruct (new_Date h v) as [[t|]|]; simpl; try discriminate;
      intros [= <-]; reflexivity.
  - intros [= <-]; reflexivity.
Qed.

(** ** Objects *)

Lemma js_get_skip {A} (pre suf : jsobj A) (k : jsstring) :
  ~ In k (Object_keys pre) -> js_get (pre ++ suf) k = js_get suf k.
Proof.
  induction pre as [|[k' a] pre IH]; simpl; [reflexivity|].
  intros H. destruct (str_eqb k' k) eqn:E.
  - apply str_eqb_eq in E; subst. exfalso; apply H; now left.
  - apply IH; intros Hin; apply H; now right.
Qed.

Lemma js_get_first {A} (k : jsstring) (a : A) (rest : jsobj A) :
  js_get ((k, a) :: rest) k = Some a.
Proof. simpl; now rewrite str_eqb_refl. Qed.

Lemma js_set_fresh {A} (o : jsobj A) (k : jsstring) (a : A) :
  ~ In k (Object_keys o) -> js_set o k a = o ++ [(k, a)].
Proof.
  induction o as [|[k' a'] o IH]; simpl; [reflexivity|].
  intros H. destruct (str_eqb k' k) eqn:E.
  - apply str_eqb_eq in E; subst. exfalso; apply H; now left.
  - f_equal; apply IH; intros Hin; apply H; now right.
Qed.

Lemma js_get_set_same {A} (o : jsobj A) (k : jsstring) (a : A) :
  js_get (js_set o k a) k = Some a.
Proof.
  induction o as [|[k' a'] o IH]; simpl.
  - now rewrite str_eqb_refl.
  - destruct (str_eqb k' k) eqn:E; simpl; rewrite E; auto.
Qed.

Lemma js_get_set_other {A} (o : jsobj A) (k k2 : jsstring) (a : A) :
  k2 <> k -> js_get (js_set o k a) k2 = js_get o k2.
Proof.
  intros Hne. induction o as [|[k' a'] o IH]; simpl.
  - destruct (str_eqb k k2) eqn:E; [|reflexivity].
    apply str_eqb_eq in E; congruence.
  - destruct (str_eqb k' k) eqn:E; simpl.
    + apply str_eqb_eq in E; subst k'.
      destruct (str_eqb k k2) eqn:E2; [|reflexivity].
      apply str_eqb_eq in E2; congruence.
    + destruct (str_eqb k' k2); auto.
Qed.

(** ** Aggregation *)

Lemma push_field_errors_app (field : jsstring) (errs acc : list jsstring) :
  push_field_errors field errs acc = acc ++ map (prefixed field) errs.
Proof.
  unfold push_field_errors; revert acc.
  induction errs as [|e errs IH]; intros acc; simpl.
  - now rewrite app_nil_r.
  - rewrite IH, <- app_assoc; reflexivity.
Qed.

Lemma errors_of_app (a b : jsobj FieldResult) :
  errors_of (a ++ b) = errors_of a ++ errors_of b.
Proof. unfold errors_of; apply flat_map_app. Qed.

Lemma sanitized_of_app (a b : jsobj FieldResult) :
  sanitized_of (a ++ b) = sanitized_of a ++ sanitized_of b.
Proof. unfold sanitized_of; now rewrite filter_app, map_app. Qed.

Lemma sanitized_of_keys (results : jsobj FieldResult) (k : jsstring) :
  In k (Object_keys (sanitized_of results)) -> In k (Object_keys results).
Proof.
  unfold Object_keys, sanitized_of. rewrite map_map; simpl.
  intros H; apply in_map_iff in H as ([k' r] & <- & Hin).
  apply filter_In in Hin as [Hin _].
  apply in_map_iff; exists (k', r); auto.
Qed.

(** The loop of [validateTaskUpdate] is the two loops of [validateTask]
    run side by side. *)
Lemma collect_update_step_split results allErrors sanitized field :
  collect_update_step results (allErrors, sanitized) field =
  (collect_errors_step results allErrors field,
   collect_sanitized_step results sanitized field).
Proof.
  unfold collect_update_step, collect_errors_step, collect_sanitized_step.
  destruct (js_get results field) as [r|]; [|reflexivity].
  destruct (isValid r); reflexivity.
Qed.

Lemma collect_update_fold_split results keys allErrors sanitized :
  fold_left (collect_update_step results) keys (allErrors, sanitized) =
  (fold_left (collect_errors_step results) keys allErrors,
   fold_left (collect_sanitized_step results) keys sanitized).
Proof.
  revert allErrors sanitized.
  induction keys as [|k keys IH]; intros; cbn [fold_left]; [reflexivity|].
  now rewrite collect_update_step_split, IH.
Qed.

Lemma collect_errors_fold_gen (results pre suf : jsobj FieldResult) :
  results = pre ++ suf -> NoDup (Object_keys results) ->
  fold_left (collect_errors_step results) (Object_keys suf) (errors_of pre)
  = errors_of results.
Proof.
  revert pre. induction suf as [|[k r] suf IH]; intros pre Hres Hnd.
  - simpl. now rewrite Hres, app_nil_r.
  - simpl. 
    assert (Hk : ~ In k (Object_keys pre)).
    { rewrite Hres in Hnd. unfold Object_keys in Hnd |- *.
      rewrite map_app in Hnd. simpl in Hnd.
      apply NoDup_remove_2 in Hnd. intros Hin; apply Hnd.
      apply in_or_app; now left. }
    unfold collect_errors_step at 2.
    rewrite Hres, (js_get_skip pre ((k, r) :: suf) k Hk), js_get_first, <- Hres.
    replace (if negb (isValid r)
             then push_field_errors k (errors r) (errors_of pre)
             else errors_of pre)
      with (errors_of (pre ++ [(k, r)])).
    + apply IH; [|exact Hnd]. now rewrite <- app_assoc.
    + rewrite errors_of_app. unfold errors_of at 2; simpl.
      rewrite push_field_errors_app, app_nil_r.
      destruct (isValid r); simpl; [now rewrite app_nil_r|reflexivity].
Qed.

Lemma collect_sanitized_fold_gen (results pre suf : jsobj FieldResult) :
  results = pre ++ suf -> NoDup (Object_keys results) ->
  fold_left (collect_sanitized_step results) (Object_keys suf) (sanitized_of pre)
  = sanitized_of results.
Proof.
  revert pre. induction suf as [|[k r] suf IH]; intros pre Hres Hnd.
  - simpl. now rewrite Hres, app_nil_r.
  - simpl.
    assert (Hk : ~ In k (Object_keys pre)).
    { rewrite Hres in Hnd. unfold Object_keys in Hnd |- *.
      rewrite map_app in Hnd. simpl in Hnd.
      apply NoDup_remove_2 in Hnd. intros Hin; apply Hnd.
      apply in_or_app; now left. }
    unfold collect_sanitized_step at 2.
    rewrite Hres, (js_get_skip pre ((k, r) :: suf) k Hk), js_get_first, <- Hres.
    replace (if isValid r
             then js_set (sanitized_of pre) k (get_sanitizedValue r)
             else sanitized_of pre)
      with (sanitized_of (pre ++ [(k, r)])).
    + apply IH; [|exact Hnd]. now rewrite <- app_assoc.
    + rewrite sanitized_of_app. unfold sanitized_of at 2; simpl.
      destruct (isValid r); simpl; [|now rewrite app_nil_r].
      symmetry; apply js_set_fresh.
      intros Hin; apply Hk. now apply sanitized_of_keys.
Qed.

Lemma collect_errors_fold (results : jsobj FieldResult) :
  NoDup (Object_keys results) ->
  fold_left (collect_errors_step results) (Object_keys results) []
  = errors_of results.
Proof. intros H; now apply (collect_errors_fold_gen results [] results). Qed.

Lemma collect_sanitized_fold (results : jsobj FieldResult) :
  NoDup (Object_keys results) ->
  fold_left (collect_sanitized_step results) (Object_keys results) []
  = sanitized_of results.
Proof. intros H; now apply (collect_sanitized_fold_gen results [] results). Qed.

(** ** The two entry points of [TaskValidator] *)

Lemma bind_Return {A B} (c : completion A) (k : A -> completion B) (b : B) :
  bind c k = Return b -> exists a, c = Return a /\ k a = Return b.
Proof. destruct c as [a|e]; simpl; [eauto|discriminate]. Qed.

Lemma call_hasOwnProperty_Return o k b :
  call_hasOwnProperty o k = Return b -> b = own_key o k.
Proof.
  destruct o; simpl; try discriminate; try (now intros [= <-]).
  destruct (has_own props (lit "hasOwnProperty")); [discriminate|now intros [= <-]].
Qed.

Lemma get_prop_Return o k v : get_prop o k = Return v -> v = prop_of o k.
Proof. destruct o; simpl; try discriminate; now intros [= <-]. Qed.

Lemma nodupb_NoDup (l : list jsstring) : nodupb l = true -> NoDup l.
Proof.
  induction l as [|x t IH]; simpl; [constructor|].
  intros H; apply andb_true_iff in H as [Hx Ht].
  constructor; [|auto].
  intros Hin. apply negb_true_iff in Hx.
  assert (existsb (str_eqb x) t = true)
    by (apply existsb_exists; exists x; split; [exact Hin|apply str_eqb_refl]).
  congruence.
Qed.

Lemma results_of_NoDup o1 o2 o3 o4 :
  NoDup (Object_keys (results_of o1 o2 o3 o4)).
Proof.
  apply nodupb_NoDup.
  destruct o1, o2, o3, o4; vm_compute; reflexivity.
Qed.

Lemma put_all o1 o2 o3 o4 :
  put f_dueDate o4 (put f_priority o3 (put f_description o2 (put f_title o1 [])))
  = results_of o1 o2 o3 o4.
Proof. destruct o1, o2, o3, o4; reflexivity. Qed.

Lemma update_field_Return o name validate results results' :
  update_field o name validate results = Return results' ->
  exists oi, field_outcome o name validate oi /\ results' = put name oi results.
Proof.
  unfold update_field. intros H.
  apply bind_Return in H as (b & Hb & H).
  apply call_hasOwnProperty_Return in Hb; subst b.
  destruct (own_key o name) eqn:Hown.
  - apply bind_Return in H as (v & Hv & H).
    apply bind_Return in H as (r & Hr & H).
    apply get_prop_Return in Hv; subst v.
    injection H as <-. exists (Some r); simpl; auto.
  - injection H as <-. exists None; simpl; auto.
Qed.

(** The shape of every result of [validateTaskUpdate]. *)
Lemma validateTaskUpdate_Return h this o r :
  validateTaskUpdate h this o = Return r ->
  exists o1 o2 o3 o4,
    field_outcome o f_title (title_validate (titleValidator this)) o1 /\
    field_outcome o f_description
      (description_validate (descriptionValidator this)) o2 /\
    field_outcome o f_priority (priority_validate h (priorityValidator this)) o3 /\
    field_outcome o f_dueDate (dueDate_validate h) o4 /\
    r = aggregate_of (results_of o1 o2 o3 o4).
Proof.
  unfold validateTaskUpdate. intros H.
  apply bind_Return in H as (res1 & H1 & H).
  apply bind_Return in H as (res2 & H2 & H).
  apply bind_Return in H as (res3 & H3 & H).
  apply bind_Return in H as (res4 & H4 & H).
  apply update_field_Return in H1 as (o1 & F1 & ->).
  apply update_field_Return in H2 as (o2 & F2 & ->).
  apply update_field_Return in H3 as (o3 & F3 & ->).
  apply update_field_Return in H4 as (o4 & F4 & ->).
  exists o1, o2, o3, o4. repeat (split; [assumption|]).
  rewrite put_all, collect_update_fold_split in H.
  rewrite (collect_errors_fold _ (results_of_NoDup o1 o2 o3 o4)) in H.
  rewrite (collect_sanitized_fold _ (results_of_NoDup o1 o2 o3 o4)) in H.
  injection H as <-. reflexivity.
Qed.

(** The shape of every result of [validateTask]. *)
Lemma validateTask_Return h this o r :
  validateTask h this o = Return r ->
  exists r1 r2 r3 r4,
    title_validate (titleValidator this) (prop_of o f_title) = Return r1 /\
    description_validate (descriptionValidator this) (prop_of o f_description)
      = Return r2 /\
    priority_validate h (priorityValidator this) (prop_of o f_priority)
      = Return r3 /\
    dueDate_validate h (prop_of o f_dueDate) = Return r4 /\
    r = aggregate_of (results_of (Some r1) (Some r2) (Some r3) (Some r4)).
Proof.
  unfold validateTask. intros H.
  apply bind_Return in H as (v1 & V1 & H).
  apply bind_Return in H as (r1 & R1 & H).
  apply bind_Return in H as (v2 & V2 & H).
  apply bind_Return in H as (r2 & R2 & H).
  apply bind_Return in H as (v3 & V3 & H).
  apply bind_Return in H as (r3 & R3 & H).
  apply bind_Return in H as (v4 & V4 & H).
  apply bind_Return in H as (r4 & R4 & H).
  apply get_prop_Return in V1, V2, V3, V4; subst.
  exists r1, r2, r3, r4. repeat (split; [assumption|]).
  change [(f_title, r1); (f_description, r2); (f_priority, r3); (f_dueDate, r4)]
    with (results_of (Some r1) (Some r2) (Some r3) (Some r4)) in H.
  pose proof (results_of_NoDup (Some r1) (Some r2) (Some r3) (Some r4)) as Hnd.
  rewrite (collect_errors_fold _ Hnd), (collect_sanitized_fold _ Hnd) in H.
  injection H as <-. reflexivity.
Qed.

Lemma js_get_In {A} (o : jsobj A) (k : jsstring) (a : A) :
  js_get o k = Some a -> In (k, a) o.
Proof.
  induction o as [|[k' a'] o IH]; simpl; [discriminate|].
  destruct (str_eqb k' k) eqn:E.
  - apply str_eqb_eq in E; subst. intros [= ->]; now left.
  - intros H; right; auto.
Qed.

Lemma In_js_get {A} (o : jsobj A) (k : jsstring) (a : A) :
  NoDup (Object_keys o) -> In (k, a) o -> js_get o k = Some a.
Proof.
  induction o as [|[k' a'] o IH]; simpl; [tauto|].
  intros Hnd [H|H].
  - injection H as -> ->. now rewrite str_eqb_refl.
  - inversion Hnd as [|? ? Hk Hnd']; subst.
    destruct (str_eqb k' k) eqn:E; [|auto].
    apply str_eqb_eq in E; subst. exfalso; apply Hk.
    apply in_map_iff; exists (k, a); auto.
Qed.

(** Keys of the sanitized data of a table without repeated keys. *)
Lemma sanitized_of_key_iff (results : jsobj FieldResult) (f : jsstring) :
  NoDup (Object_keys results) ->
  (In f (Object_keys (sanitized_of results)) <->
   exists fr, js_get results f = Some fr /\ isValid fr = true).
Proof.
  intros Hnd. unfold Object_keys at 1, sanitized_of. rewrite map_map; simpl.
  split.
  - intros H; apply in_map_iff in H as ([k r] & <- & Hin).
    apply filter_In in Hin as [Hin Hv]. simpl in *.
    exists r; split; [now apply In_js_get|exact Hv].
  - intros (fr & Hget & Hv). apply js_get_In in Hget.
    apply in_map_iff; exists (f, fr); split; [reflexivity|].
    apply filter_In; auto.
Qed.

Lemma errors_of_field_order o1 o2 o3 o4 :
  errors_of (results_of o1 o2 o3 o4)
  = flat_map (field_errors (results_of o1 o2 o3 o4)) field_order.
Proof. destruct o1, o2, o3, o4; reflexivity. Qed.

Lemma field_outcome_keys o v1 v2 v3 v4 o1 o2 o3 o4 :
  field_outcome o f_title v1 o1 -> field_outcome o f_description v2 o2 ->
  field_outcome o f_priority v3 o3 -> field_outcome o f_dueDate v4 o4 ->
  Object_keys (results_of o1 o2 o3 o4) = filter (own_key o) field_order.
Proof.
  intros F1 F2 F3 F4. unfold field_order; simpl filter.
  destruct o1, o2, o3, o4; simpl in F1, F2, F3, F4;
    repeat match goal with
           | H : _ /\ _ |- _ => destruct H as [H _]
           end;
    rewrite F1, F2, F3, F4; reflexivity.
Qed.

(** ** When the entry points return *)

Lemma get_prop_total o k :
  is_nullish o = false -> get_prop o k = Return (prop_of o k).
Proof. destruct o; simpl; try discriminate; reflexivity. Qed.

Lemma builtin_not_nullish o :
  hasOwnProperty_is_builtin o = true -> is_nullish o = false.
Proof. destruct o; simpl; try discriminate; reflexivity. Qed.

Lemma call_hasOwnProperty_total o k :
  hasOwnProperty_is_builtin o = true ->
  call_hasOwnProperty o k = Return (own_key o k).
Proof.
  destruct o; simpl; try discriminate; try reflexivity.
  intros H; apply negb_true_iff in H; rewrite H; reflexivity.
Qed.

(** Without the method of [Object.prototype] the call raises. *)
Lemma call_hasOwnProperty_raises o k :
  hasOwnProperty_is_builtin o = false ->
  call_hasOwnProperty o k = Throw TypeError.
Proof.
  destruct o; simpl; try discriminate; try reflexivity.
  intros H; apply negb_false_iff in H; rewrite H; reflexivity.
Qed.

Lemma well_typed_task_fields o :
  well_typed_task o = true ->
  is_nullish o = false /\
  string_or_falsy (prop_of o f_title) = true /\
  string_or_falsy (prop_of o f_description) = true /\
  string_or_falsy (prop_of o f_priority) = true /\
  string_or_falsy (prop_of o f_dueDate) = true.
Proof.
  unfold well_typed_task, field_order. simpl forallb. intros H.
  apply andb_true_iff in H as [Hn H]. apply negb_true_iff in Hn.
  apply andb_true_iff in H as [H1 H]. apply andb_true_iff in H as [H2 H].
  apply andb_true_iff in H as [H3 H]. apply andb_true_iff in H as [H4 _].
  auto.
Qed.

Lemma validateTask_returns h this o :
  well_typed_task o = true -> returns (validateTask h this o).
Proof.
  intros H. apply well_typed_task_fields in H as (Hn & H1 & H2 & H3 & H4).
  destruct (proj2 (title_validate_returns (titleValidator this) _) H1) as [r1 R1].
  destruct (proj2 (description_validate_returns (descriptionValidator this) _) H2)
    as [r2 R2].
  destruct (proj2 (priority_validate_returns h (priorityValidator this) _) H3)
    as [r3 R3].
  destruct (dueDate_validate_returns_string_or_falsy h _ H4) as [r4 R4].
  unfold validateTask.
  rewrite !(get_prop_total o _ Hn). cbn [bind].
  rewrite R1; cbn [bind]. rewrite R2; cbn [bind].
  rewrite R3; cbn [bind]. rewrite R4; cbn [bind].
  eexists; reflexivity.
Qed.

Lemma update_field_returns o name validate results :
  hasOwnProperty_is_builtin o = true ->
  returns (validate (prop_of o name)) ->
  returns (update_field o name validate results).
Proof.
  intros Hs [r Hr]. unfold update_field.
  rewrite (call_hasOwnProperty_total o name Hs); cbn [bind].
  destruct (own_key o name); [|eexists; reflexivity].
  rewrite (get_prop_total o name (builtin_not_nullish o Hs)); cbn [bind].
  rewrite Hr; cbn [bind]. eexists; reflexivity.
Qed.

Lemma validateTaskUpdate_returns h this o :
  well_typed_task o = true -> hasOwnProperty_is_builtin o = true ->
  returns (validateTaskUpdate h this o).
Proof.
  intros H Hs. apply well_typed_task_fields in H as (Hn & H1 & H2 & H3 & H4).
  unfold validateTaskUpdate.
  destruct (update_field_returns o f_title
              (title_validate (titleValidator this)) [] Hs) as [res1 E1].
  { now apply title_validate_returns. }
  rewrite E1; cbn [bind].
  destruct (update_field_returns o f_description
              (description_validate (descriptionValidator this)) res1 Hs)
    as [res2 E2].
  { now apply description_validate_returns. }
  rewrite E2; cbn [bind].
  destruct (update_field_returns o f_priority
              (priority_validate h (priorityValidator this)) res2 Hs)
    as [res3 E3].
  { now apply priority_validate_returns. }
  rewrite E3; cbn [bind].
  destruct (update_field_returns o f_dueDate (dueDate_validate h) res3 Hs)
    as [res4 E4].
  { now apply dueDate_validate_returns_string_or_falsy. }
  rewrite E4; cbn [bind].
  destruct (fold_left _ _ _) as [allErrors sanitized].
  eexists; reflexivity.
Qed.

(** ** When they raise *)

Lemma call_trim_raises (v : JsVal) :
  is_string v = false -> call_trim v = Throw TypeError.
Proof. destruct v; simpl; intros H; try discriminate H; reflexivity. Qed.

Lemma call_toLowerCase_raises (h : Host) (v : JsVal) :
  is_string v = false -> call_toLowerCase h v = Throw TypeError.
Proof. destruct v; simpl; intros H; try discriminate H; reflexivity. Qed.

Lemma not_string_or_falsy (v : JsVal) :
  string_or_falsy v = false -> is_string v = false /\ ToBoolean v = true.
Proof.
  unfold string_or_falsy. intros H. apply orb_false_iff in H as [Hs Hb].
  apply negb_false_iff in Hb. now split.
Qed.

Lemma validators_raise (h : Host) (this : TaskValidator) (v : JsVal) :
  string_or_falsy v = false ->
  title_validate (titleValidator this) v = Throw TypeError
  /\ description_validate (descriptionValidator this) v = Throw TypeError
  /\ priority_validate h (priorityValidator this) v = Throw TypeError.
Proof.
  intros H. apply not_string_or_falsy in H as [Hs Hb].
  unfold title_validate, description_validate, priority_validate.
  rewrite Hb, (call_trim_raises v Hs), (call_toLowerCase_raises h v Hs).
  repeat split; reflexivity.
Qed.

Lemma validateTaskUpdate_raises h this o :
  hasOwnProperty_is_builtin o = false ->
  validateTaskUpdate h this o = Throw TypeError.
Proof.
  intros H. unfold validateTaskUpdate, update_field.
  rewrite (call_hasOwnProperty_raises o f_title H). reflexivity.
Qed.

Lemma entry_points_raise_on_nullish h this o :
  is_nullish o = true ->
  validateTask h this o = Throw TypeError
  /\ validateTaskUpdate h this o = Throw TypeError.
Proof. destruct o; simpl; intros H; try discriminate H; split; reflexivity. Qed.

(** ** Timers *)

Lemma consistent_new (v : TaskValidator) :
  consistent (new_RealTimeValidator v) new_EventLoop.
Proof. split; simpl; intros; try tauto; try discriminate; reflexivity. Qed.

Lemma validateField_pending this w f v cb delay :
  pending (snd (validateField this w f v cb delay))
  = filter (kept this f) (pending w) ++ [scheduled w f v cb delay].
Proof.
  unfold validateField, kept, scheduled.
  destruct (js_get (debounceTimers this) f) as [handle|]; simpl; [reflexivity|].
  f_equal. symmetry; apply forallb_filter_id.
  apply forallb_forall; intros; reflexivity.
Qed.

Lemma validateField_next_handle this w f v cb delay :
  next_handle (snd (validateField this w f v cb delay)) = Pos.succ (next_handle w).
Proof.
  unfold validateField.
  destruct (js_get (debounceTimers this) f); reflexivity.
Qed.

Lemma validateField_log this w f v cb delay :
  log (snd (validateField this w f v cb delay)) = log w.
Proof.
  unfold validateField.
  destruct (js_get (debounceTimers this) f); reflexivity.
Qed.

Lemma validateField_validator this w f v cb delay :
  validator (fst (validateField this w f v cb delay)) = validator this.
Proof.
  unfold validateField.
  destruct (js_get (debounceTimers this) f); reflexivity.
Qed.

Lemma validateField_timers this w f v cb delay :
  debounceTimers (fst (validateField this w f v cb delay))
  = timers_assign (debounceTimers this) f (next_handle w).
Proof.
  unfold validateField.
  destruct (js_get (debounceTimers this) f); reflexivity.
Qed.

Lemma filter_none {A} (p : A -> bool) (l : list A) :
  (forall x, In x l -> p x = false) -> filter p l = [].
Proof.
  induction l as [|x l IH]; simpl; [reflexivity|]. intros H.
  rewrite (H x (or_introl eq_refl)). apply IH; intros; apply H; now right.
Qed.

Lemma filter_filter_implied {A} (p q : A -> bool) (l : list A) :
  (forall x, In x l -> p x = true -> q x = true) ->
  filter p (filter q l) = filter p l.
Proof.
  induction l as [|x l IH]; simpl; [reflexivity|]. intros H.
  assert (IH' : filter p (filter q l) = filter p l)
    by (apply IH; intros; apply H; auto).
  destruct (q x) eqn:Q; simpl; rewrite IH'; [reflexivity|].
  destruct (p x) eqn:P; [|reflexivity].
  rewrite (H x (or_introl eq_refl) P) in Q; discriminate.
Qed.

(** A call for [f] cancels every pending timer of [f] and leaves exactly
    the new one. *)
Lemma validateField_own_timer this w f v cb delay :
  consistent this w -> f <> k_proto ->
  pending_for f (snd (validateField this w f v cb delay))
  = [scheduled w f v cb delay].
Proof.
  intros C Hf. unfold pending_for.
  rewrite validateField_pending, filter_app. simpl.
  unfold is_for at 2, field_of; simpl. rewrite str_eqb_refl.
  rewrite filter_none; [reflexivity|].
  intros t Hin. apply filter_In in Hin as [Hin Hk].
  unfold is_for. apply str_eqb_neq. intros E.
  pose proof (cons_owned _ _ C t Hin) as Ho. rewrite E in Ho.
  specialize (Ho Hf). unfold kept in Hk. rewrite Ho, Pos.eqb_refl in Hk.
  discriminate.
Qed.

(** A call for [f] leaves the pending timers of every other field as
    they are. *)
Lemma validateField_other_timers this w f g v cb delay :
  consistent this w -> g <> f ->
  pending_for g (snd (validateField this w f v cb delay)) = pending_for g w.
Proof.
  intros C Hg. unfold pending_for.
  rewrite validateField_pending, filter_app. simpl.
  unfold is_for at 2, field_of; simpl.
  assert (E : str_eqb f g = false) by (apply str_eqb_neq; congruence).
  rewrite E, app_nil_r. apply filter_filter_implied.
  intros t Hin G. unfold kept.
  destruct (js_get (debounceTimers this) f) as [hd|] eqn:Ef; [|reflexivity].
  apply negb_true_iff, Pos.eqb_neq. intros <-.
  apply (cons_owner _ _ C t f Hin) in Ef.
  apply str_eqb_eq in G. congruence.
Qed.

Lemma validateField_consistent this w f v cb delay :
  consistent this w ->
  consistent (fst (validateField this w f v cb delay))
             (snd (validateField this w f v cb delay)).
Proof.
  intros C.
  assert (Hnew : forall k, js_get (debounceTimers this) k <> Some (next_handle w)).
  { intros k E. apply (cons_stored_issued _ _ C) in E. lia. }
  split; rewrite ?validateField_pending, ?validateField_timers,
           ?validateField_next_handle; unfold timers_assign.
  - (* owned *)
    intros t Hin Hp. apply in_app_or in Hin as [Hin|[<-|[]]].
    + apply filter_In in Hin as [Hin Hk].
      pose proof (cons_owned _ _ C t Hin Hp) as Ho.
      destruct (str_eqb f k_proto); [exact Ho|].
      destruct (str_eqb (field_of t) f) eqn:E.
      * apply str_eqb_eq in E. rewrite E in Ho. unfold kept in Hk.
        rewrite Ho, Pos.eqb_refl in Hk. discriminate.
      * apply str_eqb_neq in E. now rewrite js_get_set_other.
    + unfold field_of in *; simpl in *.
      destruct (str_eqb f k_proto) eqn:E.
      * apply str_eqb_eq in E; contradiction.
      * apply js_get_set_same.
  - (* owner *)
    intros t k Hin Hget. apply in_app_or in Hin as [Hin|[<-|[]]].
    + apply filter_In in Hin as [Hin _].
      destruct (str_eqb f k_proto); [now apply (cons_owner _ _ C t k)|].
      destruct (str_eqb k f) eqn:E.
      * apply str_eqb_eq in E; subst k. rewrite js_get_set_same in Hget.
        injection Hget as Hget. pose proof (cons_pending_issued _ _ C t Hin). lia.
      * apply str_eqb_neq in E. rewrite js_get_set_other in Hget by exact E.
        now apply (cons_owner _ _ C t k).
    + unfold field_of; simpl in *.
      destruct (str_eqb f k_proto); [now apply Hnew in Hget|].
      destruct (str_eqb k f) eqn:E; [now apply str_eqb_eq in E|].
      apply str_eqb_neq in E. rewrite js_get_set_other in Hget by exact E.
      now apply Hnew in Hget.
  - (* pending handles are issued *)
    intros t Hin. apply in_app_or in Hin as [Hin|[<-|[]]].
    + apply filter_In in Hin as [Hin _].
      pose proof (cons_pending_issued _ _ C t Hin). lia.
    + simpl. lia.
  - (* stored handles are issued *)
    intros k hd Hget.
    destruct (str_eqb f k_proto).
    + pose proof (cons_stored_issued _ _ C k hd Hget). lia.
    + destruct (str_eqb k f) eqn:E.
      * apply str_eqb_eq in E; subst k. rewrite js_get_set_same in Hget.
        injection Hget as <-. lia.
      * apply str_eqb_neq in E. rewrite js_get_set_other in Hget by exact E.
        pose proof (cons_stored_issued _ _ C k hd Hget). lia.
  - (* nothing is stored under __proto__ *)
    destruct (str_eqb f k_proto) eqn:E; [apply (cons_proto _ _ C)|].
    apply str_eqb_neq in E. rewrite js_get_set_other by congruence.
    apply (cons_proto _ _ C).
Qed.

(** *** Running the pending timers *)

Lemma extract_next_perm (t : Timer) (rest : list Timer) :
  Permutation (fst (extract_next t rest) :: snd (extract_next t rest)) (t :: rest).
Proof.
  revert t. induction rest as [|u rest IH]; intros t; simpl; [reflexivity|].
  specialize (IH u). destruct (extract_next u rest) as [m others]. simpl in IH.
  destruct (timer_due t <=? timer_due m); simpl; [reflexivity|].
  rewrite perm_swap. now apply perm_skip.
Qed.

Lemma fire_next_Some h this w w' :
  fire_next h this w = Some w' ->
  exists m, next_timer w = Some m
            /\ Permutation (m :: pending w') (pending w)
            /\ next_handle w' = next_handle w
            /\ log w' = log w ++ [run_task h (validator this) (timer_task m)].
Proof.
  unfold fire_next, next_timer. destruct (pending w) as [|t rest]; [discriminate|].
  pose proof (extract_next_perm t rest) as P.
  destruct (extract_next t rest) as [m others]. simpl in P.
  intros [= <-]. exists m; simpl; auto.
Qed.

Lemma fire_next_None h this w :
  fire_next h this w = None -> pending w = [].
Proof.
  unfold fire_next. destruct (pending w) as [|t rest]; [reflexivity|].
  destruct (extract_next t rest); discriminate.
Qed.

(** With fuel for every pending timer, each of them is run exactly once
    and none is left. *)
Lemma run_timers_log h this fuel w :
  (List.length (pending w) <= fuel)%nat ->
  exists fired,
    Permutation fired (pending w)
    /\ log (run_timers fuel h this w)
       = log w ++ map (fun t => run_task h (validator this) (timer_task t)) fired
    /\ pending (run_timers fuel h this w) = [].
Proof.
  revert w. induction fuel as [|fuel IH]; intros w Hlen.
  - destruct (pending w) eqn:E; [|simpl in Hlen; lia].
    exists []; simpl. rewrite E, app_nil_r; auto.
  - simpl. destruct (fire_next h this w) as [w'|] eqn:F.
    + apply fire_next_Some in F as (m & _ & P & _ & L).
      assert (Hlen' : (List.length (pending w') <= fuel)%nat).
      { apply Permutation_length in P. simpl in P. lia. }
      destruct (IH w' Hlen') as (fired & P' & L' & E').
      exists (m :: fired). split; [|split; [|exact E']].
      * rewrite <- P. now apply perm_skip.
      * rewrite L', L, <- app_assoc. reflexivity.
    + apply fire_next_None in F. exists []; simpl.
      rewrite F, app_nil_r; auto.
Qed.

Lemma fire_next_consistent h this w w' :
  consistent this w -> fire_next h this w = Some w' -> consistent this w'.
Proof.
  intros C F.
  destruct (fire_next_Some h this w w' F) as (m & _ & P & Hn & _).
  assert (Hsub : forall t, In t (pending w') -> In t (pending w))
    by (intros t Hin; apply (Permutation_in t P); now right).
  split; rewrite ?Hn.
  - intros t Hin. apply (cons_owned _ _ C), Hsub, Hin.
  - intros t k Hin. apply (cons_owner _ _ C), Hsub, Hin.
  - intros t Hin. apply (cons_pending_issued _ _ C), Hsub, Hin.
  - apply (cons_stored_issued _ _ C).
  - apply (cons_proto _ _ C).
Qed.

Lemma clearTimeout_all_pending (handles : list positive) (w : EventLoop) :
  pending (fold_left clearTimeout handles w)
  = filter (fun t => negb (existsb (Pos.eqb (timer_handle t)) handles)) (pending w).
Proof.
  revert w. induction handles as [|hd handles IH]; intros w; simpl.
  - symmetry; apply forallb_filter_id. apply forallb_forall; intros; reflexivity.
  - rewrite IH. simpl. clear IH.
    induction (pending w) as [|t l IHl]; simpl; [reflexivity|].
    destruct (Pos.eqb (timer_handle t) hd); simpl; [exact IHl|].
    destruct (existsb (Pos.eqb (timer_handle t)) handles); simpl;
      [exact IHl|now rewrite IHl].
Qed.

Lemma clearTimeout_all_next_handle (handles : list positive) (w : EventLoop) :
  next_handle (fold_left clearTimeout handles w) = next_handle w.
Proof.
  revert w. induction handles as [|hd handles IH]; intros w; simpl;
    [reflexivity|now rewrite IH].
Qed.

(** [clearTimers] cancels the pending timer of every ordinary field. *)
Lemma clearTimers_cancels this w f :
  consistent this w -> f <> k_proto ->
  pending_for f (snd (clearTimers this w)) = [].
Proof.
  intros C Hf. unfold pending_for, clearTimers. simpl snd.
  rewrite clearTimeout_all_pending. apply filter_none.
  intros t Hin. apply filter_In in Hin as [Hin Hk].
  unfold is_for. apply str_eqb_neq. intros E.
  pose proof (cons_owned _ _ C t Hin) as Ho. rewrite E in Ho.
  specialize (Ho Hf). apply js_get_In in Ho.
  apply negb_true_iff in Hk.
  assert (existsb (Pos.eqb (timer_handle t)) (map snd (debounceTimers this)) = true).
  { apply existsb_exists. exists (timer_handle t). split; [|apply Pos.eqb_refl].
    apply in_map_iff. exists (f, timer_handle t); auto. }
  congruence.
Qed.

Lemma clearTimers_consistent this w :
  consistent this w ->
  consistent (fst (clearTimers this w)) (snd (clearTimers this w)).
Proof.
  intros C. unfold clearTimers. cbn [fst snd].
  split; cbn [debounceTimers]; rewrite ?clearTimeout_all_next_handle;
    try (intros; discriminate); try reflexivity.
  - intros t Hin Hp. exfalso.
    assert (Hf : In t (pending_for (field_of t) (snd (clearTimers this w)))).
    { unfold pending_for. apply filter_In. split; [exact Hin|].
      unfold is_for. apply str_eqb_refl. }
    rewrite (clearTimers_cancels this w (field_of t) C Hp) in Hf. exact Hf.
  - intros t Hin. rewrite clearTimeout_all_pending in Hin.
    apply filter_In in Hin as [Hin _]. apply (cons_pending_issued _ _ C t Hin).
Qed.

Lemma filter_perm {A} (p : A -> bool) (l l' : list A) :
  Permutation l l' -> Permutation (filter p l) (filter p l').
Proof.
  induction 1 as [|x l l' _ IH|x y l|l l' l'' _ IH1 _ IH2]; simpl.
  - constructor.
  - destruct (p x); [now apply perm_skip|exact IH].
  - destruct (p x), (p y); try reflexivity. apply perm_swap.
  - now rewrite IH1.
Qed.

Lemma invocations_for_app f a b :
  invocations_for f (a ++ b) = invocations_for f a ++ invocations_for f b.
Proof. unfold invocations_for; apply filter_app. Qed.

(** Only the timers of field [f] contribute invocations for [f]. *)
Lemma invocations_of_tasks h v f (fired : list Timer) :
  invocations_for f (map (fun t => run_task h v (timer_task t)) fired)
  = invocations_for f
      (map (fun t => run_task h v (timer_task t)) (filter (is_for f) fired)).
Proof.
  induction fired as [|t fired IH]; simpl; [reflexivity|].
  unfold is_for at 1, field_of.
  destruct (str_eqb (task_field (timer_task t)) f) eqn:E; simpl.
  - now rewrite IH.
  - rewrite IH. unfold run_task at 1.
    destruct (dispatch h v (task_field (timer_task t)) (task_value (timer_task t)));
      simpl; [now rewrite E|reflexivity].
Qed.

(** *** Sequences of actions *)

Lemma do_actions_app h (a b : list Action) s :
  do_actions h (a ++ b) s = do_actions h b (do_actions h a s).
Proof. unfold do_actions; apply fold_left_app. Qed.

Lemma quiet_for_app f h s (a b : list Action) :
  quiet_for f h s (a ++ b) <->
  quiet_for f h s a /\ quiet_for f h (do_actions h a s) b.
Proof.
  revert s. induction a as [|x a IH]; intros s; simpl; [tauto|].
  rewrite IH. fold (do_actions h a (do_action h s x)). tauto.
Qed.

Lemma last_call_for_snoc f calls c :
  last_call_for f (calls ++ [c])
  = if str_eqb (call_field c) f then Some c else last_call_for f calls.
Proof. unfold last_call_for. rewrite rev_app_distr. reflexivity. Qed.

Lemma calls_of_snoc actions a :
  calls_of (actions ++ [a])
  = calls_of actions ++ match a with DoCall c => [c] | _ => [] end.
Proof. unfold calls_of. rewrite flat_map_app. simpl. now rewrite app_nil_r. Qed.

(** A timer of another field adds no invocation for [f]. *)
Lemma run_task_other_field h v f (t : Timer) :
  field_of t <> f -> invocations_for f [run_task h v (timer_task t)] = [].
Proof.
  intros Hne. unfold run_task, field_of in *.
  destruct (dispatch h v (task_field (timer_task t)) (task_value (timer_task t)));
    simpl; [|reflexivity].
  apply str_eqb_neq in Hne. now rewrite Hne.
Qed.

(** What holds after any sequence of actions within a debounce window of
    an ordinary field [f]: the state is consistent, the log has gained no
    invocation for [f], and once [f] has been named by a call its only
    pending timer is that of the last such call. *)
Lemma window_invariant h f actions this w :
  consistent this w -> f <> k_proto ->
  quiet_for f h (this, w) actions ->
  consistent (fst (do_actions h actions (this, w)))
             (snd (do_actions h actions (this, w)))
  /\ validator (fst (do_actions h actions (this, w))) = validator this
  /\ invocations_for f (log (snd (do_actions h actions (this, w))))
     = invocations_for f (log w)
  /\ forall c, last_call_for f (calls_of actions) = Some c ->
       exists t, pending_for f (snd (do_actions h actions (this, w))) = [t]
                 /\ timer_task t = task_of c /\ call_field c = f.
Proof.
  intros C Hf. induction actions as [|a actions IH] using rev_ind; intros Q.
  - simpl. split; [exact C|]. split; [reflexivity|]. split; [reflexivity|].
    intros c Hc; discriminate Hc.
  - apply quiet_for_app in Q as [Q Qa].
    destruct (IH Q) as (C' & Hv & Hl & Hp). clear IH.
    rewrite do_actions_app. 
    destruct (do_actions h actions (this, w)) as [this' w'] eqn:E.
    cbn [fst snd] in *. rewrite calls_of_snoc.
    destruct a as [c'| |dt]; cbn [do_actions fold_left do_action fst snd].
    + (* a call *)
      pose proof (validateField_consistent this' w' (call_field c')
                    (call_value c') (call_callback c') (call_delay c') C') as C''.
      split; [exact C''|]. split; [now rewrite validateField_validator|].
      split; [now rewrite validateField_log|].
      intros c. rewrite last_call_for_snoc.
      destruct (str_eqb (call_field c') f) eqn:Ec.
      * intros [= <-]. apply str_eqb_eq in Ec.
        rewrite Ec, (validateField_own_timer this' w' f _ _ _ C' Hf).
        eexists; split; [reflexivity|]. split; [|reflexivity].
        unfold scheduled, task_of; simpl. now rewrite Ec.
      * intros Hlast. apply str_eqb_neq in Ec.
        rewrite (validateField_other_timers this' w' (call_field c') f _ _ _ C')
          by congruence.
        now apply Hp.
    + (* the next timer fires *)
      rewrite app_nil_r.
      destruct (fire_next h this' w') as [w''|] eqn:F; cbn [fst snd];
        [|split; [exact C'|split; [exact Hv|split; [exact Hl|exact Hp]]]].
      pose proof (fire_next_consistent h this' w' w'' C' F) as C''.
      apply fire_next_Some in F as (m & Hm & P & _ & L).
      simpl in Qa. rewrite Hm in Qa. destruct Qa as [Hquiet _].
      split; [exact C''|]. split; [exact Hv|]. split.
      * rewrite L, invocations_for_app, (run_task_other_field _ _ f m Hquiet).
        now rewrite app_nil_r.
      * intros c Hlast. destruct (Hp c Hlast) as (t & Ht & Htask).
        exists t. split; [|exact Htask].
        apply (filter_perm (is_for f)) in P. simpl in P.
        assert (Em : is_for f m = false) by now apply str_eqb_neq.
        rewrite Em in P. fold (pending_for f w'') in P.
        fold (pending_for f w') in P. rewrite Ht in P.
        now apply Permutation_sym, Permutation_length_1_inv in P.
    + (* time passes *)
      rewrite app_nil_r.
      split; [|split; [exact Hv|split; [exact Hl|exact Hp]]].
      destruct C' as [C1 C2 C3 C4 C5]. split; assumption.
Qed.

(** ** Due dates *)

Lemma setHours0_local_day (h : Host) :
  setHours0 h (host_now h) = local_day h * msPerDay - host_tza h.
Proof. reflexivity. Qed.

Lemma parse_iso_date_only_truthy (s : jsstring) (t : Z) :
  parse_iso_date_only s = Some t -> ToBoolean (JStr s) = true.
Proof.
  intros H. apply nonempty_truthy. intros ->. discriminate.
Qed.

Lemma dueDate_validate_iso (h : Host) (s : jsstring) (t : Z) :
  parse_iso_date_only s = Some t ->
  dueDate_validate h (JStr s) =
    Return (mkFieldResult (negb (t <? local_day h * msPerDay - host_tza h))
              (if t <? local_day h * msPerDay - host_tza h
               then [msg_date_past] else [])
              (Some (JStr (iso_date_part t)))).
Proof.
  intros H. unfold dueDate_validate.
  rewrite (parse_iso_date_only_truthy s t H). simpl negb. cbv iota.
  unfold new_Date, Date_parse. rewrite H. cbn [bind].
  rewrite setHours0_local_day.
  destruct (t <? local_day h * msPerDay - host_tza h); reflexivity.
Qed.

(** A date string naming the local calendar day of the clock is accepted
    exactly in the zones at or east of UTC. *)
Lemma dueDate_today_valid_iff (h : Host) (s : jsstring) :
  parse_iso_date_only s = Some (local_day h * msPerDay) ->
  exists r, dueDate_validate h (JStr s) = Return r
            /\ (isValid r = true <-> 0 <= host_tza h).
Proof.
  intros H. rewrite (dueDate_validate_iso h s _ H).
  eexists; split; [reflexivity|]. simpl.
  destruct (Z.ltb_spec (local_day h * msPerDay)
                       (local_day h * msPerDay - host_tza h)); simpl;
    split; intros; try discriminate; try reflexivity; lia.
Qed.

(** A date string naming an earlier day is rejected in every zone. *)
Lemma dueDate_earlier_day_invalid (h : Host) (s : jsstring) (day : Z) :
  parse_iso_date_only s = Some (day * msPerDay) ->
  day < local_day h -> host_tza h < msPerDay ->
  dueDate_validate h (JStr s) =
    Return (mkFieldResult false [msg_date_past]
                          (Some (JStr (iso_date_part (day * msPerDay))))).
Proof.
  intros H Hday Htz. rewrite (dueDate_validate_iso h s _ H).
  destruct (Z.ltb_spec (day * msPerDay) (local_day h * msPerDay - host_tza h));
    [reflexivity|].
  exfalso. unfold msPerDay in *. nia.
Qed.
Example utc_midnight_2024 : utc_midnight 2024 1 1 = 1704067200000.
Proof. reflexivity. Qed.

Example iso_date_part_2024 : iso_date_part 1704067200000 = lit "2024-01-01".
Proof. reflexivity. Qed.

Example iso_date_part_leap : iso_date_part (utc_midnight 2024 2 29 + 5) = lit "2024-02-29".
Proof. reflexivity. Qed.

Example iso_date_part_before_epoch : iso_date_part (-1) = lit "1969-12-31".
Proof. reflexivity. Qed.

Lemma dispatch_coherent h this f v r :
  dispatch h this f v = Return r -> coherent r.
Proof.
  unfold dispatch.
  destruct (str_eqb f f_title); [apply title_validate_coherent|].
  destruct (str_eqb f f_description); [apply description_validate_coherent|].
  destruct (str_eqb f f_priority); [apply priority_validate_coherent|].
  destruct (str_eqb f f_dueDate); [apply dueDate_validate_coherent|].
  intros [= <-]; reflexivity.
Qed.

(* ================================================================== *)
(** * The claims of the specification *)

(** ** C1: which inputs the validators accept without raising *)

(** C1, as stated, fails: the title validator calls [trim] on every
    truthy input, so a number raises [TypeError]; so does a task object
    carrying such a title, and so does [null] handed to [validateTask]
    or [validateTaskUpdate]. *)
Lemma C1_number_title_raises :
  title_validate (titleValidator new_TaskValidator) (JNum (Finite (5 # 1)))
    = Throw TypeError
  /\ description_validate (descriptionValidator new_TaskValidator) (JBool true)
    = Throw TypeError
  /\ priority_validate (example_host 0 0) (priorityValidator new_TaskValidator)
       (JObject []) = Throw TypeError
  /\ validateTask (example_host 0 0) new_TaskValidator
       (JObject [(f_title, JNum (Finite (5 # 1)))]) = Throw TypeError
  /\ validateTask (example_host 0 0) new_TaskValidator JNull = Throw TypeError
  /\ validateTaskUpdate (example_host 0 0) new_TaskValidator JUndefined
    = Throw TypeError.
Proof. repeat split; reflexivity. Qed.

(** C1 (amended), over primitive values, [String] objects and data
    objects (own data properties only, none holding a function, with
    prototype [Object.prototype] or without prototype).  The title,
    description and priority validators return a result exactly for the
    inputs that are strings (the primitive or a [String] object) or
    falsy, and raise [TypeError] for every other input; the due-date
    validator returns a result for every string and every falsy input.
    [validateTask] returns a result for every input other than [null]
    and [undefined] whose four fields are each absent, falsy or a
    string, and so does [validateTaskUpdate] when in addition
    [hasOwnProperty] of the input is the method of [Object.prototype];
    when it is not (an object without prototype, an own data property of
    that name, [null], [undefined]) [validateTaskUpdate] raises
    [TypeError], and both entry points raise [TypeError] for [null] and
    [undefined].  Every result that a field validator returns is valid
    exactly when its [errors] are empty. *)
Theorem C1_validators_return_on_strings_and_absent_values :
  forall (h : Host) (this : TaskValidator),
    (forall v, returns (title_validate (titleValidator this) v)
               <-> string_or_falsy v = true) /\
    (forall v, returns (description_validate (descriptionValidator this) v)
               <-> string_or_falsy v = true) /\
    (forall v, returns (priority_validate h (priorityValidator this) v)
               <-> string_or_falsy v = true) /\
    (forall v, string_or_falsy v = false ->
               title_validate (titleValidator this) v = Throw TypeError
               /\ description_validate (descriptionValidator this) v
                  = Throw TypeError
               /\ priority_validate h (priorityValidator this) v
                  = Throw TypeError) /\
    (forall v, string_or_falsy v = true -> returns (dueDate_validate h v)) /\
    (forall o, well_typed_task o = true -> returns (validateTask h this o)) /\
    (forall o, well_typed_task o = true ->
               hasOwnProperty_is_builtin o = true ->
               returns (validateTaskUpdate h this o)) /\
    (forall o, hasOwnProperty_is_builtin o = false ->
               validateTaskUpdate h this o = Throw TypeError) /\
    (forall o, is_nullish o = true ->
               validateTask h this o = Throw TypeError
               /\ validateTaskUpdate h this o = Throw TypeError) /\
    (forall f v r, dispatch h this f v = Return r ->
                   isValid r = no_errors (errors r)).
Proof.
  intros h this.
  split; [apply title_validate_returns|].
  split; [apply description_validate_returns|].
  split; [apply priority_validate_returns|].
  split; [apply validators_raise|].
  split; [apply dueDate_validate_returns_string_or_falsy|].
  split; [apply validateTask_returns|].
  split; [apply validateTaskUpdate_returns|].
  split; [apply validateTaskUpdate_raises|].
  split; [apply entry_points_raise_on_nullish|].
  apply dispatch_coherent.
Qed.

Lemma C1_validators_return_witness :
  returns (title_validate (titleValidator new_TaskValidator) (JStr (lit "  ")))
  /\ returns (title_validate (titleValidator new_TaskValidator)
                (JStringObject (lit " abc ")))
  /\ priority_validate sample_host (priorityValidator new_TaskValidator)
       (JObject [(lit "trim", JStr (lit "x"))]) = Throw TypeError
  /\ returns (validateTask sample_host new_TaskValidator sample_task)
  /\ returns (validateTaskUpdate sample_host new_TaskValidator sample_task)
  /\ validateTaskUpdate sample_host new_TaskValidator
       (JNullProtoObject [(f_title, JStr (lit "a"))]) = Throw TypeError
  /\ validateTask sample_host new_TaskValidator JUndefined = Throw TypeError
  /\ validateTaskUpdate sample_host new_TaskValidator JNull = Throw TypeError.
Proof.
  destruct (C1_validators_return_on_strings_and_absent_values sample_host
              new_TaskValidator)
    as (Ht & _ & _ & Hraise & _ & Hfull & Hupdate & Hbare & Hnull & _).
  split; [apply Ht; reflexivity|].
  split; [apply Ht; reflexivity|].
  split; [apply Hraise; reflexivity|].
  split; [apply Hfull; reflexivity|].
  split; [apply Hupdate; reflexivity|].
  split; [apply Hbare; reflexivity|].
  split; [apply Hnull; reflexivity|apply Hnull; reflexivity].
Defined.

(** ** C2: a title of whitespace only *)

(** C2, as stated, fails: for three spaces the default title validator
    reports two errors, the minimum-length check firing on the trimmed,
    empty string as well. *)
Lemma C2_three_spaces_two_errors :
  title_validate (new_TitleValidationStrategy 1 100) (JStr (lit "   "))
  = Return (mkFieldResult false
              [lit "Title cannot be empty or only whitespace";
               lit "Title must be at least 1 character(s)"]
              (Some (JStr []))).
Proof. reflexivity. Qed.

(** C2 (amended): for every non-empty title made of whitespace only, a
    title validator with a positive [minLength] and a non-negative
    [maxLength] (the defaults are 1 and 100) returns exactly two errors,
    "Title cannot be empty or only whitespace" followed by "Title must be
    at least {minLength} character(s)"; the max-length and HTML checks do
    not fire. *)
Theorem C2_whitespace_title_errors :
  forall (this : TitleValidationStrategy) (s : jsstring),
    s <> [] -> forallb is_js_space s = true ->
    0 < title_minLength this -> 0 <= title_maxLength this ->
    title_validate this (JStr s)
    = Return (mkFieldResult false [msg_title_blank; msg_title_min this]
                            (Some (JStr []))).
Proof.
  intros this s Hne Hws Hmin Hmax. unfold title_validate.
  rewrite (nonempty_truthy s Hne). simpl negb. cbv iota.
  unfold call_trim. rewrite (trim_blank s Hws). cbn [bind].
  change (str_length []) with 0.
  destruct (Z.ltb_spec 0 (title_minLength this)); [|lia].
  destruct (Z.ltb_spec (title_maxLength this) 0); [lia|].
  reflexivity.
Qed.

Lemma C2_whitespace_title_errors_witness :
  title_validate (new_TitleValidationStrategy 1 100)
                 (JStr [32%N; 9%N; 160%N; 12288%N])
  = Return (mkFieldResult false
              [msg_title_blank;
               msg_title_min (new_TitleValidationStrategy 1 100)]
              (Some (JStr []))).
Proof.
  apply (C2_whitespace_title_errors (new_TitleValidationStrategy 1 100)
           [32%N; 9%N; 160%N; 12288%N]).
  - discriminate.
  - reflexivity.
  - reflexivity.
  - discriminate.
Defined.

(** ** C3: escaping twice *)

(** C3, as stated, fails: ["a&b"] is a valid title without HTML tags, and
    escaping it a second time escapes the ampersand of the first escape. *)
Lemma C3_ampersand_escaped_twice :
  title_validate (new_TitleValidationStrategy 1 100) (JStr (lit "a&b"))
    = Return (mkFieldResult true [] (Some (JStr (lit "a&amp;b"))))
  /\ containsHtml (lit "a&b") = false
  /\ sanitize (lit "a&b") = lit "a&amp;b"
  /\ sanitize (sanitize (lit "a&b")) = lit "a&amp;amp;b".
Proof. repeat split; reflexivity. Qed.

(** C3 (amended): escaping a string twice yields the same as escaping it
    once exactly when the string contains none of the five escaped
    characters (ampersand, less-than, greater-than, double quote and
    apostrophe); then escaping leaves it as it is. *)
Theorem C3_sanitize_twice :
  forall s : jsstring,
    sanitize (sanitize s) = sanitize s <-> existsb is_escaped_char s = false.
Proof.
  intros s. split.
  - intros H. destruct (existsb is_escaped_char s) eqn:E; [|reflexivity].
    pose proof (sanitize_grows _ (sanitize_has_amp s E)) as Hlt.
    rewrite H in Hlt. lia.
  - intros H. now rewrite !(sanitize_plain s H).
Qed.

(** ** C10: falsy inputs take the absent branch *)

(** C10: every falsy input is answered by the absent branch of each
    validator: "Title is required" without sanitized value, and the
    defaults [""], ["medium"] and [null] of the three optional fields. *)
Theorem C10_falsy_input_takes_absent_branch :
  forall (h : Host) (tv : TitleValidationStrategy)
         (dv : DescriptionValidationStrategy) (pv : PriorityValidationStrategy)
         (v : JsVal),
    ToBoolean v = false ->
    title_validate tv v
      = Return (mkFieldResult false [lit "Title is required"] None) /\
    description_validate dv v
      = Return (mkFieldResult true [] (Some (JStr (lit "")))) /\
    priority_validate h pv v
      = Return (mkFieldResult true [] (Some (JStr (lit "medium")))) /\
    dueDate_validate h v = Return (mkFieldResult true [] (Some JNull)).
Proof.
  intros h tv dv pv v H. repeat split.
  - now apply falsy_title.
  - now apply falsy_description.
  - now apply falsy_priority.
  - now apply falsy_dueDate.
Qed.

Lemma C10_falsy_input_witness :
  Forall (fun v =>
    ToBoolean v = false /\
    title_validate (new_TitleValidationStrategy 1 100) v
      = Return (mkFieldResult false [lit "Title is required"] None) /\
    description_validate (new_DescriptionValidationStrategy 500) v
      = Return (mkFieldResult true [] (Some (JStr (lit "")))) /\
    priority_validate (example_host 0 0) new_PriorityValidationStrategy v
      = Return (mkFieldResult true [] (Some (JStr (lit "medium")))) /\
    dueDate_validate (example_host 0 0) v
      = Return (mkFieldResult true [] (Some JNull)))
    listed_falsy.
Proof.
  unfold listed_falsy.
  repeat (apply Forall_cons;
          [split;
           [reflexivity
           |apply (C10_falsy_input_takes_absent_branch (example_host 0 0)
                     (new_TitleValidationStrategy 1 100)
                     (new_DescriptionValidationStrategy 500)
                     new_PriorityValidationStrategy); reflexivity]
          |]).
  apply Forall_nil.
Defined.

(** ** C4: the due-date boundary *)

(** C4: where local time is behind UTC the code rejects the date string
    of the current local day.  The clock of [west_host] shows noon of
    2024-01-01 local time; the string is parsed as midnight UTC, which is
    19:00 of the day before in that zone, and is compared with local
    midnight.  The day before is rejected as the claim says. *)
Theorem C4_today_rejected_west_of_UTC :
  iso_date_part (host_now west_host + host_tza west_host) = lit "2024-01-01"
  /\ dueDate_validate west_host (JStr (lit "2024-01-01"))
     = Return (mkFieldResult false
                 [lit "Due date must be today or in the future"]
                 (Some (JStr (lit "2024-01-01"))))
  /\ dueDate_validate west_host (JStr (lit "2023-12-31"))
     = Return (mkFieldResult false
                 [lit "Due date must be today or in the future"]
                 (Some (JStr (lit "2023-12-31"))))
  /\ dueDate_validate (example_host (utc_midnight 2024 1 1 + 17 * 3600000) 0)
                      (JStr (lit "2024-01-01"))
     = Return (mkFieldResult true [] (Some (JStr (lit "2024-01-01")))).
Proof. repeat split; vm_compute; reflexivity. Qed.

(** ** C5: the keys of the sanitized data *)

Lemma aggregate_key_iff (results : jsobj FieldResult) (f : jsstring) :
  NoDup (Object_keys results) ->
  (In f (Object_keys (sanitizedData (aggregate_of results))) <->
   exists fr, js_get (fieldResults (aggregate_of results)) f = Some fr
              /\ isValid fr = true).
Proof. apply sanitized_of_key_iff. Qed.

(** C5: in every result of [validateTask] and of [validateTaskUpdate] the
    keys of [sanitizedData] are exactly the field names whose entry of
    [fieldResults] is valid. *)
Theorem C5_sanitizedData_keys_are_the_valid_fields :
  forall (h : Host) (this : TaskValidator) (o : JsVal) (r : AggregateResult),
    validateTask h this o = Return r \/ validateTaskUpdate h this o = Return r ->
    forall f : jsstring,
      In f (Object_keys (sanitizedData r)) <->
      exists fr, js_get (fieldResults r) f = Some fr /\ isValid fr = true.
Proof.
  intros h this o r [H|H] f.
  - apply validateTask_Return in H as (r1 & r2 & r3 & r4 & _ & _ & _ & _ & ->).
    apply aggregate_key_iff, results_of_NoDup.
  - apply validateTaskUpdate_Return in H
      as (o1 & o2 & o3 & o4 & _ & _ & _ & _ & ->).
    apply aggregate_key_iff, results_of_NoDup.
Qed.

Lemma C5_sanitizedData_keys_witness :
  exists r,
    validateTask sample_host new_TaskValidator sample_task = Return r
    /\ Object_keys (sanitizedData r) = [f_description]
    /\ forall f : jsstring,
         In f (Object_keys (sanitizedData r)) <->
         exists fr, js_get (fieldResults r) f = Some fr /\ isValid fr = true.
Proof.
  eexists. split; [reflexivity|]. split; [reflexivity|].
  apply (C5_sanitizedData_keys_are_the_valid_fields sample_host new_TaskValidator
           sample_task).
  left; reflexivity.
Defined.

Lemma js_get_perm {A} (a b : jsobj A) (k : jsstring) :
  NoDup (Object_keys a) -> Permutation a b -> js_get a k = js_get b k.
Proof.
  intros Hnd P. induction P as [|[x v] l l' P IH|[x v] [y u] l|l l' l'' P1 IH1 P2 IH2].
  - reflexivity.
  - simpl. inversion Hnd; subst. now rewrite IH.
  - simpl. inversion Hnd as [|? ? Hy _]; subst.
    destruct (str_eqb y k) eqn:Ey, (str_eqb x k) eqn:Ex; try reflexivity.
    apply str_eqb_eq in Ey, Ex; subst. exfalso; apply Hy; now left.
  - rewrite IH1 by exact Hnd. apply IH2.
    unfold Object_keys in *.
    apply (Permutation_NoDup (Permutation_map fst P1) Hnd).
Qed.

(** The entry points read their input by key only. *)
Lemma entry_points_ignore_key_order h this (a b : list (jsstring * JsVal)) :
  NoDup (Object_keys a) -> Permutation a b ->
  validateTask h this (JObject a) = validateTask h this (JObject b)
  /\ validateTaskUpdate h this (JObject a) = validateTaskUpdate h this (JObject b).
Proof.
  intros Hnd P.
  assert (G : forall k, js_get a k = js_get b k)
    by (intros k; now apply js_get_perm).
  unfold validateTask, validateTaskUpdate, update_field, call_hasOwnProperty,
    get_prop, has_own.
  rewrite !G. split; reflexivity.
Qed.

(** ** C7: the order of the aggregated errors *)

Lemma errors_of_reported o1 o2 o3 o4 :
  errors_of (results_of o1 o2 o3 o4)
  = reported_opt f_title o1 ++ reported_opt f_description o2
      ++ reported_opt f_priority o3 ++ reported_opt f_dueDate o4.
Proof.
  unfold results_of. rewrite !errors_of_app.
  assert (E : forall f oi, errors_of (entry f oi) = reported_opt f oi).
  { intros f [r|]; [|reflexivity]. unfold errors_of, reported_opt, reported.
    simpl. apply app_nil_r. }
  now rewrite !E.
Qed.

(** C7: the errors of every result of [validateTask] are the errors that
    the title, description, priority and due-date validators report for
    the four fields of the input, those of the failing fields, each
    prefixed with the name of its field, in this order of the fields and
    in each field's own order; the errors of every result of
    [validateTaskUpdate] are the same but for the fields that are no own
    key of the input, which add nothing.  In both, the errors are those
    of the [fieldResults] of the same result, taken in the order title,
    description, priority, dueDate; and writing the keys of the input
    object in another order changes nothing of the outcome. *)
Theorem C7_errors_in_field_order :
  forall (h : Host) (this : TaskValidator),
    (forall (o : JsVal) (r : AggregateResult),
        validateTask h this o = Return r ->
        exists r1 r2 r3 r4,
          title_validate (titleValidator this) (prop_of o f_title) = Return r1
          /\ description_validate (descriptionValidator this)
               (prop_of o f_description) = Return r2
          /\ priority_validate h (priorityValidator this) (prop_of o f_priority)
             = Return r3
          /\ dueDate_validate h (prop_of o f_dueDate) = Return r4
          /\ fieldResults r = [(f_title, r1); (f_description, r2);
                               (f_priority, r3); (f_dueDate, r4)]
          /\ agg_errors r
             = reported f_title r1 ++ reported f_description r2
                 ++ reported f_priority r3 ++ reported f_dueDate r4)
    /\ (forall (o : JsVal) (r : AggregateResult),
          validateTaskUpdate h this o = Return r ->
          exists o1 o2 o3 o4,
            field_outcome o f_title (title_validate (titleValidator this)) o1
            /\ field_outcome o f_description
                 (description_validate (descriptionValidator this)) o2
            /\ field_outcome o f_priority
                 (priority_validate h (priorityValidator this)) o3
            /\ field_outcome o f_dueDate (dueDate_validate h) o4
            /\ fieldResults r = results_of o1 o2 o3 o4
            /\ agg_errors r
               = reported_opt f_title o1 ++ reported_opt f_description o2
                   ++ reported_opt f_priority o3 ++ reported_opt f_dueDate o4)
    /\ (forall (o : JsVal) (r : AggregateResult),
        validateTask h this o = Return r \/ validateTaskUpdate h this o = Return r ->
        agg_errors r = flat_map (field_errors (fieldResults r)) field_order)
    /\ (forall a b : list (jsstring * JsVal),
          NoDup (Object_keys a) -> Permutation a b ->
          validateTask h this (JObject a) = validateTask h this (JObject b)
          /\ validateTaskUpdate h this (JObject a)
             = validateTaskUpdate h this (JObject b)).
Proof.
  intros h this. split; [|split; [|split]].
  - intros o r H.
    apply validateTask_Return in H as (r1 & r2 & r3 & r4 & R1 & R2 & R3 & R4 & ->).
    exists r1, r2, r3, r4. repeat (split; [assumption|]).
    split; [reflexivity|].
    apply (errors_of_reported (Some r1) (Some r2) (Some r3) (Some r4)).
  - intros o r H.
    apply validateTaskUpdate_Return in H
      as (o1 & o2 & o3 & o4 & F1 & F2 & F3 & F4 & ->).
    exists o1, o2, o3, o4. repeat (split; [assumption|]).
    split; [reflexivity|]. apply errors_of_reported.
  - intros o r [H|H].
    + apply validateTask_Return in H as (r1 & r2 & r3 & r4 & _ & _ & _ & _ & ->).
      apply errors_of_field_order.
    + apply validateTaskUpdate_Return in H
        as (o1 & o2 & o3 & o4 & _ & _ & _ & _ & ->).
      apply errors_of_field_order.
  - apply entry_points_ignore_key_order.
Qed.

Lemma C7_errors_in_field_order_witness :
  (exists r,
     validateTask sample_host new_TaskValidator
       (JObject [(f_priority, JStr (lit "urgent")); (f_title, JStr (lit ""))])
     = Return r
     /\ agg_errors r
        = [lit "title: Title is required";
           lit "priority: Priority must be one of: high, medium, low"]
     /\ exists r1 r2 r3 r4,
          title_validate (titleValidator new_TaskValidator) (JStr (lit ""))
          = Return r1
          /\ description_validate (descriptionValidator new_TaskValidator)
               JUndefined = Return r2
          /\ priority_validate sample_host (priorityValidator new_TaskValidator)
               (JStr (lit "urgent")) = Return r3
          /\ dueDate_validate sample_host JUndefined = Return r4
          /\ fieldResults r = [(f_title, r1); (f_description, r2);
                               (f_priority, r3); (f_dueDate, r4)]
          /\ agg_errors r
             = reported f_title r1 ++ reported f_description r2
                 ++ reported f_priority r3 ++ reported f_dueDate r4)
  /\ (exists r,
        validateTaskUpdate sample_host new_TaskValidator sample_task_reordered
        = Return r
        /\ agg_errors r
           = [lit "title: Title is required";
              lit "priority: Priority must be one of: high, medium, low";
              lit "dueDate: Due date must be today or in the future"]
        /\ agg_errors r = flat_map (field_errors (fieldResults r)) field_order).
Proof.
  destruct (C7_errors_in_field_order sample_host new_TaskValidator)
    as (Hfull & _ & Horder & _).
  split.
  - eexists. split; [reflexivity|]. split; [reflexivity|].
    apply (Hfull (JObject [(f_priority, JStr (lit "urgent"));
                           (f_title, JStr (lit ""))])).
    reflexivity.
  - eexists. split; [reflexivity|]. split; [reflexivity|].
    apply (Horder sample_task_reordered). right; reflexivity.
Defined.

(** ** C6: a partial update validates the supplied keys only *)

Lemma results_of_entry h this o o1 o2 o3 o4 f fr :
  field_outcome o f_title (title_validate (titleValidator this)) o1 ->
  field_outcome o f_description
    (description_validate (descriptionValidator this)) o2 ->
  field_outcome o f_priority (priority_validate h (priorityValidator this)) o3 ->
  field_outcome o f_dueDate (dueDate_validate h) o4 ->
  js_get (results_of o1 o2 o3 o4) f = Some fr ->
  own_key o f = true /\ dispatch h this f (prop_of o f) = Return fr.
Proof.
  intros F1 F2 F3 F4 Hget. apply js_get_In in Hget.
  unfold results_of in Hget.
  repeat (apply in_app_or in Hget as [Hget|Hget]).
  - destruct o1 as [r1|]; [|contradiction]. destruct Hget as [[= <- <-]|[]].
    destruct F1 as [F1 F1']. split; [exact F1|exact F1'].
  - destruct o2 as [r2|]; [|contradiction]. destruct Hget as [[= <- <-]|[]].
    destruct F2 as [F2 F2']. split; [exact F2|exact F2'].
  - destruct o3 as [r3|]; [|contradiction]. destruct Hget as [[= <- <-]|[]].
    destruct F3 as [F3 F3']. split; [exact F3|exact F3'].
  - destruct o4 as [r4|]; [|contradiction]. destruct Hget as [[= <- <-]|[]].
    destruct F4 as [F4 F4']. split; [exact F4|exact F4'].
Qed.

(** C6: in every result of [validateTaskUpdate] the keys of
    [fieldResults] are the task field names that are own keys of the
    update object, whatever their values; each entry is the result of
    that field's validator ([dispatch] selects it by name) on the
    supplied value, and [sanitizedData] has supplied keys only.  An empty title is validated (and rejected), a
    single title yields the single key [title], and the empty object
    yields a valid result without errors and without field results. *)
Theorem C6_update_validates_supplied_keys :
  forall (h : Host) (this : TaskValidator),
    (forall (o : JsVal) (r : AggregateResult),
        validateTaskUpdate h this o = Return r ->
        Object_keys (fieldResults r) = filter (own_key o) field_order
        /\ (forall f fr, js_get (fieldResults r) f = Some fr ->
                         dispatch h this f (prop_of o f) = Return fr)
        /\ (forall f, In f (Object_keys (sanitizedData r)) ->
                      own_key o f = true))
    /\ validateTaskUpdate h this (JObject [(f_title, JStr (lit ""))])
       = Return (mkAggregate false [lit "title: Title is required"]
                   [(f_title, mkFieldResult false [lit "Title is required"] None)]
                   [])
    /\ validateTaskUpdate h new_TaskValidator
         (JObject [(f_title, JStr (lit "New Title"))])
       = Return (mkAggregate true []
                   [(f_title, mkFieldResult true []
                                (Some (JStr (lit "New Title"))))]
                   [(f_title, JStr (lit "New Title"))])
    /\ validateTaskUpdate h this (JObject [])
       = Return (mkAggregate true [] [] []).
Proof.
  intros h this. split; [|repeat split; reflexivity].
  intros o r H.
  apply validateTaskUpdate_Return in H
    as (o1 & o2 & o3 & o4 & F1 & F2 & F3 & F4 & ->).
  split; [|split].
  - apply (field_outcome_keys o _ _ _ _ o1 o2 o3 o4 F1 F2 F3 F4).
  - intros f fr Hget.
    apply (results_of_entry h this o o1 o2 o3 o4 f fr F1 F2 F3 F4 Hget).
  - intros f Hin.
    apply (aggregate_key_iff _ f (results_of_NoDup o1 o2 o3 o4)) in Hin
      as (fr & Hget & _).
    apply (results_of_entry h this o o1 o2 o3 o4 f fr F1 F2 F3 F4 Hget).
Qed.

(** ** C9: full validation and update validation of a complete object *)

(** C9, as stated, fails: [validateTaskUpdate] calls [hasOwnProperty] on
    the object itself.  An object with the four keys and an own property
    named [hasOwnProperty] is validated by [validateTask], while
    [validateTaskUpdate] raises [TypeError] on calling that property;
    and so it is for an object with the four keys that has no prototype
    to inherit the method from. *)
Lemma C9_shadowed_hasOwnProperty :
  validateTaskUpdate sample_host new_TaskValidator
    (JObject [(f_title, JStr (lit "a")); (f_description, JStr (lit "b"));
              (f_priority, JStr (lit "low")); (f_dueDate, JStr (lit ""));
              (lit "hasOwnProperty", JBool true)])
  = Throw TypeError
  /\ validateTask sample_host new_TaskValidator
       (JObject [(f_title, JStr (lit "a")); (f_description, JStr (lit "b"));
                 (f_priority, JStr (lit "low")); (f_dueDate, JStr (lit ""));
                 (lit "hasOwnProperty", JBool true)])
     = Return (mkAggregate true []
                 [(f_title, mkFieldResult true [] (Some (JStr (lit "a"))));
                  (f_description, mkFieldResult true [] (Some (JStr (lit "b"))));
                  (f_priority, mkFieldResult true [] (Some (JStr (lit "low"))));
                  (f_dueDate, mkFieldResult true [] (Some JNull))]
                 [(f_title, JStr (lit "a")); (f_description, JStr (lit "b"));
                  (f_priority, JStr (lit "low")); (f_dueDate, JNull)])
  /\ validateTaskUpdate sample_host new_TaskValidator
       (JNullProtoObject
          [(f_title, JStr (lit "a")); (f_description, JStr (lit "b"));
           (f_priority, JStr (lit "low")); (f_dueDate, JStr (lit ""))])
     = Throw TypeError
  /\ validateTask sample_host new_TaskValidator
       (JNullProtoObject
          [(f_title, JStr (lit "a")); (f_description, JStr (lit "b"));
           (f_priority, JStr (lit "low")); (f_dueDate, JStr (lit ""))])
     = Return (mkAggregate true []
                 [(f_title, mkFieldResult true [] (Some (JStr (lit "a"))));
                  (f_description, mkFieldResult true [] (Some (JStr (lit "b"))));
                  (f_priority, mkFieldResult true [] (Some (JStr (lit "low"))));
                  (f_dueDate, mkFieldResult true [] (Some JNull))]
                 [(f_title, JStr (lit "a")); (f_description, JStr (lit "b"));
                  (f_priority, JStr (lit "low")); (f_dueDate, JNull)]).
Proof. repeat split; reflexivity. Qed.

(** C9 (amended): for every object that has the four own keys title,
    description, priority and dueDate and whose [hasOwnProperty] is the
    method of [Object.prototype] (the object inherits from that
    prototype and has no own property of that name),
    [validateTaskUpdate] and [validateTask] have the same outcome: the
    same aggregate result, or the same exception. *)
Theorem C9_update_agrees_with_full_validation :
  forall (h : Host) (this : TaskValidator) (o : JsVal),
    own_key o f_title = true ->
    own_key o f_description = true ->
    own_key o f_priority = true ->
    own_key o f_dueDate = true ->
    hasOwnProperty_is_builtin o = true ->
    validateTaskUpdate h this o = validateTask h this o.
Proof.
  intros h this o H1 H2 H3 H4 Hs.
  unfold validateTaskUpdate, validateTask, update_field.
  rewrite !(call_hasOwnProperty_total o _ Hs), H1, H2, H3, H4.
  rewrite !(get_prop_total o _ (builtin_not_nullish o Hs)). cbn [bind].
  destruct (title_validate _ _) as [r1|e]; cbn [bind]; [|reflexivity].
  destruct (description_validate _ _) as [r2|e]; cbn [bind]; [|reflexivity].
  destruct (priority_validate _ _ _) as [r3|e]; cbn [bind]; [|reflexivity].
  destruct (dueDate_validate _ _) as [r4|e]; cbn [bind]; [|reflexivity].
  change (js_set (js_set (js_set (js_set [] f_title r1) f_description r2)
                         f_priority r3) f_dueDate r4)
    with [(f_title, r1); (f_description, r2); (f_priority, r3); (f_dueDate, r4)].
  rewrite collect_update_fold_split. reflexivity.
Qed.

Lemma C9_update_agrees_witness :
  validateTaskUpdate sample_host new_TaskValidator sample_task
  = validateTask sample_host new_TaskValidator sample_task
  /\ validateTask sample_host new_TaskValidator sample_task
     = Return (mkAggregate false
                 [lit "title: Title is required";
                  lit "priority: Priority must be one of: high, medium, low";
                  lit "dueDate: Due date must be today or in the future"]
                 [(f_title, mkFieldResult false [lit "Title is required"] None);
                  (f_description,
                   mkFieldResult true [] (Some (JStr (lit "ok"))));
                  (f_priority,
                   mkFieldResult false
                     [lit "Priority must be one of: high, medium, low"]
                     (Some (JStr (lit "urgent"))));
                  (f_dueDate,
                   mkFieldResult false
                     [lit "Due date must be today or in the future"]
                     (Some (JStr (lit "2023-01-01"))))]
                 [(f_description, JStr (lit "ok"))]).
Proof.
  split; [|reflexivity].
  apply (C9_update_agrees_with_full_validation sample_host new_TaskValidator);
    reflexivity.
Defined.

(** ** C8: debouncing *)

(** C8, as stated, fails: when the most recent title is a number the
    timer task raises [TypeError] inside the validator and the callback
    is not invoked at all. *)
Lemma C8_callback_not_invoked :
  log_after sample_host
    [call f_title (JStr (lit "a")) 7 300;
     call f_title (JNum (Finite (5 # 1))) 7 300]
  = [Uncaught TypeError]
  /\ invocations_for f_title
       (log_after sample_host
          [call f_title (JStr (lit "a")) 7 300;
           call f_title (JNum (Finite (5 # 1))) 7 300])
     = [].
Proof. split; reflexivity. Qed.

(** The burst of the specification: one invocation, for the later value. *)
Example debounce_a_then_ab :
  log_after sample_host
    [call f_title (JStr (lit "a")) 7 300; DoWait 100;
     call f_title (JStr (lit "ab")) 7 300]
  = [Invoked 7 f_title (mkFieldResult true [] (Some (JStr (lit "ab"))))].
Proof. reflexivity. Qed.

(** Once the timer has fired the window is over: a later call is
    answered by an invocation of its own. *)
Example debounce_two_windows :
  log_after sample_host
    [call f_title (JStr (lit "a")) 7 300; DoFire;
     call f_title (JStr (lit "ab")) 7 300]
  = [Invoked 7 f_title (mkFieldResult true [] (Some (JStr (lit "a"))));
     Invoked 7 f_title (mkFieldResult true [] (Some (JStr (lit "ab"))))].
Proof. reflexivity. Qed.

(** Under the name [__proto__] no handle is recorded, so nothing is
    cancelled and both timers fire. *)
Example debounce_proto_fires_twice :
  log_after sample_host
    [call k_proto (JStr (lit "a")) 7 300; call k_proto (JStr (lit "ab")) 7 300]
  = [Invoked 7 k_proto (mkFieldResult true [] None);
     Invoked 7 k_proto (mkFieldResult true [] None)].
Proof. reflexivity. Qed.

(** C8 (amended): take a validator and an event loop in a consistent
    state (as they are after construction and after any calls, timer
    firings and [clearTimers]), a field name [f] other than [__proto__],
    and a sequence of actions (calls of [validateField] for any fields,
    timers of other fields firing, time passing) in which no timer of [f]
    fires and whose last call for [f] is [c].  Once the remaining timers
    have fired, none is left pending and the log has gained, for [f],
    exactly one callback invocation, that of [c]'s callback with the
    validation result of [c]'s value, when the validator of [f] returns a
    result for that value, and none when it raises.  A call for another
    field leaves the pending timers of [f] untouched. *)
Theorem C8_debounce_last_value_wins :
  forall (h : Host) (this : RealTimeValidator) (w : EventLoop)
         (actions : list Action) (f : jsstring) (c : Call),
    consistent this w ->
    f <> k_proto ->
    quiet_for f h (this, w) actions ->
    last_call_for f (calls_of actions) = Some c ->
    invocations_for f
      (log (run_until_idle h (fst (do_actions h actions (this, w)))
                             (snd (do_actions h actions (this, w)))))
    = invocations_for f (log w) ++
      match dispatch h (validator this) f (call_value c) with
      | Return result => [Invoked (call_callback c) f result]
      | Throw _ => []
      end
    /\ pending (run_until_idle h (fst (do_actions h actions (this, w)))
                               (snd (do_actions h actions (this, w)))) = []
    /\ forall g v cb delay,
         g <> f ->
         pending_for f (snd (validateField this w g v cb delay)) = pending_for f w.
Proof.
  intros h this w actions f c C Hf Q Hlast.
  destruct (window_invariant h f actions this w C Hf Q) as (_ & Hv & Hl & Hp).
  destruct (Hp c Hlast) as (t & Ht & Htask & Hfield). clear Hp.
  destruct (do_actions h actions (this, w)) as [this' w'] eqn:E.
  cbn [fst snd] in *.
  destruct (run_timers_log h this' (List.length (pending w')) w' (Nat.le_refl _))
    as (fired & P & L & Hidle).
  fold (run_until_idle h this' w') in L, Hidle.
  split; [|split; [exact Hidle|]].
  - rewrite L, Hv, invocations_for_app, Hl. f_equal.
    rewrite invocations_of_tasks.
    apply (filter_perm (is_for f)) in P.
    fold (pending_for f w') in P. rewrite Ht in P.
    apply Permutation_sym, Permutation_length_1_inv in P. rewrite P.
    simpl. unfold run_task. rewrite Htask. unfold task_of; simpl.
    rewrite Hfield.
    destruct (dispatch h (validator this) f (call_value c)); simpl;
      [now rewrite str_eqb_refl|reflexivity].
  - intros g v cb delay Hg.
    apply validateField_other_timers; [exact C|congruence].
Qed.

Lemma C8_debounce_witness :
  log_after sample_host sample_actions
  = [Invoked 8 f_priority (mkFieldResult true [] (Some (JStr (lit "low"))));
     Invoked 7 f_title (mkFieldResult true [] (Some (JStr (lit "abc"))))]
  /\ invocations_for f_title (log_after sample_host sample_actions)
     = [Invoked 7 f_title (mkFieldResult true [] (Some (JStr (lit "abc"))))].
Proof.
  split; [reflexivity|].
  refine (proj1 (C8_debounce_last_value_wins sample_host
                   (new_RealTimeValidator new_TaskValidator) new_EventLoop
                   sample_actions f_title
                   {| call_field := f_title; call_value := JStr (lit "abc");
                      call_callback := 7; call_delay := 300 |}
                   (consistent_new new_TaskValidator) _ _ eq_refl)).
  - discriminate.
  - repeat split; discriminate.
Defined.

(* ================================================================== *)
(** * Further properties of the code *)

(** ** [sanitize] *)

Lemma replace_all_app (c : jschar) (rep a b : jsstring) :
  replace_all c rep (a ++ b) = replace_all c rep a ++ replace_all c rep b.
Proof.
  induction a as [|x a IH]; simpl; [reflexivity|].
  now rewrite IH, app_assoc.
Qed.

Lemma sanitize_app (a b : jsstring) :
  sanitize (a ++ b) = sanitize a ++ sanitize b.
Proof. unfold sanitize. now rewrite !replace_all_app. Qed.

Lemma sanitize_single (c : jschar) : sanitize [c] = escape_char c.
Proof.
  unfold sanitize, escape_char. cbn [replace_all]. rewrite app_nil_r.
  destruct (N.eqb_spec c ch_amp) as [->|Ha]; [reflexivity|].
  cbn [replace_all]. rewrite app_nil_r.
  destruct (N.eqb_spec c ch_lt) as [->|Hl]; [reflexivity|].
  cbn [replace_all]. rewrite app_nil_r.
  destruct (N.eqb_spec c ch_gt) as [->|Hg]; [reflexivity|].
  cbn [replace_all]. rewrite app_nil_r.
  destruct (N.eqb_spec c ch_quot) as [->|Hq]; [reflexivity|].
  cbn [replace_all]. rewrite app_nil_r.
  destruct (N.eqb_spec c ch_apos) as [->|Hp]; reflexivity.
Qed.

Lemma sanitize_flat_map (s : jsstring) :
  sanitize s = flat_map escape_char s.
Proof.
  induction s as [|c s IH]; [reflexivity|].
  change (c :: s) with ([c] ++ s).
  rewrite sanitize_app, sanitize_single, IH. reflexivity.
Qed.

(** The five replacement passes, run one after the other over the whole
    string, amount to escaping every character on its own: no pass
    touches what an earlier pass has written. *)
Theorem sanitize_escapes_each_character (s : jsstring) :
  sanitize s = flat_map escape_char s.
Proof. apply sanitize_flat_map. Qed.

Lemma escape_char_cases (c : jschar) :
  (c = ch_amp /\ escape_char c = lit "&amp;") \/
  (c = ch_lt /\ escape_char c = lit "&lt;") \/
  (c = ch_gt /\ escape_char c = lit "&gt;") \/
  (c = ch_quot /\ escape_char c = lit "&quot;") \/
  (c = ch_apos /\ escape_char c = lit "&#x27;") \/
  (is_escaped_char c = false /\ escape_char c = [c]).
Proof.
  unfold escape_char, is_escaped_char.
  destruct (N.eqb_spec c ch_amp) as [->|Ha]; [now left|].
  destruct (N.eqb_spec c ch_lt) as [->|Hl]; [now right; left|].
  destruct (N.eqb_spec c ch_gt) as [->|Hg]; [now right; right; left|].
  destruct (N.eqb_spec c ch_quot) as [->|Hq]; [now right; right; right; left|].
  destruct (N.eqb_spec c ch_apos) as [->|Hp];
    [now right; right; right; right; left|].
  now right; right; right; right; right.
Qed.

(** The output of [sanitize] holds none of the characters [<], [>],
    double quote and apostrophe, so it never holds an HTML tag. *)
Theorem sanitize_output_is_markup_free (s : jsstring) :
  (forall c, In c (sanitize s) ->
             c <> ch_lt /\ c <> ch_gt /\ c <> ch_quot /\ c <> ch_apos)
  /\ containsHtml (sanitize s) = false.
Proof.
  assert (H : forall c, In c (sanitize s) ->
              c <> ch_lt /\ c <> ch_gt /\ c <> ch_quot /\ c <> ch_apos).
  { rewrite sanitize_flat_map.
    intros c Hin. apply in_flat_map in Hin as (x & _ & Hin).
    destruct (escape_char_cases x)
      as [[-> E]|[[-> E]|[[-> E]|[[-> E]|[[-> E]|[Hx E]]]]]];
      rewrite E in Hin.
    1-5: simpl in Hin;
      repeat (destruct Hin as [<-|Hin]; [repeat split; discriminate|]);
      contradiction.
    destruct Hin as [<-|[]].
    unfold is_escaped_char in Hx.
    repeat (apply orb_false_iff in Hx as [Hx ?]).
    repeat split; intros ->; discriminate. }
  split; [exact H|].
  induction (sanitize s) as [|c t IH]; [reflexivity|].
  simpl. destruct (N.eqb_spec c ch_lt) as [->|Hne].
  - exfalso. destruct (H ch_lt (or_introl eq_refl)) as [Hlt _]. now apply Hlt.
  - simpl. apply IH. intros d Hd. apply H. now right.
Qed.

Lemma escape_char_length (c : jschar) :
  (1 <= List.length (escape_char c) <= 6)%nat.
Proof.
  destruct (escape_char_cases c)
    as [[_ E]|[[_ E]|[[_ E]|[[_ E]|[[_ E]|[_ E]]]]]]; rewrite E; simpl; lia.
Qed.

Lemma sanitize_nonempty (s : jsstring) : s <> [] -> sanitize s <> [].
Proof.
  rewrite sanitize_flat_map. destruct s as [|c s]; [congruence|].
  intros _ E. cbn [flat_map] in E. apply app_eq_nil in E as [E _].
  pose proof (escape_char_length c) as H. rewrite E in H. simpl in H. lia.
Qed.

(** Escaping never shortens a string and lengthens it at most sixfold. *)
Theorem sanitize_length_bounds (s : jsstring) :
  (List.length s <= List.length (sanitize s) <= 6 * List.length s)%nat.
Proof.
  rewrite sanitize_flat_map.
  induction s as [|c s IH]; simpl; [lia|].
  rewrite length_app. pose proof (escape_char_length c). lia.
Qed.

Lemma escape_char_head (c : jschar) :
  exists rest, escape_char c = (if is_escaped_char c then ch_amp else c) :: rest.
Proof.
  destruct (escape_char_cases c)
    as [[-> E]|[[-> E]|[[-> E]|[[-> E]|[[-> E]|[Hx E]]]]]]; rewrite E.
  1-5: eexists; reflexivity.
  rewrite Hx. eexists; reflexivity.
Qed.

(** [sanitize] loses nothing: two strings with the same escaped form are
    the same string. *)
Theorem sanitize_injective (a b : jsstring) :
  sanitize a = sanitize b <-> a = b.
Proof.
  split; [|now intros ->].
  rewrite !sanitize_flat_map.
  revert b. induction a as [|x a IH]; intros [|y b] H.
  - reflexivity.
  - exfalso. cbn [flat_map] in H. destruct (escape_char_head y) as [r E].
    rewrite E in H. discriminate.
  - exfalso. cbn [flat_map] in H. destruct (escape_char_head x) as [r E].
    rewrite E in H. discriminate.
  - cbn [flat_map] in H.
    destruct (escape_char_cases x)
      as [[-> Ex]|[[-> Ex]|[[-> Ex]|[[-> Ex]|[[-> Ex]|[Hx Ex]]]]]];
    destruct (escape_char_cases y)
      as [[-> Ey]|[[-> Ey]|[[-> Ey]|[[-> Ey]|[[-> Ey]|[Hy Ey]]]]]];
    rewrite Ex in H; rewrite ?Ey in H; simpl in H;
    try discriminate;
    try (injection H as H; f_equal; now apply IH).
    + injection H as <- _. discriminate.
    + injection H as <- _. discriminate.
    + injection H as <- _. discriminate.
    + injection H as <- _. discriminate.
    + injection H as <- _. discriminate.
    + injection H as -> _. discriminate.
    + injection H as -> _. discriminate.
    + injection H as -> _. discriminate.
    + injection H as -> _. discriminate.
    + injection H as -> _. discriminate.
    + injection H as -> H. f_equal. now apply IH.
Qed.

(** ** [containsHtml] *)

(** The tag test asks for a [<] with a [>] somewhere after it, and for
    nothing else: a lone [<] or [>], or a [>] before a [<], passes. *)
Theorem containsHtml_iff (s : jsstring) :
  containsHtml s = true <->
  exists a b c, s = a ++ ch_lt :: b ++ ch_gt :: c.
Proof.
  split.
  - induction s as [|x t IH]; simpl; [discriminate|].
    intros H. apply orb_true_iff in H as [H|H].
    + apply andb_true_iff in H as [Hx Hgt].
      apply N.eqb_eq in Hx; subst x.
      apply existsb_exists in Hgt as (y & Hin & Hy).
      apply N.eqb_eq in Hy; subst y.
      apply in_split in Hin as (b & c & ->).
      now exists [], b, c.
    + destruct (IH H) as (a & b & c & ->).
      now exists (x :: a), b, c.
  - intros (a & b & c & ->).
    induction a as [|x a IH]; simpl.
    + rewrite existsb_app. simpl. now rewrite orb_true_r.
    + rewrite IH. apply orb_true_r.
Qed.

(** ** Surrounding whitespace *)

Lemma trimStart_skips_blank (pre s : jsstring) :
  forallb is_js_space pre = true -> trimStart (pre ++ s) = trimStart s.
Proof.
  induction pre as [|c pre IH]; simpl; [reflexivity|].
  intros H. apply andb_true_iff in H as [Hc Hpre]. rewrite Hc. auto.
Qed.

Lemma trimStart_app (s post : jsstring) :
  trimStart (s ++ post)
  = match trimStart s with
    | [] => trimStart post
    | _ :: _ => trimStart s ++ post
    end.
Proof.
  induction s as [|c s IH]; simpl.
  - destruct (trimStart post); reflexivity.
  - destruct (is_js_space c); [exact IH|reflexivity].
Qed.

Lemma forallb_rev {A} (p : A -> bool) (l : list A) :
  forallb p l = true -> forallb p (rev l) = true.
Proof.
  intros H. apply forallb_forall. intros x Hin.
  apply in_rev in Hin. revert x Hin. now apply forallb_forall.
Qed.

Lemma trimEnd_skips_blank (s post : jsstring) :
  forallb is_js_space post = true -> trimEnd (s ++ post) = trimEnd s.
Proof.
  intros H. unfold trimEnd. rewrite rev_app_distr.
  now rewrite (trimStart_skips_blank (rev post) (rev s) (forallb_rev _ _ H)).
Qed.

Lemma trim_ignores_surrounding_blank (pre s post : jsstring) :
  forallb is_js_space pre = true -> forallb is_js_space post = true ->
  trim (pre ++ s ++ post) = trim s.
Proof.
  intros Hpre Hpost. unfold trim.
  rewrite (trimStart_skips_blank pre _ Hpre), trimStart_app.
  destruct (trimStart s) as [|c u] eqn:E.
  - now rewrite (trimStart_blank post Hpost).
  - now apply trimEnd_skips_blank.
Qed.

(** Whitespace around a non-empty title or description changes nothing
    of the validation result. *)
Theorem validation_ignores_surrounding_whitespace :
  forall (tv : TitleValidationStrategy) (dv : DescriptionValidationStrategy)
         (pre s post : jsstring),
    s <> [] ->
    forallb is_js_space pre = true ->
    forallb is_js_space post = true ->
    title_validate tv (JStr (pre ++ s ++ post)) = title_validate tv (JStr s)
    /\ description_validate dv (JStr (pre ++ s ++ post))
       = description_validate dv (JStr s).
Proof.
  intros tv dv pre s post Hs Hpre Hpost.
  assert (Hne : pre ++ s ++ post <> []).
  { intros E. apply app_eq_nil in E as [_ E]. apply app_eq_nil in E as [E _].
    contradiction. }
  unfold title_validate, description_validate, call_trim.
  rewrite (nonempty_truthy _ Hne), (nonempty_truthy _ Hs).
  rewrite (trim_ignores_surrounding_blank pre s post Hpre Hpost).
  split; reflexivity.
Qed.

Lemma validation_ignores_surrounding_whitespace_witness :
  title_validate (new_TitleValidationStrategy 1 100)
    (JStr ([32%N; 9%N] ++ lit "Buy milk" ++ [10%N]))
  = title_validate (new_TitleValidationStrategy 1 100) (JStr (lit "Buy milk"))
  /\ description_validate (new_DescriptionValidationStrategy 500)
       (JStr ([32%N; 9%N] ++ lit "Buy milk" ++ [10%N]))
     = description_validate (new_DescriptionValidationStrategy 500)
         (JStr (lit "Buy milk")).
Proof.
  apply (validation_ignores_surrounding_whitespace
           (new_TitleValidationStrategy 1 100)
           (new_DescriptionValidationStrategy 500)
           [32%N; 9%N] (lit "Buy milk") [10%N]).
  - discriminate.
  - reflexivity.
  - reflexivity.
Defined.

(** ** The description validator *)

(** A description of whitespace only is accepted like an absent one and
    stored as the empty string (a title of whitespace only is rejected). *)
Theorem blank_description_is_accepted :
  forall (this : DescriptionValidationStrategy) (s : jsstring),
    forallb is_js_space s = true ->
    0 <= description_maxLength this ->
    description_validate this (JStr s)
    = Return (mkFieldResult true [] (Some (JStr []))).
Proof.
  intros this s Hws Hmax. unfold description_validate.
  destruct (ToBoolean (JStr s)); simpl negb; cbv iota; [|reflexivity].
  unfold call_trim. rewrite (trim_blank s Hws). cbn [bind].
  change (str_length []) with 0.
  destruct (Z.ltb_spec (description_maxLength this) 0); [lia|reflexivity].
Qed.

Lemma blank_description_is_accepted_witness :
  description_validate (new_DescriptionValidationStrategy 500)
                       (JStr [32%N; 10%N; 32%N])
  = Return (mkFieldResult true [] (Some (JStr []))).
Proof.
  apply (blank_description_is_accepted (new_DescriptionValidationStrategy 500)).
  - reflexivity.
  - discriminate.
Defined.

(** ** The title validator *)

(** With bounds that leave room for a title (0 < minLength <= maxLength
    + 1) the checks exclude one another in part: the empty-title error
    comes with the min-length error and with no other, and the min-length
    and max-length errors never come together. *)
Theorem title_error_lists :
  forall (this : TitleValidationStrategy) (v : JsVal) (r : FieldResult),
    0 < title_minLength this ->
    title_minLength this <= title_maxLength this + 1 ->
    title_validate this v = Return r ->
    In (errors r)
       [ [msg_title_required];
         [];
         [msg_title_blank; msg_title_min this];
         [msg_title_min this];
         [msg_title_min this; msg_title_html];
         [msg_title_max this];
         [msg_title_max this; msg_title_html];
         [msg_title_html] ].
Proof.
  intros this v r Hmin Hmax. unfold title_validate.
  destruct (ToBoolean v); simpl negb; cbv iota.
  2:{ intros [= <-]. simpl. auto. }
  destruct (call_trim v) as [t|e]; cbn [bind]; [|discriminate].
  intros [= <-]. cbn [errors].
  destruct t as [|c t].
  - change (str_length []) with 0. simpl containsHtml.
    destruct (Z.ltb_spec 0 (title_minLength this)); [|lia].
    destruct (Z.ltb_spec (title_maxLength this) 0); [lia|].
    simpl. auto.
  - assert (Hlen : 0 < str_length (c :: t)).
    { unfold str_length. simpl List.length. lia. }
    destruct (Z.eqb_spec (str_length (c :: t)) 0); [lia|].
    destruct (Z.ltb_spec (str_length (c :: t)) (title_minLength this));
    destruct (Z.ltb_spec (title_maxLength this) (str_length (c :: t)));
    destruct (containsHtml (c :: t)); simpl; try lia; auto 10.
Qed.

Lemma title_error_lists_witness :
  exists r,
    title_validate (new_TitleValidationStrategy 1 3) (JStr (lit " <b>bold</b>"))
      = Return r
    /\ errors r = [msg_title_max (new_TitleValidationStrategy 1 3); msg_title_html]
    /\ In (errors r)
         [ [msg_title_required];
           [];
           [msg_title_blank; msg_title_min (new_TitleValidationStrategy 1 3)];
           [msg_title_min (new_TitleValidationStrategy 1 3)];
           [msg_title_min (new_TitleValidationStrategy 1 3); msg_title_html];
           [msg_title_max (new_TitleValidationStrategy 1 3)];
           [msg_title_max (new_TitleValidationStrategy 1 3); msg_title_html];
           [msg_title_html] ].
Proof.
  eexists. split; [reflexivity|]. split; [reflexivity|].
  apply (title_error_lists (new_TitleValidationStrategy 1 3)
           (JStr (lit " <b>bold</b>"))).
  - reflexivity.
  - discriminate.
  - reflexivity.
Defined.

(** ** The priority validator *)

Lemma priority_valid_sanitized h v r :
  priority_validate h new_PriorityValidationStrategy v = Return r ->
  isValid r = true ->
  exists p, In p [lit "high"; lit "medium"; lit "low"]
            /\ sanitizedValue r = Some (JStr p).
Proof.
  unfold priority_validate. destruct (ToBoolean v); cbn [negb].
  2:{ intros [= <-] _. exists (lit "medium").
      split; [right; now left|reflexivity]. }
  destruct (call_toLowerCase h v) as [lowered|e]; cbn [bind]; [|discriminate].
  destruct (includes (validPriorities new_PriorityValidationStrategy)
                     (trim lowered)) eqn:E; intros [= <-]; [|discriminate].
  intros _. unfold includes in E. apply existsb_exists in E as (p & Hin & Hp).
  apply str_eqb_eq in Hp; subst p.
  exists (trim lowered). split; [exact Hin|reflexivity].
Qed.

(** Whatever the input and the lower-casing of the host, a result of the
    priority validator is either valid with one of the three priorities
    as sanitized value, or invalid with the one error that lists them. *)
Theorem priority_result_shape :
  forall (h : Host) (v : JsVal) (r : FieldResult),
    priority_validate h new_PriorityValidationStrategy v = Return r ->
    (isValid r = true /\ errors r = [] /\
     exists p, In p [lit "high"; lit "medium"; lit "low"]
               /\ sanitizedValue r = Some (JStr p))
    \/ (isValid r = false /\
        errors r = [lit "Priority must be one of: high, medium, low"]).
Proof.
  intros h v r. unfold priority_validate.
  destruct (ToBoolean v); cbn [negb].
  2:{ intros [= <-]. left. split; [reflexivity|split; [reflexivity|]].
      exists (lit "medium"). split; [right; now left|reflexivity]. }
  destruct (call_toLowerCase h v) as [lowered|e]; cbn [bind]; [|discriminate].
  destruct (includes (validPriorities new_PriorityValidationStrategy)
                     (trim lowered)) eqn:E; intros [= <-].
  - left. split; [reflexivity|split; [reflexivity|]].
    unfold includes in E. apply existsb_exists in E as (p & Hin & Hp).
    apply str_eqb_eq in Hp; subst p.
    exists (trim lowered). split; [exact Hin|reflexivity].
  - right. split; reflexivity.
Qed.

Lemma priority_result_shape_witness :
  exists r,
    priority_validate (example_host 0 0) new_PriorityValidationStrategy
                      (JStr (lit "  HIGH ")) = Return r
    /\ sanitizedValue r = Some (JStr (lit "high"))
    /\ ((isValid r = true /\ errors r = [] /\
         exists p, In p [lit "high"; lit "medium"; lit "low"]
                   /\ sanitizedValue r = Some (JStr p))
        \/ (isValid r = false /\
            errors r = [lit "Priority must be one of: high, medium, low"])).
Proof.
  eexists. split; [reflexivity|]. split; [reflexivity|].
  apply (priority_result_shape (example_host 0 0) (JStr (lit "  HIGH "))).
  reflexivity.
Defined.

(** ** Aggregated results *)

Lemma errors_of_none_iff_all_valid (results : jsobj FieldResult) :
  (forall k r, In (k, r) results -> coherent r) ->
  no_errors (errors_of results) = all_valid results.
Proof.
  induction results as [|[k r] t IH]; intros Hc; [reflexivity|].
  unfold errors_of, all_valid in *. cbn [flat_map forallb fst snd].
  pose proof (Hc k r (or_introl eq_refl)) as Hr. unfold coherent in Hr.
  destruct (isValid r).
  - simpl. apply IH. intros k' r' Hin. apply (Hc k' r'). now right.
  - destruct (errors r) as [|e es]; [discriminate|]. reflexivity.
Qed.

Lemma sanitized_of_all_valid (results : jsobj FieldResult) :
  all_valid results = true ->
  Object_keys (sanitized_of results) = Object_keys results.
Proof.
  intros H. unfold sanitized_of, Object_keys.
  rewrite (forallb_filter_id _ _ H), map_map. reflexivity.
Qed.

Lemma field_outcome_coherent o name validate oi r :
  (forall v r', validate v = Return r' -> coherent r') ->
  field_outcome o name validate oi -> oi = Some r -> coherent r.
Proof. intros Hv F ->. destruct F as [_ F]. exact (Hv _ _ F). Qed.

Lemma results_of_In o1 o2 o3 o4 k r :
  In (k, r) (results_of o1 o2 o3 o4) ->
  (k = f_title /\ o1 = Some r) \/ (k = f_description /\ o2 = Some r) \/
  (k = f_priority /\ o3 = Some r) \/ (k = f_dueDate /\ o4 = Some r).
Proof.
  unfold results_of. intros H.
  repeat (apply in_app_or in H as [H|H]).
  - destruct o1; [|contradiction]. destruct H as [[= <- <-]|[]]. auto.
  - destruct o2; [|contradiction]. destruct H as [[= <- <-]|[]]. auto.
  - destruct o3; [|contradiction]. destruct H as [[= <- <-]|[]]. auto.
  - destruct o4; [|contradiction]. destruct H as [[= <- <-]|[]]. auto 6.
Qed.

(** The table of field results of every result of an entry point, with
    the validator call behind each entry. *)
Lemma entry_point_results h this o r :
  validateTask h this o = Return r \/ validateTaskUpdate h this o = Return r ->
  exists o1 o2 o3 o4,
    r = aggregate_of (results_of o1 o2 o3 o4)
    /\ forall k fr, In (k, fr) (results_of o1 o2 o3 o4) ->
                    dispatch h this k (prop_of o k) = Return fr.
Proof.
  intros [H|H].
  - apply validateTask_Return in H as (r1 & r2 & r3 & r4 & R1 & R2 & R3 & R4 & ->).
    exists (Some r1), (Some r2), (Some r3), (Some r4). split; [reflexivity|].
    intros k fr Hin.
    apply results_of_In in Hin
      as [[-> [= <-]]|[[-> [= <-]]|[[-> [= <-]]|[-> [= <-]]]]]; assumption.
  - apply validateTaskUpdate_Return in H
      as (o1 & o2 & o3 & o4 & F1 & F2 & F3 & F4 & ->).
    exists o1, o2, o3, o4. split; [reflexivity|].
    intros k fr Hin.
    apply results_of_In in Hin as [[-> ->]|[[-> ->]|[[-> ->]|[-> ->]]]].
    + apply F1.
    + apply F2.
    + apply F3.
    + apply F4.
Qed.

Lemma entry_point_all_valid h this o r :
  validateTask h this o = Return r \/ validateTaskUpdate h this o = Return r ->
  agg_isValid r = all_valid (fieldResults r).
Proof.
  intros H.
  apply entry_point_results in H as (o1 & o2 & o3 & o4 & -> & Hd).
  apply errors_of_none_iff_all_valid. intros k fr Hin.
  apply (dispatch_coherent h this k (prop_of o k)). now apply Hd.
Qed.

(** An aggregate result is valid exactly when every field result it
    holds is valid, and then its sanitized data has an entry for every
    validated field. *)
Theorem aggregate_valid_iff_fields_valid :
  forall (h : Host) (this : TaskValidator) (o : JsVal) (r : AggregateResult),
    validateTask h this o = Return r \/ validateTaskUpdate h this o = Return r ->
    agg_isValid r = all_valid (fieldResults r)
    /\ (agg_isValid r = true ->
        Object_keys (sanitizedData r) = Object_keys (fieldResults r)).
Proof.
  intros h this o r H.
  pose proof (entry_point_all_valid h this o r H) as E.
  apply entry_point_results in H as (o1 & o2 & o3 & o4 & -> & _).
  split; [exact E|].
  rewrite E. cbn [aggregate_of sanitizedData fieldResults].
  apply sanitized_of_all_valid.
Qed.

Lemma aggregate_valid_iff_fields_valid_witness :
  exists r,
    validateTaskUpdate sample_host new_TaskValidator
      (JObject [(f_title, JStr (lit "Buy milk")); (f_priority, JStr (lit "LOW"))])
      = Return r
    /\ Object_keys (sanitizedData r) = [f_title; f_priority]
    /\ agg_isValid r = all_valid (fieldResults r)
    /\ (agg_isValid r = true ->
        Object_keys (sanitizedData r) = Object_keys (fieldResults r)).
Proof.
  eexists. split; [reflexivity|]. split; [reflexivity|].
  apply (aggregate_valid_iff_fields_valid sample_host new_TaskValidator
           (JObject [(f_title, JStr (lit "Buy milk"));
                     (f_priority, JStr (lit "LOW"))])).
  right; reflexivity.
Defined.

Lemma push_if_no_errors (c : bool) (m : jsstring) (errs : list jsstring) :
  no_errors (push_if c m errs) = true -> c = false /\ no_errors errs = true.
Proof. destruct c, errs; simpl; auto; discriminate. Qed.

Lemma title_valid_sanitized this v r :
  title_validate this v = Return r -> isValid r = true ->
  exists t, sanitizedValue r = Some (JStr t) /\ t <> [].
Proof.
  unfold title_validate. destruct (ToBoolean v); simpl negb; cbv iota.
  2:{ intros [= <-]; discriminate. }
  destruct (call_trim v) as [t|e]; cbn [bind]; [|discriminate].
  intros [= <-]. cbn [isValid sanitizedValue]. intros Hv.
  exists (sanitize t). split; [reflexivity|].
  do 3 (apply push_if_no_errors in Hv as [_ Hv]).
  apply push_if_no_errors in Hv as [Hlen _].
  destruct t as [|c t]; [discriminate Hlen|].
  apply sanitize_nonempty. discriminate.
Qed.

Lemma description_sanitized this v r :
  description_validate this v = Return r ->
  exists t, sanitizedValue r = Some (JStr t).
Proof.
  unfold description_validate. destruct (ToBoolean v); simpl negb; cbv iota.
  2:{ intros [= <-]; eexists; reflexivity. }
  destruct (call_trim v) as [t|e]; cbn [bind]; [|discriminate].
  intros [= <-]. eexists; reflexivity.
Qed.

Lemma dueDate_valid_sanitized h v r :
  dueDate_validate h v = Return r -> isValid r = true ->
  sanitizedValue r = Some JNull \/ exists s, sanitizedValue r = Some (JStr s).
Proof.
  unfold dueDate_validate. destruct (ToBoolean v); simpl negb; cbv iota.
  2:{ intros [= <-]; now left. }
  destruct (new_Date h v) as [[t|]|e]; cbn [bind]; try discriminate.
  - intros [= <-] _. right. eexists; reflexivity.
  - intros [= <-]; discriminate.
Qed.

(** [validateTask] always reports on the four fields, in the order
    title, description, priority, dueDate; and a task it finds valid comes
    with a complete record: a non-empty title, a description, one of the
    three priorities, and a due date that is [null] or a string. *)
Theorem validateTask_complete_record :
  forall (h : Host) (o : JsVal) (r : AggregateResult),
    validateTask h new_TaskValidator o = Return r ->
    Object_keys (fieldResults r) = field_order
    /\ (agg_isValid r = true ->
        exists title description priority dueDate,
          sanitizedData r
          = [(f_title, JStr title); (f_description, JStr description);
             (f_priority, JStr priority); (f_dueDate, dueDate)]
          /\ title <> []
          /\ In priority [lit "high"; lit "medium"; lit "low"]
          /\ (dueDate = JNull \/ exists s, dueDate = JStr s)).
Proof.
  intros h o r H.
  pose proof (entry_point_all_valid h new_TaskValidator o r (or_introl H))
    as Hall.
  apply validateTask_Return in H as (r1 & r2 & r3 & r4 & R1 & R2 & R3 & R4 & ->).
  split; [reflexivity|]. intros Hv. rewrite Hall in Hv.
  cbn in Hv.
  apply andb_true_iff in Hv as [V1 Hv]. apply andb_true_iff in Hv as [V2 Hv].
  apply andb_true_iff in Hv as [V3 Hv]. apply andb_true_iff in Hv as [V4 _].
  destruct (title_valid_sanitized _ _ _ R1 V1) as (t & St & Ht).
  destruct (description_sanitized _ _ _ R2) as (d & Sd).
  destruct (priority_valid_sanitized h _ _ R3 V3) as (p & Hp & Sp).
  pose proof (dueDate_valid_sanitized h _ _ R4 V4) as Sdd.
  exists t, d, p, (get_sanitizedValue r4).
  split; [|split; [exact Ht|split; [exact Hp|]]].
  - unfold aggregate_of, sanitized_of, results_of, entry.
    cbn [sanitizedData app filter snd fst map]. rewrite V1, V2, V3, V4.
    cbn [map fst snd]. unfold get_sanitizedValue. rewrite St, Sd, Sp.
    reflexivity.
  - unfold get_sanitizedValue.
    destruct Sdd as [->|[s ->]]; [now left|right; now exists s].
Qed.

Lemma validateTask_complete_record_witness :
  exists r,
    validateTask sample_host new_TaskValidator
      (JObject [(f_title, JStr (lit " Buy <milk "));
                (f_dueDate, JStr (lit "2024-02-29"))]) = Return r
    /\ sanitizedData r
       = [(f_title, JStr (lit "Buy &lt;milk")); (f_description, JStr (lit ""));
          (f_priority, JStr (lit "medium"));
          (f_dueDate, JStr (lit "2024-02-29"))]
    /\ Object_keys (fieldResults r) = field_order.
Proof.
  eexists. split; [reflexivity|]. split; [reflexivity|].
  apply (validateTask_complete_record sample_host
           (JObject [(f_title, JStr (lit " Buy <milk "));
                     (f_dueDate, JStr (lit "2024-02-29"))])).
  reflexivity.
Defined.

(** ** Partial validation inside full validation *)

Lemma own_key_false_prop o k : own_key o k = false -> prop_of o k = JUndefined.
Proof.
  destruct o; simpl; try reflexivity;
    unfold has_own; destruct (js_get props k); (discriminate || reflexivity).
Qed.

Lemma validateTaskUpdate_not_nullish h this o r :
  validateTaskUpdate h this o = Return r -> is_nullish o = false.
Proof. destruct o; try reflexivity; discriminate. Qed.

Lemma field_outcome_full o name validate oi dflt :
  validate JUndefined = Return dflt ->
  field_outcome o name validate oi ->
  exists r, validate (prop_of o name) = Return r
            /\ (forall fr, oi = Some fr -> fr = r).
Proof.
  intros Hd F. destruct oi as [fr|]; simpl in F.
  - destruct F as [_ F]. exists fr. split; [exact F|]. now intros ? [= <-].
  - rewrite (own_key_false_prop o name F). exists dflt.
    split; [exact Hd|discriminate].
Qed.

Lemma sub_entry_errors name oi r e :
  (forall fr, oi = Some fr -> fr = r) ->
  In e (errors_of (entry name oi)) -> In e (errors_of (entry name (Some r))).
Proof.
  intros H. destruct oi as [fr|]; [|contradiction].
  now rewrite (H fr eq_refl).
Qed.

(** Whenever [validateTaskUpdate] returns a result for an object,
    [validateTask] returns one for the same object, with the same field
    result for every field the update validated and with every error of
    the update among its errors; so an object that is valid as a full
    task is valid as an update. *)
Theorem update_is_part_of_full_validation :
  forall (h : Host) (this : TaskValidator) (o : JsVal) (ru : AggregateResult),
    validateTaskUpdate h this o = Return ru ->
    exists rf,
      validateTask h this o = Return rf
      /\ (forall f fr, js_get (fieldResults ru) f = Some fr ->
                       js_get (fieldResults rf) f = Some fr)
      /\ (forall e, In e (agg_errors ru) -> In e (agg_errors rf))
      /\ (agg_isValid rf = true -> agg_isValid ru = true).
Proof.
  intros h this o ru H.
  pose proof (validateTaskUpdate_not_nullish h this o ru H) as Hn.
  apply validateTaskUpdate_Return in H
    as (o1 & o2 & o3 & o4 & F1 & F2 & F3 & F4 & ->).
  destruct (field_outcome_full o f_title _ o1 _
              (falsy_title (titleValidator this) JUndefined eq_refl) F1)
    as (r1 & R1 & E1).
  destruct (field_outcome_full o f_description _ o2 _
              (falsy_description (descriptionValidator this) JUndefined eq_refl) F2)
    as (r2 & R2 & E2).
  destruct (field_outcome_full o f_priority _ o3 _
              (falsy_priority h (priorityValidator this) JUndefined eq_refl) F3)
    as (r3 & R3 & E3).
  destruct (field_outcome_full o f_dueDate _ o4 _
              (falsy_dueDate h JUndefined eq_refl) F4)
    as (r4 & R4 & E4).
  assert (Hfull : validateTask h this o
                  = Return (aggregate_of
                              (results_of (Some r1) (Some r2) (Some r3) (Some r4)))).
  { destruct (validateTask h this o) as [rf|e] eqn:V.
    - apply validateTask_Return in V
        as (q1 & q2 & q3 & q4 & Q1 & Q2 & Q3 & Q4 & ->).
      congruence.
    - exfalso. unfold validateTask in V.
      rewrite !(get_prop_total o _ Hn) in V. cbn [bind] in V.
      rewrite R1 in V; cbn [bind] in V. rewrite R2 in V; cbn [bind] in V.
      rewrite R3 in V; cbn [bind] in V. rewrite R4 in V; cbn [bind] in V.
      discriminate. }
  assert (Herr : forall e, In e (errors_of (results_of o1 o2 o3 o4)) ->
                 In e (errors_of (results_of (Some r1) (Some r2) (Some r3)
                                             (Some r4)))).
  { intros e. unfold results_of. rewrite !errors_of_app, !in_app_iff.
    intros [He|[He|[He|He]]].
    - left. now apply (sub_entry_errors f_title o1).
    - right; left. now apply (sub_entry_errors f_description o2).
    - right; right; left. now apply (sub_entry_errors f_priority o3).
    - right; right; right. now apply (sub_entry_errors f_dueDate o4). }
  eexists. split; [exact Hfull|]. split; [|split].
  - cbn [fieldResults aggregate_of]. intros f fr Hget.
    apply js_get_In, results_of_In in Hget
      as [[-> Ho]|[[-> Ho]|[[-> Ho]|[-> Ho]]]].
    + now rewrite (E1 fr Ho).
    + now rewrite (E2 fr Ho).
    + now rewrite (E3 fr Ho).
    + now rewrite (E4 fr Ho).
  - exact Herr.
  - cbn [agg_isValid aggregate_of].
    destruct (errors_of (results_of (Some r1) (Some r2) (Some r3) (Some r4)))
      as [|e es] eqn:Ef; [|discriminate].
    intros _. destruct (errors_of (results_of o1 o2 o3 o4)) as [|e es] eqn:Eu;
      [reflexivity|].
    exfalso. apply (Herr e). now left.
Qed.

Lemma update_is_part_of_full_validation_witness :
  exists ru rf,
    validateTaskUpdate sample_host new_TaskValidator
      (JObject [(f_priority, JStr (lit "urgent"))]) = Return ru
    /\ validateTask sample_host new_TaskValidator
         (JObject [(f_priority, JStr (lit "urgent"))]) = Return rf
    /\ agg_errors ru = [lit "priority: Priority must be one of: high, medium, low"]
    /\ agg_errors rf = [lit "title: Title is required";
                        lit "priority: Priority must be one of: high, medium, low"]
    /\ (forall e, In e (agg_errors ru) -> In e (agg_errors rf)).
Proof.
  destruct (update_is_part_of_full_validation sample_host new_TaskValidator
              (JObject [(f_priority, JStr (lit "urgent"))]) _ eq_refl)
    as (rf & Hf & _ & Herr & _).
  eexists. exists rf. split; [reflexivity|]. split; [exact Hf|].
  split; [reflexivity|]. split; [|exact Herr].
  assert (E : Return rf = validateTask sample_host new_TaskValidator
                (JObject [(f_priority, JStr (lit "urgent"))]))
    by (symmetry; exact Hf).
  injection E as ->. reflexivity.
Defined.

(** ** Defaults of the optional fields *)

(** When description, priority and due date are absent or falsy, the
    outcome of [validateTask] is decided by the title alone: the only
    errors are those of the title, and the three optional fields are
    valid with the defaults [""], ["medium"] and [null]. *)
Theorem validateTask_defaults :
  forall (h : Host) (this : TaskValidator) (o : JsVal) (r1 : FieldResult),
    is_nullish o = false ->
    ToBoolean (prop_of o f_description) = false ->
    ToBoolean (prop_of o f_priority) = false ->
    ToBoolean (prop_of o f_dueDate) = false ->
    title_validate (titleValidator this) (prop_of o f_title) = Return r1 ->
    exists r,
      validateTask h this o = Return r
      /\ agg_isValid r = isValid r1
      /\ agg_errors r = (if isValid r1 then []
                         else map (prefixed f_title) (errors r1))
      /\ js_get (sanitizedData r) f_description = Some (JStr (lit ""))
      /\ js_get (sanitizedData r) f_priority = Some (JStr (lit "medium"))
      /\ js_get (sanitizedData r) f_dueDate = Some JNull.
Proof.
  intros h this o r1 Hn Hd Hp Hdd R1.
  pose proof (title_validate_coherent _ _ _ R1) as C1. unfold coherent in C1.
  unfold validateTask. rewrite !(get_prop_total o _ Hn). cbn [bind].
  rewrite R1; cbn [bind].
  rewrite (falsy_description _ _ Hd); cbn [bind].
  rewrite (falsy_priority h _ _ Hp); cbn [bind].
  rewrite (falsy_dueDate h _ Hdd); cbn [bind].
  eexists. split; [reflexivity|].
  cbn [agg_isValid agg_errors sanitizedData].
  destruct r1 as [v1 e1 s1]. cbn [isValid errors] in *. subst v1.
  destruct e1 as [|e es]; cbn [no_errors].
  - repeat split; reflexivity.
  - assert (E : fold_left
                  (collect_errors_step
                     [(f_title, mkFieldResult false (e :: es) s1);
                      (f_description, mkFieldResult true [] (Some (JStr [])));
                      (f_priority,
                       mkFieldResult true [] (Some (JStr (lit "medium"))));
                      (f_dueDate, mkFieldResult true [] (Some JNull))])
                  (Object_keys
                     [(f_title, mkFieldResult false (e :: es) s1);
                      (f_description, mkFieldResult true [] (Some (JStr [])));
                      (f_priority,
                       mkFieldResult true [] (Some (JStr (lit "medium"))));
                      (f_dueDate, mkFieldResult true [] (Some JNull))]) []
                = map (prefixed f_title) (e :: es)).
    { change (fold_left _ _ []) with
        (push_field_errors f_title (e :: es) []).
      now rewrite push_field_errors_app. }
    rewrite E. repeat split; reflexivity.
Qed.

Lemma validateTask_defaults_witness :
  exists r,
    validateTask sample_host new_TaskValidator
      (JObject [(f_title, JStr (lit "Buy milk")); (f_priority, JNull)])
      = Return r
    /\ agg_isValid r = true
    /\ js_get (sanitizedData r) f_priority = Some (JStr (lit "medium")).
Proof.
  destruct (validateTask_defaults sample_host new_TaskValidator
              (JObject [(f_title, JStr (lit "Buy milk")); (f_priority, JNull)])
              (mkFieldResult true [] (Some (JStr (lit "Buy milk"))))
              eq_refl eq_refl eq_refl eq_refl eq_refl)
    as (r & Hr & Hv & _ & _ & Hp & _).
  exists r. auto.
Defined.

(** ** [clearTimers] *)

Lemma clearTimeout_all_log (handles : list positive) (w : EventLoop) :
  log (fold_left clearTimeout handles w) = log w.
Proof.
  revert w. induction handles as [|hd handles IH]; intros w; simpl;
    [reflexivity|now rewrite IH].
Qed.

(** After [clearTimers] no pending timer of an ordinary field is left to
    fire, so no callback of such a field is invoked any more; the handle
    table is empty, and a second [clearTimers] changes nothing. *)
Theorem clearTimers_silences_callbacks :
  forall (h : Host) (this : RealTimeValidator) (w : EventLoop) (f : jsstring),
    consistent this w ->
    f <> k_proto ->
    invocations_for f
      (log (run_until_idle h (fst (clearTimers this w)) (snd (clearTimers this w))))
    = invocations_for f (log w)
    /\ debounceTimers (fst (clearTimers this w)) = []
    /\ clearTimers (fst (clearTimers this w)) (snd (clearTimers this w))
       = clearTimers this w.
Proof.
  intros h this w f C Hf.
  pose proof (clearTimers_cancels this w f C Hf) as Hnone.
  split; [|split; reflexivity].
  destruct (clearTimers this w) as [this' w'] eqn:E. cbn [fst snd] in *.
  assert (Hlog : log w' = log w).
  { unfold clearTimers in E. injection E as _ <-. apply clearTimeout_all_log. }
  destruct (run_timers_log h this' (List.length (pending w')) w' (Nat.le_refl _))
    as (fired & P & L & _).
  fold (run_until_idle h this' w') in L.
  rewrite L, invocations_for_app, Hlog, invocations_of_tasks.
  apply (filter_perm (is_for f)) in P. fold (pending_for f w') in P.
  rewrite Hnone in P. apply Permutation_sym, Permutation_nil in P. rewrite P.
  simpl. now rewrite app_nil_r.
Qed.

Lemma clearTimers_silences_callbacks_witness :
  invocations_for f_title
    (log (run_until_idle sample_host
            (fst (clearTimers
                    (fst (do_actions sample_host sample_actions
                            (new_RealTimeValidator new_TaskValidator,
                             new_EventLoop)))
                    (snd (do_actions sample_host sample_actions
                            (new_RealTimeValidator new_TaskValidator,
                             new_EventLoop)))))
            (snd (clearTimers
                    (fst (do_actions sample_host sample_actions
                            (new_RealTimeValidator new_TaskValidator,
                             new_EventLoop)))
                    (snd (do_actions sample_host sample_actions
                            (new_RealTimeValidator new_TaskValidator,
                             new_EventLoop)))))))
  = [].
Proof.
  refine (proj1 (clearTimers_silences_callbacks sample_host _ _ f_title _ _)).
  - apply (proj1 (window_invariant sample_host f_title sample_actions
                    (new_RealTimeValidator new_TaskValidator) new_EventLoop
                    (consistent_new new_TaskValidator)
                    ltac:(discriminate)
                    ltac:(repeat split; discriminate))).
  - discriminate.
Defined.

(** ** How often callbacks run *)

Lemma validateField_pending_length this w f v cb delay :
  (List.length (pending (snd (validateField this w f v cb delay)))
   <= S (List.length (pending w)))%nat.
Proof.
  rewrite validateField_pending, length_app. simpl.
  pose proof (filter_length_le (kept this f) (pending w)). lia.
Qed.

Lemma do_action_budget h s a :
  (List.length (log (snd (do_action h s a)))
   + List.length (pending (snd (do_action h s a)))
   <= List.length (log (snd s)) + List.length (pending (snd s))
      + List.length (calls_of [a]))%nat.
Proof.
  destruct a as [c| |dt]; cbn [do_action calls_of flat_map app List.length].
  - rewrite validateField_log.
    pose proof (validateField_pending_length (fst s) (snd s) (call_field c)
                  (call_value c) (call_callback c) (call_delay c)). lia.
  - destruct (fire_next h (fst s) (snd s)) as [w'|] eqn:F; cbn [snd]; [|lia].
    apply fire_next_Some in F as (m & _ & P & _ & L).
    apply Permutation_length in P. simpl in P.
    rewrite L, length_app. simpl. lia.
  - simpl. lia.
Qed.

(** Every call of [validateField] pays for at most one run of a timer
    task: whatever the field names and however calls, firings and waiting
    alternate, the log ends up with at most as many entries as there were
    entries and pending timers at the start and calls since.  On a fresh
    validator no callback is invoked more often than [validateField] was
    called. *)
Theorem callbacks_bounded_by_calls :
  forall (h : Host) (actions : list Action) (this : RealTimeValidator)
         (w : EventLoop),
    (List.length
       (log (run_until_idle h (fst (do_actions h actions (this, w)))
                              (snd (do_actions h actions (this, w)))))
     <= List.length (log w) + List.length (pending w)
        + List.length (calls_of actions))%nat.
Proof.
  intros h actions this w.
  assert (H : (List.length (log (snd (do_actions h actions (this, w))))
               + List.length (pending (snd (do_actions h actions (this, w))))
               <= List.length (log w) + List.length (pending w)
                  + List.length (calls_of actions))%nat).
  { induction actions as [|a actions IH] using rev_ind; [simpl; lia|].
    rewrite do_actions_app, calls_of_snoc, length_app.
    pose proof (do_action_budget h (do_actions h actions (this, w)) a) as B.
    cbn [do_actions fold_left].
    cbn [calls_of flat_map] in B. rewrite app_nil_r in B.
    unfold do_actions in *. lia. }
  destruct (do_actions h actions (this, w)) as [this' w'].
  cbn [fst snd] in *.
  destruct (run_timers_log h this' (List.length (pending w')) w' (Nat.le_refl _))
    as (fired & P & L & _).
  fold (run_until_idle h this' w') in L.
  rewrite L, length_app, length_map.
  apply Permutation_length in P. lia.
Qed.

(** ** The due-date verdict, day by day *)

Lemma parse_iso_date_only_day (s : jsstring) (t : Z) :
  parse_iso_date_only s = Some t -> t = (t / msPerDay) * msPerDay.
Proof.
  unfold parse_iso_date_only.
  destruct s as [|y1 [|y2 [|y3 [|y4 [|h1 [|m1 [|m2 [|h2 [|d1 [|d2 [|? ?]]]]]]]]]]];
    try discriminate.
  destruct (N.eqb h1 ch_dash && N.eqb h2 ch_dash); [|discriminate].
  destruct (digits_val 0 [y1; y2; y3; y4]) as [y|]; [|discriminate].
  destruct (digits_val 0 [m1; m2]) as [m|]; [|discriminate].
  destruct (digits_val 0 [d1; d2]) as [d|]; [|discriminate].
  destruct ((1 <=? m) && (m <=? 12) && (1 <=? d) && (d <=? days_in_month y m));
    [|discriminate].
  intros [= <-]. unfold utc_midnight.
  rewrite Z.div_mul; [reflexivity|discriminate].
Qed.

(** For a due date given as [YYYY-MM-DD], with the zone within a day of
    UTC: a day before the local day of the clock is rejected with the one
    error, a day after it is accepted, and the local day itself is
    accepted exactly at and east of UTC. *)
Theorem dueDate_verdict_by_day :
  forall (h : Host) (s : jsstring) (t : Z),
    parse_iso_date_only s = Some t ->
    - msPerDay < host_tza h < msPerDay ->
    exists r,
      dueDate_validate h (JStr s) = Return r
      /\ (t / msPerDay < local_day h ->
          isValid r = false /\ errors r = [msg_date_past])
      /\ (local_day h < t / msPerDay -> isValid r = true /\ errors r = [])
      /\ (t / msPerDay = local_day h ->
          (isValid r = true <-> 0 <= host_tza h)).
Proof.
  intros h s t Hparse Htz.
  pose proof (parse_iso_date_only_day s t Hparse) as Ht.
  rewrite (dueDate_validate_iso h s t Hparse).
  eexists. split; [reflexivity|]. cbn [isValid errors].
  set (day := t / msPerDay) in *.
  unfold msPerDay in *.
  destruct (Z.ltb_spec t (local_day h * 86400000 - host_tza h)) as [Hlt|Hge];
    cbn [negb].
  - split; [auto|]. split.
    + intros Hd. exfalso. nia.
    + intros Hd. split; [discriminate|]. intros Hz. exfalso. nia.
  - split; [|split].
    + intros Hd. exfalso. nia.
    + auto.
    + intros Hd. split; [|reflexivity]. intros _. nia.
Qed.

Lemma dueDate_verdict_by_day_witness :
  exists r,
    dueDate_validate west_host (JStr (lit "2024-01-02")) = Return r
    /\ isValid r = true /\ errors r = [].
Proof.
  destruct (dueDate_verdict_by_day west_host (lit "2024-01-02")
              (utc_midnight 2024 1 2) eq_refl)
    as (r & Hr & _ & Hafter & _).
  - split; reflexivity.
  - exists r. split; [exact Hr|]. apply Hafter. reflexivity.
Defined.

(** ** Dates in and out *)

(** The steps of [civil_from_days] on a day given by its era, its year
    of the era and its day of that year (counted from 1 March). *)
Lemma civil_of_parts (era yoe doy : Z) :
  0 <= yoe < 400 -> 0 <= doy <= 365 ->
  (doy = 365 -> (yoe + 1) mod 4 = 0 /\ ((yoe + 1) mod 100 <> 0 \/ yoe = 399)) ->
  civil_from_days (era * 146097 + (year_start yoe + doy) - 719468)
  = (yoe + era * 400
     + (if (if (5 * doy + 2) / 153 <? 10 then (5 * doy + 2) / 153 + 3
            else (5 * doy + 2) / 153 - 9) <=? 2 then 1 else 0),
     if (5 * doy + 2) / 153 <? 10 then (5 * doy + 2) / 153 + 3
     else (5 * doy + 2) / 153 - 9,
     doy - (153 * ((5 * doy + 2) / 153) + 2) / 5 + 1).
Proof.
  intros Hy Hd Hleap. unfold civil_from_days. cbv zeta.
  replace (era * 146097 + (year_start yoe + doy) - 719468 + 719468)
    with (era * 146097 + (year_start yoe + doy)) by lia.
  assert (Hera : (era * 146097 + (year_start yoe + doy)) / 146097 = era).
  { unfold year_start. Z.div_mod_to_equations; lia. }
  rewrite Hera.
  replace (era * 146097 + (year_start yoe + doy) - era * 146097)
    with (year_start yoe + doy) by lia.
  assert (Hyoe : (year_start yoe + doy - (year_start yoe + doy) / 1460
                  + (year_start yoe + doy) / 36524
                  - (year_start yoe + doy) / 146096) / 365 = yoe).
  { unfold year_start. Z.div_mod_to_equations; lia. }
  rewrite Hyoe. fold (year_start yoe).
  replace (year_start yoe + doy - year_start yoe) with doy by lia.
  reflexivity.
Qed.

Lemma leap_days_spec (y : Z) :
  (leap_days y = 1 /\ y mod 4 = 0 /\ (y mod 100 <> 0 \/ y mod 400 = 0))
  \/ (leap_days y = 0 /\ (y mod 4 <> 0 \/ (y mod 100 = 0 /\ y mod 400 <> 0))).
Proof.
  unfold leap_days, is_leap.
  destruct (Z.eqb_spec (y mod 4) 0), (Z.eqb_spec (y mod 100) 0),
    (Z.eqb_spec (y mod 400) 0); simpl; Z.div_mod_to_equations; lia.
Qed.

(** 1 March and 1 January of a year, counted in eras. *)
Lemma march_first (y : Z) :
  DayFromYear y + 59 + leap_days y + 719468
  = (y / 400) * 146097 + year_start (y mod 400).
Proof.
  unfold DayFromYear, year_start.
  destruct (leap_days_spec y) as [[E [H4 H]]|[E H]]; rewrite E;
    Z.div_mod_to_equations; lia.
Qed.

Lemma january_first (y : Z) :
  DayFromYear y + 719468
  = ((y - 1) / 400) * 146097 + year_start ((y - 1) mod 400) + 306.
Proof.
  unfold DayFromYear, year_start. Z.div_mod_to_equations; lia.
Qed.

Lemma civil_march_based (y k : Z) :
  0 <= k <= 305 ->
  civil_from_days (DayFromYear y + 59 + leap_days y + k)
  = (y, (5 * k + 2) / 153 + 3, k - (153 * ((5 * k + 2) / 153) + 2) / 5 + 1).
Proof.
  intros Hk.
  pose proof (march_first y) as Hy.
  pose proof (Z.mod_pos_bound y 400 ltac:(lia)) as Hb.
  pose proof (Z.div_mod y 400 ltac:(lia)) as Hdiv.
  replace (DayFromYear y + 59 + leap_days y + k)
    with (y / 400 * 146097 + (year_start (y mod 400) + k) - 719468) by lia.
  rewrite civil_of_parts by lia.
  assert (Hmp : 0 <= (5 * k + 2) / 153 < 10) by (Z.div_mod_to_equations; lia).
  destruct (Z.ltb_spec ((5 * k + 2) / 153) 10); [|lia].
  destruct (Z.leb_spec ((5 * k + 2) / 153 + 3) 2); [lia|].
  f_equal. f_equal. lia.
Qed.

Lemma civil_january_based (y k : Z) :
  0 <= k <= 58 + leap_days y ->
  civil_from_days (DayFromYear y + k)
  = (y, (5 * (k + 306) + 2) / 153 - 9,
     k + 306 - (153 * ((5 * (k + 306) + 2) / 153) + 2) / 5 + 1).
Proof.
  intros Hk.
  pose proof (january_first y) as Hy.
  pose proof (Z.mod_pos_bound (y - 1) 400 ltac:(lia)) as Hb.
  pose proof (Z.div_mod (y - 1) 400 ltac:(lia)) as Hdiv.
  replace (DayFromYear y + k)
    with ((y - 1) / 400 * 146097 + (year_start ((y - 1) mod 400) + (k + 306))
          - 719468) by lia.
  assert (Hleap : k + 306 = 365 ->
                  ((y - 1) mod 400 + 1) mod 4 = 0
                  /\ (((y - 1) mod 400 + 1) mod 100 <> 0
                      \/ (y - 1) mod 400 = 399)).
  { intros E. destruct (leap_days_spec y) as [[El [H4 H]]|[El H]]; [|lia].
    clear Hy. Z.div_mod_to_equations; lia. }
  assert (Hdoy : 0 <= k + 306 <= 365).
  { destruct (leap_days_spec y) as [[El _]|[El _]]; lia. }
  rewrite civil_of_parts by (try exact Hleap; lia).
  assert (Hmp : 10 <= (5 * (k + 306) + 2) / 153 <= 11)
    by (Z.div_mod_to_equations; lia).
  destruct (Z.ltb_spec ((5 * (k + 306) + 2) / 153) 10); [lia|].
  destruct (Z.leb_spec ((5 * (k + 306) + 2) / 153 - 9) 2); [|lia].
  f_equal. f_equal. lia.
Qed.

Lemma valid_date_bounds y m d :
  valid_date y m d = true -> 1 <= m <= 12 /\ 1 <= d <= days_in_month y m.
Proof.
  unfold valid_date. intros H.
  repeat (apply andb_true_iff in H as [H ?]).
  repeat match goal with
         | H : (_ <=? _) = true |- _ => apply Z.leb_le in H
         end.
  lia.
Qed.

Lemma month_cases m :
  1 <= m <= 12 ->
  m = 1 \/ m = 2 \/ m = 3 \/ m = 4 \/ m = 5 \/ m = 6 \/ m = 7 \/ m = 8 \/
  m = 9 \/ m = 10 \/ m = 11 \/ m = 12.
Proof. lia. Qed.

Lemma february y : days_in_month y 2 = 28 + leap_days y.
Proof.
  unfold days_in_month, leap_days. simpl. destruct (is_leap y); reflexivity.
Qed.

(** Splitting the day number of a calendar day into year, month and day
    gives the day back, in every year. *)
Lemma civil_of_date (y m d : Z) :
  valid_date y m d = true -> civil_from_days (days_of_date y m d) = (y, m, d).
Proof.
  intros H. apply valid_date_bounds in H as [Hm Hd].
  pose proof (february y) as Hfeb.
  assert (Hl : 0 <= leap_days y <= 1)
    by (unfold leap_days; destruct (is_leap y); lia).
  unfold days_of_date.
  destruct (month_cases m Hm)
    as [->|[->|[->|[->|[->|[->|[->|[->|[->|[->|[->| ->]]]]]]]]]]];
    match goal with
    | |- context [Z.to_nat ?mm] =>
        let n := eval compute in (Z.to_nat mm) in change (Z.to_nat mm) with n
    end;
    cbn [days_before_month Z.of_nat Pos.of_succ_nat Pos.succ];
    rewrite ?Hfeb;
    try (change (days_in_month y 1) with 31 in * );
    try (change (days_in_month y 3) with 31 in * );
    try (change (days_in_month y 4) with 30 in * );
    try (change (days_in_month y 5) with 31 in * );
    try (change (days_in_month y 6) with 30 in * );
    try (change (days_in_month y 7) with 31 in * );
    try (change (days_in_month y 8) with 31 in * );
    try (change (days_in_month y 9) with 30 in * );
    try (change (days_in_month y 10) with 31 in * );
    try (change (days_in_month y 11) with 30 in * );
    try (change (days_in_month y 12) with 31 in * ).
  1-2: match goal with
       | |- civil_from_days (DayFromYear ?yy + ?a + ?b) = _ =>
           replace (DayFromYear yy + a + b) with (DayFromYear yy + (a + b)) by lia;
           rewrite civil_january_based by lia
       end;
       f_equal; [f_equal|]; Z.div_mod_to_equations; lia.
  all: match goal with
       | |- civil_from_days (DayFromYear ?yy + ?a + ?b) = _ =>
           replace (DayFromYear yy + a + b)
             with (DayFromYear yy + 59 + leap_days yy
                   + (a + b - 59 - leap_days yy))
             by lia;
           rewrite civil_march_based by lia
       end;
       f_equal; [f_equal|]; Z.div_mod_to_equations; lia.
Qed.

Lemma digit_val_Some (c : jschar) (v : Z) :
  digit_val c = Some v -> 0 <= v <= 9 /\ Z.to_N (48 + v) = c.
Proof.
  unfold digit_val. destruct ((48 <=? c) && (c <=? 57))%N eqn:E; [|discriminate].
  intros [= <-]. apply andb_true_iff in E as [Hlo Hhi].
  apply N.leb_le in Hlo, Hhi. split; [lia|].
  replace (48 + (Z.of_N c - 48)) with (Z.of_N c) by lia. apply N2Z.id.
Qed.

Lemma digits_val_2 (c1 c2 : jschar) (n : Z) :
  digits_val 0 [c1; c2] = Some n ->
  0 <= n <= 99 /\ pad_digits 2 n = [c1; c2].
Proof.
  replace (digits_val 0 [c1; c2])
    with (match digit_val c1, digit_val c2 with
          | Some v1, Some v2 => Some (10 * v1 + v2)
          | _, _ => None
          end)
    by (unfold digits_val; destruct (digit_val c1), (digit_val c2);
        reflexivity || (f_equal; lia)).
  destruct (digit_val c1) as [v1|] eqn:E1; [|discriminate].
  destruct (digit_val c2) as [v2|] eqn:E2; [|discriminate].
  intros Hn. assert (En : n = 10 * v1 + v2) by congruence. clear Hn. subst n.
  apply digit_val_Some in E1 as [B1 <-], E2 as [B2 <-].
  split; [lia|]. cbn [pad_digits app]. unfold digit_char.
  repeat f_equal; Z.div_mod_to_equations; lia.
Qed.

Lemma digits_val_4 (c1 c2 c3 c4 : jschar) (n : Z) :
  digits_val 0 [c1; c2; c3; c4] = Some n ->
  0 <= n <= 9999 /\ pad_digits 4 n = [c1; c2; c3; c4].
Proof.
  replace (digits_val 0 [c1; c2; c3; c4])
    with (match digit_val c1, digit_val c2, digit_val c3, digit_val c4 with
          | Some v1, Some v2, Some v3, Some v4 =>
              Some (1000 * v1 + 100 * v2 + 10 * v3 + v4)
          | _, _, _, _ => None
          end)
    by (unfold digits_val;
        destruct (digit_val c1), (digit_val c2), (digit_val c3), (digit_val c4);
        reflexivity || (f_equal; lia)).
  destruct (digit_val c1) as [v1|] eqn:E1; [|discriminate].
  destruct (digit_val c2) as [v2|] eqn:E2; [|discriminate].
  destruct (digit_val c3) as [v3|] eqn:E3; [|discriminate].
  destruct (digit_val c4) as [v4|] eqn:E4; [|discriminate].
  intros Hn.
  assert (En : n = 1000 * v1 + 100 * v2 + 10 * v3 + v4) by congruence.
  clear Hn. subst n.
  apply digit_val_Some in E1 as [B1 <-], E2 as [B2 <-], E3 as [B3 <-],
    E4 as [B4 <-].
  split; [lia|]. cbn [pad_digits app]. unfold digit_char.
  repeat f_equal; Z.div_mod_to_equations; lia.
Qed.

(** Formatting the day that a [YYYY-MM-DD] string names gives the string
    back. *)
Lemma iso_date_part_of_parse (s : jsstring) (t : Z) :
  parse_iso_date_only s = Some t -> iso_date_part t = s.
Proof.
  unfold parse_iso_date_only.
  destruct s as [|y1 [|y2 [|y3 [|y4 [|h1 [|m1 [|m2 [|h2 [|d1 [|d2 [|? ?]]]]]]]]]]];
    try discriminate.
  destruct (N.eqb h1 ch_dash && N.eqb h2 ch_dash) eqn:Hdash; [|discriminate].
  apply andb_true_iff in Hdash as [H1 H2]. apply N.eqb_eq in H1, H2. subst h1 h2.
  destruct (digits_val 0 [y1; y2; y3; y4]) as [y|] eqn:Ey; [|discriminate].
  destruct (digits_val 0 [m1; m2]) as [m|] eqn:Em; [|discriminate].
  destruct (digits_val 0 [d1; d2]) as [d|] eqn:Ed; [|discriminate].
  apply digits_val_4 in Ey as [By Py].
  apply digits_val_2 in Em as [_ Pm], Ed as [_ Pd].
  fold (valid_date y m d).
  destruct (valid_date y m d) eqn:V; [|discriminate].
  intros [= <-]. unfold iso_date_part.
  change (utc_midnight y m d) with (days_of_date y m d * msPerDay).
  rewrite Z.div_mul by discriminate.
  rewrite (civil_of_date y m d V).
  destruct (Z.leb_spec 0 y); [|lia]. destruct (Z.leb_spec y 9999); [|lia].
  cbn [andb]. rewrite Py, Pm, Pd. reflexivity.
Qed.

(** A due date given as a calendar day [YYYY-MM-DD] comes back unchanged
    as the sanitized value, whatever the verdict, the clock and the zone. *)
Theorem dueDate_sanitized_is_the_input :
  forall (h : Host) (s : jsstring) (t : Z),
    parse_iso_date_only s = Some t ->
    exists r, dueDate_validate h (JStr s) = Return r
              /\ sanitizedValue r = Some (JStr s).
Proof.
  intros h s t H. rewrite (dueDate_validate_iso h s t H).
  eexists. split; [reflexivity|]. cbn [sanitizedValue].
  now rewrite (iso_date_part_of_parse s t H).
Qed.

Lemma dueDate_sanitized_is_the_input_witness :
  exists r, dueDate_validate west_host (JStr (lit "1999-12-31")) = Return r
            /\ sanitizedValue r = Some (JStr (lit "1999-12-31")).
Proof.
  apply (dueDate_sanitized_is_the_input west_host (lit "1999-12-31")
           (utc_midnight 1999 12 31)).
  reflexivity.
Defined.

(** ** What the entry points read of their input *)

Lemma js_get_other_key {A} (k f : jsstring) (a : A) (o : jsobj A) :
  k <> f -> js_get ((k, a) :: o) f = js_get o f.
Proof. intros H. simpl. apply str_eqb_neq in H. now rewrite H. Qed.

(** The entry points look at the four task fields only (and
    [validateTaskUpdate] at [hasOwnProperty], which it calls): two
    objects that agree on them have the same outcome, and no other key
    ever reaches the sanitized data. *)
Theorem only_the_task_fields_matter :
  forall (h : Host) (this : TaskValidator) (a b : list (jsstring * JsVal)),
    (forall f, In f field_order -> js_get a f = js_get b f) ->
    validateTask h this (JObject a) = validateTask h this (JObject b)
    /\ (has_own a (lit "hasOwnProperty") = has_own b (lit "hasOwnProperty") ->
        validateTaskUpdate h this (JObject a)
        = validateTaskUpdate h this (JObject b))
    /\ (forall r f,
          validateTask h this (JObject a) = Return r
          \/ validateTaskUpdate h this (JObject a) = Return r ->
          In f (Object_keys (sanitizedData r)) -> In f field_order).
Proof.
  intros h this a b H.
  assert (H1 : js_get a f_title = js_get b f_title) by (apply H; simpl; auto).
  assert (H2 : js_get a f_description = js_get b f_description)
    by (apply H; simpl; auto).
  assert (H3 : js_get a f_priority = js_get b f_priority)
    by (apply H; simpl; auto).
  assert (H4 : js_get a f_dueDate = js_get b f_dueDate)
    by (apply H; simpl; auto).
  split; [|split].
  - unfold validateTask, get_prop. now rewrite H1, H2, H3, H4.
  - intros Hs.
    unfold validateTaskUpdate, update_field, call_hasOwnProperty, get_prop.
    rewrite Hs. unfold has_own. now rewrite H1, H2, H3, H4.
  - intros r f Hr Hin.
    apply entry_point_results in Hr as (o1 & o2 & o3 & o4 & -> & _).
    apply sanitized_of_keys in Hin.
    apply in_map_iff in Hin as ([k fr] & <- & Hin).
    apply results_of_In in Hin as [[-> _]|[[-> _]|[[-> _]|[-> _]]]];
      simpl; auto.
Qed.

Lemma only_the_task_fields_matter_witness :
  validateTask sample_host new_TaskValidator
    (JObject [(lit "id", JNum (Finite (7 # 1))); (f_title, JStr (lit "Buy milk"));
              (lit "completed", JBool true)])
  = validateTask sample_host new_TaskValidator
      (JObject [(f_title, JStr (lit "Buy milk"))]).
Proof.
  refine (proj1 (only_the_task_fields_matter sample_host new_TaskValidator
                   [(lit "id", JNum (Finite (7 # 1)));
                    (f_title, JStr (lit "Buy milk"));
                    (lit "completed", JBool true)]
                   [(f_title, JStr (lit "Buy milk"))] _)).
  intros f Hf. simpl in Hf.
  destruct Hf as [<-|[<-|[<-|[<-|[]]]]]; reflexivity.
Defined.

(** Handed a boolean, a number or a string (the primitive or a [String]
    object) in place of the task object, [validateTaskUpdate] validates
    nothing and reports a valid, empty result, and [validateTask] answers
    as for the empty object. *)
Theorem primitive_in_place_of_the_object :
  forall (h : Host) (this : TaskValidator) (v : JsVal),
    is_nullish v = false ->
    (forall props, v <> JObject props) ->
    (forall props, v <> JNullProtoObject props) ->
    validateTaskUpdate h this v = Return (mkAggregate true [] [] [])
    /\ validateTask h this v = validateTask h this (JObject []).
Proof.
  intros h this v Hn Hobj Hbare.
  destruct v; try discriminate; try (split; reflexivity).
  - exfalso. now apply (Hobj props).
  - exfalso. now apply (Hbare props).
Qed.

Lemma primitive_in_place_of_the_object_witness :
  validateTaskUpdate sample_host new_TaskValidator (JStr (lit "Buy milk"))
    = Return (mkAggregate true [] [] [])
  /\ validateTask sample_host new_TaskValidator (JStr (lit "Buy milk"))
     = validateTask sample_host new_TaskValidator (JObject []).
Proof.
  apply (primitive_in_place_of_the_object sample_host new_TaskValidator
           (JStr (lit "Buy milk"))).
  - reflexivity.
  - discriminate.
  - discriminate.
Defined.

(** ** Whitespace at the ends of the sanitized value *)

Lemma trimStart_head (s u : jsstring) (c : jschar) :
  trimStart s = c :: u -> is_js_space c = false.
Proof.
  induction s as [|x s IH]; simpl; [discriminate|].
  destruct (is_js_space x) eqn:E; [exact IH|]. now intros [= <- _].
Qed.

Lemma trimStart_suffix (s : jsstring) : exists a, s = a ++ trimStart s.
Proof.
  induction s as [|x s [a IH]]; simpl; [now exists []|].
  destruct (is_js_space x).
  - exists (x :: a). simpl. now rewrite <- IH.
  - now exists [].
Qed.

Lemma trimEnd_prefix (s : jsstring) : exists b, s = trimEnd s ++ b.
Proof.
  unfold trimEnd. destruct (trimStart_suffix (rev s)) as [a E].
  exists (rev a). rewrite <- rev_app_distr, <- E. symmetry; apply rev_involutive.
Qed.

(** The trimmed string neither begins nor ends with whitespace. *)
Lemma trim_ends (s : jsstring) :
  (forall c u, trim s = c :: u -> is_js_space c = false)
  /\ (forall c u, trim s = u ++ [c] -> is_js_space c = false).
Proof.
  unfold trim. split; intros c u E.
  - destruct (trimEnd_prefix (trimStart s)) as [b Hb].
    rewrite E in Hb. simpl in Hb. now apply trimStart_head in Hb.
  - unfold trimEnd in E. apply (f_equal (@rev _)) in E.
    rewrite rev_involutive, rev_app_distr in E. simpl in E.
    now apply trimStart_head in E.
Qed.

Lemma escape_char_ends (c : jschar) :
  is_js_space c = false ->
  (exists x u, escape_char c = x :: u /\ is_js_space x = false)
  /\ (exists x u, escape_char c = u ++ [x] /\ is_js_space x = false).
Proof.
  intros Hc.
  destruct (escape_char_cases c)
    as [[-> E]|[[-> E]|[[-> E]|[[-> E]|[[-> E]|[Hx E]]]]]]; rewrite E.
  1: split; [now exists ch_amp, (lit "amp;")|now exists 59%N, (lit "&amp")].
  1: split; [now exists ch_amp, (lit "lt;")|now exists 59%N, (lit "&lt")].
  1: split; [now exists ch_amp, (lit "gt;")|now exists 59%N, (lit "&gt")].
  1: split; [now exists ch_amp, (lit "quot;")|now exists 59%N, (lit "&quot")].
  1: split; [now exists ch_amp, (lit "#x27;")|now exists 59%N, (lit "&#x27")].
  split; [now exists c, []|now exists c, []].
Qed.

(** The sanitized value that the title and description validators return
    for a string never begins or ends with whitespace. *)
Theorem sanitized_text_has_trimmed_ends :
  forall (tv : TitleValidationStrategy) (dv : DescriptionValidationStrategy)
         (s : jsstring) (r : FieldResult),
    title_validate tv (JStr s) = Return r
    \/ description_validate dv (JStr s) = Return r ->
    forall t, sanitizedValue r = Some (JStr t) ->
      (forall c u, t = c :: u -> is_js_space c = false)
      /\ (forall c u, t = u ++ [c] -> is_js_space c = false).
Proof.
  intros tv dv s r H t Ht.
  assert (E : t = sanitize (trim s) \/ t = []).
  { destruct H as [H|H].
    - unfold title_validate in H.
      destruct (ToBoolean (JStr s)); simpl negb in H; cbv iota in H.
      + cbn [call_trim bind] in H. injection H as <-.
        cbn [sanitizedValue] in Ht. injection Ht as <-. now left.
      + injection H as <-. discriminate Ht.
    - unfold description_validate in H.
      destruct (ToBoolean (JStr s)); simpl negb in H; cbv iota in H.
      + cbn [call_trim bind] in H. injection H as <-.
        cbn [sanitizedValue] in Ht. injection Ht as <-. now left.
      + injection H as <-. cbn [sanitizedValue] in Ht. injection Ht as <-.
        now right. }
  destruct E as [->| ->].
  2:{ split; intros c u E; [discriminate|].
      destruct u; discriminate. }
  destruct (trim_ends s) as [Hhead Hlast].
  rewrite sanitize_flat_map. split; intros c u E.
  - destruct (trim s) as [|x v] eqn:T; [discriminate|].
    destruct (escape_char_ends x (Hhead x v eq_refl)) as [(y & w & Ey & Hy) _].
    cbn [flat_map] in E. rewrite Ey in E. simpl in E. now injection E as <- _.
  - destruct (trim s) as [|x0 v0] eqn:T; [destruct u; discriminate|].
    destruct (@exists_last _ (x0 :: v0) ltac:(discriminate)) as (v & x & Hvx).
    rewrite Hvx in *.
    destruct (escape_char_ends x (Hlast x v eq_refl)) as [_ (y & w & Ey & Hy)].
    rewrite flat_map_app in E. cbn [flat_map] in E.
    rewrite app_nil_r, Ey, app_assoc in E.
    apply app_inj_tail in E as [_ <-]. exact Hy.
Qed.

Lemma sanitized_text_has_trimmed_ends_witness :
  exists r t,
    title_validate (new_TitleValidationStrategy 1 100)
                   (JStr (lit "  'quoted'  ")) = Return r
    /\ sanitizedValue r = Some (JStr t)
    /\ t = lit "&#x27;quoted&#x27;"
    /\ (forall c u, t = c :: u -> is_js_space c = false)
    /\ (forall c u, t = u ++ [c] -> is_js_space c = false).
Proof.
  eexists. eexists. split; [reflexivity|]. split; [reflexivity|].
  split; [reflexivity|].
  apply (sanitized_text_has_trimmed_ends (new_TitleValidationStrategy 1 100)
           (new_DescriptionValidationStrategy 500) (lit "  'quoted'  ") _
           (or_introl eq_refl)).
  reflexivity.
Defined.

(** ** Invariants of the timers *)

Lemma filter_same_handle (p : Timer -> bool) (hd : positive) (l : list Timer) :
  NoDup (map timer_handle l) ->
  (forall t, In t l -> p t = true -> timer_handle t = hd) ->
  (List.length (filter p l) <= 1)%nat.
Proof.
  induction l as [|t l IH]; intros Hnd Hh; [simpl; lia|].
  inversion Hnd as [|? ? Hnot Hnd']; subst.
  assert (IHl : (List.length (filter p l) <= 1)%nat)
    by (apply IH; [exact Hnd'|intros u Hu; apply Hh; now right]).
  simpl. destruct (p t) eqn:Pt; [|exact IHl].
  assert (E : filter p l = []).
  { apply filter_none. intros u Hu. destruct (p u) eqn:Pu; [|reflexivity].
    exfalso. apply Hnot.
    rewrite (Hh t (or_introl eq_refl) Pt), <- (Hh u (or_intror Hu) Pu).
    now apply in_map. }
  rewrite E. simpl. lia.
Qed.

Lemma NoDup_map_filter {A B} (g : A -> B) (p : A -> bool) (l : list A) :
  NoDup (map g l) -> NoDup (map g (filter p l)).
Proof.
  induction l as [|x l IH]; simpl; [auto|].
  intros H. inversion H as [|? ? Hx Hl]; subst.
  destruct (p x); [|auto]. simpl. constructor; [|auto].
  intros Hin. apply Hx.
  apply in_map_iff in Hin as (y & Hy & Hin). apply filter_In in Hin as [Hin _].
  apply in_map_iff. now exists y.
Qed.

(** What every sequence of calls, firings and waiting keeps, whatever
    their order: consistency, and handles that are all different. *)
Lemma do_actions_keeps h actions this w :
  consistent this w -> NoDup (map timer_handle (pending w)) ->
  consistent (fst (do_actions h actions (this, w)))
             (snd (do_actions h actions (this, w)))
  /\ NoDup (map timer_handle (pending (snd (do_actions h actions (this, w))))).
Proof.
  intros C N. induction actions as [|a actions IH] using rev_ind; [auto|].
  rewrite do_actions_app. destruct IH as [C' N'].
  destruct (do_actions h actions (this, w)) as [this' w'].
  cbn [fst snd] in *. cbn [do_actions fold_left].
  destruct a as [c| |dt]; cbn [do_action fst snd].
  - split; [now apply validateField_consistent|].
    rewrite validateField_pending, map_app. simpl.
    apply NoDup_app.
    + now apply NoDup_map_filter.
    + constructor; [simpl; tauto|constructor].
    + intros hd Hin [<-|[]].
      apply in_map_iff in Hin as (t & Ht & Hin).
      apply filter_In in Hin as [Hin _].
      pose proof (cons_pending_issued _ _ C' t Hin). unfold scheduled in Ht.
      simpl in Ht. lia.
  - destruct (fire_next h this' w') as [w''|] eqn:F; cbn [fst snd]; [|auto].
    split; [now apply (fire_next_consistent h this' w' w'')|].
    apply fire_next_Some in F as (m & _ & P & _ & _).
    apply (Permutation_map timer_handle) in P. simpl in P.
    apply Permutation_sym in P. apply (Permutation_NoDup P) in N'.
    now inversion N'.
  - split; [|exact N']. destruct C' as [C1 C2 C3 C4 C5]. split; assumption.
Qed.

(** At any moment, however calls, firings and waiting have alternated,
    at most one timer is pending for an ordinary field. *)
Theorem at_most_one_pending_timer_per_field :
  forall (h : Host) (v : TaskValidator) (actions : list Action) (f : jsstring),
    f <> k_proto ->
    (List.length
       (pending_for f
          (snd (do_actions h actions (new_RealTimeValidator v, new_EventLoop))))
     <= 1)%nat.
Proof.
  intros h v actions f Hf.
  destruct (do_actions_keeps h actions (new_RealTimeValidator v) new_EventLoop
              (consistent_new v) ltac:(constructor)) as [C N].
  destruct (do_actions h actions (new_RealTimeValidator v, new_EventLoop))
    as [this' w'].
  cbn [fst snd] in *. unfold pending_for.
  destruct (js_get (debounceTimers this') f) as [hd|] eqn:E.
  - apply (filter_same_handle (is_for f) hd _ N).
    intros t Hin Ht. apply str_eqb_eq in Ht.
    pose proof (cons_owned _ _ C t Hin) as Ho. rewrite Ht in Ho.
    specialize (Ho Hf). congruence.
  - rewrite filter_none; [simpl; lia|].
    intros t Hin. destruct (is_for f t) eqn:Ht; [|reflexivity].
    apply str_eqb_eq in Ht.
    pose proof (cons_owned _ _ C t Hin) as Ho. rewrite Ht in Ho.
    specialize (Ho Hf). congruence.
Qed.

Lemma at_most_one_pending_timer_witness :
  (List.length
     (pending_for f_title
        (snd (do_actions sample_host sample_actions
                (new_RealTimeValidator new_TaskValidator, new_EventLoop))))
   <= 1)%nat
  /\ pending_for f_title
       (snd (do_actions sample_host sample_actions
               (new_RealTimeValidator new_TaskValidator, new_EventLoop)))
     <> [].
Proof.
  split.
  - apply (at_most_one_pending_timer_per_field sample_host new_TaskValidator
             sample_actions f_title).
    discriminate.
  - discriminate.
Defined.

(** Every entry of the log is the run of the task of some earlier call:
    a callback never receives a result for a value that was not handed
    to [validateField] under that field name. *)
Theorem callbacks_report_supplied_values :
  forall (h : Host) (v : TaskValidator) (actions : list Action) (e : Event),
    In e (log (run_until_idle h
                 (fst (do_actions h actions (new_RealTimeValidator v, new_EventLoop)))
                 (snd (do_actions h actions (new_RealTimeValidator v, new_EventLoop)))))
    ->
    exists c, In c (calls_of actions) /\ e = run_task h v (task_of c).
Proof.
  intros h v actions.
  assert (H : validator (fst (do_actions h actions
                                (new_RealTimeValidator v, new_EventLoop))) = v
              /\ (forall t, In t (pending (snd (do_actions h actions
                                (new_RealTimeValidator v, new_EventLoop)))) ->
                  exists c, In c (calls_of actions) /\ timer_task t = task_of c)
              /\ (forall e, In e (log (snd (do_actions h actions
                                (new_RealTimeValidator v, new_EventLoop)))) ->
                  exists c, In c (calls_of actions)
                            /\ e = run_task h v (task_of c))).
  { induction actions as [|a actions IH] using rev_ind.
    - simpl. repeat split; intros ? [].
    - rewrite do_actions_app, calls_of_snoc.
      destruct IH as (Hv & Hp & Hl).
      destruct (do_actions h actions (new_RealTimeValidator v, new_EventLoop))
        as [this' w'].
      cbn [fst snd] in *. cbn [do_actions fold_left].
      assert (Hmono : forall c, In c (calls_of actions) ->
                In c (calls_of actions
                      ++ match a with DoCall c0 => [c0] | _ => [] end))
        by (intros c Hc; apply in_or_app; now left).
      destruct a as [c0| |dt]; cbn [do_action fst snd].
      + rewrite validateField_validator, validateField_pending,
          validateField_log.
        split; [exact Hv|]. split.
        * intros t Hin. apply in_app_or in Hin as [Hin|[<-|[]]].
          -- apply filter_In in Hin as [Hin _].
             destruct (Hp t Hin) as (c & Hc & E). exists c. auto.
          -- exists c0. split; [apply in_or_app; right; now left|reflexivity].
        * intros e He. destruct (Hl e He) as (c & Hc & E). exists c. auto.
      + destruct (fire_next h this' w') as [w''|] eqn:F; cbn [fst snd].
        * apply fire_next_Some in F as (m & _ & P & _ & L).
          split; [exact Hv|]. split.
          -- intros t Hin.
             assert (Hin' : In t (pending w'))
               by (apply (Permutation_in t P); now right).
             destruct (Hp t Hin') as (c & Hc & E). exists c. auto.
          -- intros e He. rewrite L in He.
             apply in_app_or in He as [He|[<-|[]]].
             ++ destruct (Hl e He) as (c & Hc & E). exists c. auto.
             ++ assert (Hm : In m (pending w'))
                  by (apply (Permutation_in m P); now left).
                destruct (Hp m Hm) as (c & Hc & E). exists c.
                split; [auto|]. now rewrite Hv, E.
        * split; [exact Hv|]. split.
          -- intros t Hin. destruct (Hp t Hin) as (c & Hc & E). exists c. auto.
          -- intros e He. destruct (Hl e He) as (c & Hc & E). exists c. auto.
      + split; [exact Hv|]. split.
        * intros t Hin. destruct (Hp t Hin) as (c & Hc & E). exists c. auto.
        * intros e He. destruct (Hl e He) as (c & Hc & E). exists c. auto. }
  destruct H as (Hv & Hp & Hl).
  destruct (do_actions h actions (new_RealTimeValidator v, new_EventLoop))
    as [this' w'].
  cbn [fst snd] in *.
  destruct (run_timers_log h this' (List.length (pending w')) w' (Nat.le_refl _))
    as (fired & P & L & _).
  fold (run_until_idle h this' w') in L.
  intros e He. rewrite L in He. apply in_app_or in He as [He|He].
  - now apply Hl.
  - apply in_map_iff in He as (t & <- & Ht).
    apply (Permutation_in t P) in Ht.
    destruct (Hp t Ht) as (c & Hc & E). exists c.
    split; [exact Hc|]. now rewrite Hv, E.
Qed.

Lemma callbacks_report_supplied_values_witness :
  exists c,
    In c (calls_of sample_actions)
    /\ Invoked 7 f_title (mkFieldResult true [] (Some (JStr (lit "abc"))))
       = run_task sample_host new_TaskValidator (task_of c).
Proof.
  apply (callbacks_report_supplied_values sample_host new_TaskValidator
           sample_actions).
  right; left; reflexivity.
Defined.
